(** * OpenTUI: input parsing, link detection and rebuild coalescing

    A shallow embedding of parts of the OpenTUI core:
    - [packages/core/src/lib/parse.mouse.ts]   (module [Mouse]),
    - [lib/detect-links.ts]                    (module [Links]),
    - [renderables/Diff.ts], rebuild requests  (module [Diff]),
    - [renderables/Code.ts], [startHighlight]  (module [Code]),
    - the renderer's focus handling            (module [Focus]).
    The modules [MouseSpec], [LinksSpec], [DiffSpec], [CodeSpec] and
    [FocusSpec] hold the properties proved of them.

    JavaScript strings are lists of UTF-16 code units ([list Z]); JavaScript
    numbers are integers in [Z], which is exact for the integral values below
    [2^53] that the code manipulates. *)

From Stdlib Require Import ZArith List Lia Bool String Ascii.
From stdpp Require Import gmap strings list.
Import ListNotations.

(** ** JavaScript strings and numbers *)

Module Js.
Local Open Scope Z_scope.

(** A string is the list of its UTF-16 code units, [s.length] is [length s]. *)
Abbreviation JsString := (list Z).

(** A string literal; every character of the literal is one code unit. *)
Definition lit (s : string) : JsString :=
  map (fun a => Z.of_nat (nat_of_ascii a)) (list_ascii_of_string s).

(** [s.charCodeAt(i)] and [s[i]]: [None] stands for [NaN], respectively
    [undefined], out of range. *)
Definition charCodeAt (s : JsString) (i : nat) : option Z := s !! i.

(** [search] occurs in [s] at its very beginning. *)
Fixpoint isPrefixOf (search s : JsString) : bool :=
  match search, s with
  | [], _ => true
  | _ :: _, [] => false
  | c :: search', d :: s' => (c =? d) && isPrefixOf search' s'
  end.

(** [s.startsWith(search, position)] for a non-negative position. *)
Definition startsWith (s search : JsString) (position : nat) : bool :=
  isPrefixOf search (drop position s).

(** [ToInt32]: the operand conversion of the bitwise operators. *)
Definition toInt32 (n : Z) : Z := (n + 2 ^ 31) mod 2 ^ 32 - 2 ^ 31.

(** [a & b]. *)
Definition bitand (a b : Z) : Z := Z.land (toInt32 a) (toInt32 b).

(** Largest range in which every integer is a JavaScript number. *)
Definition MAX_SAFE : Z := 2 ^ 53.

(** [s.indexOf(search, position)] for a non-negative position: the first
    index at or after [position] at which [search] occurs, [-1] if none.
    The scan walks the suffix [drop position s]; [i] is the index of the
    head of [rest] in [s]. *)
Fixpoint indexOfFrom (search rest : JsString) (i : nat) : Z :=
  if isPrefixOf search rest then Z.of_nat i
  else match rest with
       | [] => -1
       | _ :: rest' => indexOfFrom search rest' (S i)
       end.

Definition indexOf (s search : JsString) (position : nat) : Z :=
  let p := Nat.min position (length s) in
  indexOfFrom search (drop p s) p.

(** The clamping of one bound of [s.slice(start, end)]. *)
Definition sliceBound (len : nat) (k : Z) : nat :=
  if k <? 0 then Z.to_nat (Z.max (Z.of_nat len + k) 0)
  else Nat.min (Z.to_nat k) len.

(** [s.slice(start, end)]. *)
Definition slice (s : JsString) (start end_ : Z) : JsString :=
  let from := sliceBound (length s) start in
  let to := sliceBound (length s) end_ in
  take (to - from)%nat (drop from s).

End Js.

(** ** The mouse parser, [parse.mouse.ts] *)

Module Mouse.
Import Js.
Local Open Scope Z_scope.

Inductive MouseEventType : Type :=
  | Down | Up | Move | Drag | DragEnd | Drop | Over | Out | Scroll.

#[global] Instance MouseEventType_eq_dec : EqDecision MouseEventType.
Proof. solve_decision. Defined.

Inductive ScrollDirection : Type := DirUp | DirDown | DirLeft | DirRight.

Record ScrollInfo : Type := { direction : ScrollDirection; delta : Z }.

Record Modifiers : Type := { shift : bool; alt : bool; ctrl : bool }.

Record RawMouseEvent : Type := {
  type : MouseEventType;
  button : Z;
  x : Z;
  y : Z;
  modifiers : Modifiers;
  scroll : option ScrollInfo
}.

Record ParsedMouseSequence : Type := {
  event : RawMouseEvent;
  consumed : nat
}.

(** The final byte of an SGR sequence, ["M" | "m"]. *)
Inductive PressRelease : Type := UpperM | LowerM.

Definition isUpperM (pressRelease : PressRelease) : bool :=
  match pressRelease with UpperM => true | LowerM => false end.

(** The parser's only field, [mouseButtonsPressed = new Set<number>()]. *)
Abbreviation Pressed := (gset Z).

Definition init : Pressed := ∅.

Definition reset (mouseButtonsPressed : Pressed) : Pressed := ∅.

(** [SCROLL_DIRECTIONS]; the key is always [code & 3]. *)
Definition SCROLL_DIRECTIONS (key : Z) : option ScrollDirection :=
  if key =? 0 then Some DirUp
  else if key =? 1 then Some DirDown
  else if key =? 2 then Some DirLeft
  else if key =? 3 then Some DirRight
  else None.

Definition nonzero (n : Z) : bool := negb (n =? 0).

(** [decodeSgrEvent]: the event and the set of pressed buttons afterwards. *)
Definition decodeSgrEvent (rawButtonCode wireX wireY : Z)
    (pressRelease : PressRelease) (mouseButtonsPressed : Pressed)
    : RawMouseEvent * Pressed :=
  let button := bitand rawButtonCode 3 in
  let isScroll := nonzero (bitand rawButtonCode 64) in
  let scrollDirection := if negb isScroll then None else SCROLL_DIRECTIONS button in
  let isMotion := nonzero (bitand rawButtonCode 32) in
  let modifiers := {| shift := nonzero (bitand rawButtonCode 4);
                      alt := nonzero (bitand rawButtonCode 8);
                      ctrl := nonzero (bitand rawButtonCode 16) |} in
  let '(type, scrollInfo, pressed') :=
    if isScroll && isUpperM pressRelease then
      (Scroll,
       match scrollDirection with
       | Some d => Some {| direction := d; delta := 1 |}
       | None => None
       end,
       mouseButtonsPressed)
    else if isMotion then
      let isDragging := bool_decide (0 < size mouseButtonsPressed)%nat in
      if button =? 3 then (Move, None, mouseButtonsPressed)
      else if isDragging then (Drag, None, mouseButtonsPressed)
      else (Move, None, mouseButtonsPressed)
    else
      let type := if isUpperM pressRelease then Down else Up in
      if bool_decide (type = Down) && negb (button =? 3) then
        (type, None, {[ button ]} ∪ mouseButtonsPressed)
      else if bool_decide (type = Up) then (type, None, (∅ : Pressed))
      else (type, None, mouseButtonsPressed) in
  ({| type := type;
      button := if button =? 3 then 0 else button;
      x := wireX - 1;
      y := wireY - 1;
      modifiers := modifiers;
      scroll := scrollInfo |},
   pressed').

(** [decodeBasicEvent]: it neither reads nor writes the pressed buttons. *)
Definition decodeBasicEvent (buttonByte x y : Z) : RawMouseEvent :=
  let button := bitand buttonByte 3 in
  let isScroll := nonzero (bitand buttonByte 64) in
  let isMotion := nonzero (bitand buttonByte 32) in
  let scrollDirection := if negb isScroll then None else SCROLL_DIRECTIONS button in
  let modifiers := {| shift := nonzero (bitand buttonByte 4);
                      alt := nonzero (bitand buttonByte 8);
                      ctrl := nonzero (bitand buttonByte 16) |} in
  let '(type, actualButton, scrollInfo) :=
    if isScroll then
      (Scroll, 0,
       match scrollDirection with
       | Some d => Some {| direction := d; delta := 1 |}
       | None => None
       end)
    else if isMotion then
      (Move, (if button =? 3 then -1 else button), None)
    else
      ((if button =? 3 then Up else Down),
       (if button =? 3 then 0 else button), None) in
  {| type := type;
     button := actualButton;
     x := x;
     y := y;
     modifiers := modifiers;
     scroll := scrollInfo |}.

(** The [while (index < str.length)] loop of [parseSgrSequence].  [rest] is
    the part of [str] from [index] on, so its head is [str[index]] and the
    loop ends, returning [null], when it is empty. *)
Fixpoint sgrLoop (rest : JsString) (index offset : nat) (values : list Z)
    (part : nat) (hasDigit : bool) (mouseButtonsPressed : Pressed)
    : option (ParsedMouseSequence * Pressed) :=
  match rest with
  | [] => None
  | charCode :: rest' =>
      if (48 <=? charCode) && (charCode <=? 57) then
        sgrLoop rest' (S index) offset
          (<[part := default 0 (values !! part) * 10 + (charCode - 48)]> values)
          part true mouseButtonsPressed
      else if charCode =? 59 then
        if negb hasDigit || (2 <=? part)%nat then None
        else sgrLoop rest' (S index) offset values (S part) false mouseButtonsPressed
      else if (charCode =? 77) || (charCode =? 109) then
        if negb hasDigit || negb (part =? 2)%nat then None
        else
          let '(ev, pressed') :=
            decodeSgrEvent (default 0 (values !! 0%nat)) (default 0 (values !! 1%nat))
              (default 0 (values !! 2%nat))
              (if charCode =? 77 then UpperM else LowerM) mouseButtonsPressed in
          Some ({| event := ev; consumed := (index - offset + 1)%nat |}, pressed')
      else None
  end.

Definition parseSgrSequence (str : JsString) (offset : nat)
    (mouseButtonsPressed : Pressed) : option (ParsedMouseSequence * Pressed) :=
  sgrLoop (drop (offset + 3) str) (offset + 3) offset [0; 0; 0] 0 false
    mouseButtonsPressed.

Definition parseBasicSequence (str : JsString) (offset : nat)
    : option ParsedMouseSequence :=
  if (length str <? offset + 6)%nat then None
  else
    match charCodeAt str (offset + 3), charCodeAt str (offset + 4),
          charCodeAt str (offset + 5) with
    | Some b, Some cx, Some cy =>
        let buttonByte := b - 32 in
        let x := cx - 33 in
        let y := cy - 33 in
        Some {| event := decodeBasicEvent buttonByte x y; consumed := 6 |}
    | _, _, _ => None
    end.

Definition parseMouseSequenceAt (str : JsString) (offset : nat)
    (mouseButtonsPressed : Pressed) : option (ParsedMouseSequence * Pressed) :=
  if negb (startsWith str [27; 91] offset) then None
  else
    let introducer := charCodeAt str (offset + 2) in
    match introducer with
    | Some 60 => parseSgrSequence str offset mouseButtonsPressed
    | Some 77 =>
        match parseBasicSequence str offset with
        | Some parsed => Some (parsed, mouseButtonsPressed)
        | None => None
        end
    | _ => None
    end.

(** The loop of [parseAllMouseEvents].  One unit of [fuel] is one iteration;
    [None] means the fuel ran out.  The result carries the local [offset]
    at loop exit next to the events and the pressed buttons. *)
Fixpoint parseLoop (fuel : nat) (str : JsString) (offset : nat)
    (events : list RawMouseEvent) (mouseButtonsPressed : Pressed)
    : option (list RawMouseEvent * nat * Pressed) :=
  match fuel with
  | O => None
  | S fuel' =>
      if (offset <? length str)%nat then
        match parseMouseSequenceAt str offset mouseButtonsPressed with
        | None => Some (events, offset, mouseButtonsPressed)
        | Some (parsed, pressed') =>
            parseLoop fuel' str (offset + consumed parsed)
              (events ++ [event parsed]) pressed'
        end
      else Some (events, offset, mouseButtonsPressed)
  end.

(** A [Buffer] is its bytes. *)
Abbreviation Buffer := (list Z).

Section Decoding.

(** [decodeInput] is [data.toString()], the UTF-8 decoding of the runtime. *)
Variable decodeInput : Buffer -> JsString.

Definition parseMouseEvent (data : Buffer) (mouseButtonsPressed : Pressed)
    : option RawMouseEvent * Pressed :=
  let str := decodeInput data in
  match parseMouseSequenceAt str 0 mouseButtonsPressed with
  | Some (parsed, pressed') => (Some (event parsed), pressed')
  | None => (None, mouseButtonsPressed)
  end.

(** [parseAllMouseEvents] with the final value of [offset] kept. *)
Definition parseAllMouseEventsFrom (data : Buffer) (mouseButtonsPressed : Pressed)
    : option (list RawMouseEvent * nat * Pressed) :=
  let str := decodeInput data in
  parseLoop (S (length str)) str 0 [] mouseButtonsPressed.

Definition parseAllMouseEvents (data : Buffer) (mouseButtonsPressed : Pressed)
    : option (list RawMouseEvent * Pressed) :=
  match parseAllMouseEventsFrom data mouseButtonsPressed with
  | Some (events, _, pressed') => Some (events, pressed')
  | None => None
  end.

End Decoding.

(** UTF-8 decoding of a buffer of ASCII bytes: every byte is one code unit. *)
Definition decodeAscii (data : Buffer) : JsString := data.

End Mouse.

(** ** Link detection, [lib/detect-links.ts] *)

Module Links.
Import Js.
Local Open Scope Z_scope.

Record Link : Type := { url : JsString }.

(** A [TextChunk].  The colour fields are carried along and never read here;
    they are left out. *)
Record TextChunk : Type := {
  text : JsString;
  attributes : Z;
  link : option Link
}.

(** A [SimpleHighlight] is the tuple [[start, end, group]]. *)
Definition SimpleHighlight : Type := Z * Z * JsString.

Record Range : Type := { start : Z; end_ : Z; range_url : JsString }.

Record Context : Type := { content : JsString; highlights : list SimpleHighlight }.

(** Objects live in a store and are passed by reference: an array is the
    list of the references of its elements. *)
Abbreviation Ref := positive.

Record Store : Type := {
  arrays : gmap Ref (list Ref);
  chunkObjects : gmap Ref TextChunk
}.

Definition URL_SCOPES : list JsString :=
  [lit "markup.link.url"; lit "string.special.url"].

(** [array.includes(value)] on strings. *)
Definition includes (array : list JsString) (value : JsString) : bool :=
  bool_decide (value ∈ array).

(** The inner loop [for (let j = i - 1; j >= 0; j--)]: [earlier] lists
    [highlights[i-1]], ..., [highlights[0]]; the result is what the loop
    pushes. *)
Fixpoint labelRange (earlier : list SimpleHighlight) (url : JsString) : list Range :=
  match earlier with
  | [] => []
  | (labelStart, labelEnd, prev) :: earlier' =>
      if bool_decide (prev = lit "markup.link.label") then
        [{| start := labelStart; end_ := labelEnd; range_url := url |}]
      else if negb (startsWith prev (lit "markup.link") 0) then []
      else labelRange earlier' url
  end.

(** The outer loop over [highlights]: [rest] is [highlights[i..]] and
    [earlier] the part before [i], last one first. *)
Fixpoint collectRanges (content : JsString) (earlier rest : list SimpleHighlight)
    (ranges : list Range) : list Range :=
  match rest with
  | [] => ranges
  | (start, end_, group) :: rest' =>
      if negb (includes URL_SCOPES group) then
        collectRanges content ((start, end_, group) :: earlier) rest' ranges
      else
        let url := slice content start end_ in
        collectRanges content ((start, end_, group) :: earlier) rest'
          (ranges ++ [{| start := start; end_ := end_; range_url := url |}]
                  ++ labelRange earlier url)
  end.

Definition overlaps (idx : Z) (len : nat) (range : Range) : bool :=
  (idx <? end_ range) && (start range <? idx + Z.of_nat len).

Definition setLink (chunk : TextChunk) (l : Link) : TextChunk :=
  {| text := text chunk; attributes := attributes chunk; link := Some l |}.

(** The loop [for (const chunk of chunks)], assigning [chunk.link] in the
    store. *)
Fixpoint linkLoop (content : JsString) (ranges : list Range) (elems : list Ref)
    (contentPos : nat) (objs : gmap Ref TextChunk) : gmap Ref TextChunk :=
  match elems with
  | [] => objs
  | r :: elems' =>
      match objs !! r with
      | None => linkLoop content ranges elems' contentPos objs
      | Some chunk =>
          if (length (text chunk) <=? 1)%nat then
            linkLoop content ranges elems' contentPos objs
          else
            let idx := indexOf content (text chunk) contentPos in
            if idx <? 0 then linkLoop content ranges elems' contentPos objs
            else
              let objs' :=
                match find (overlaps idx (length (text chunk))) ranges with
                | Some range => <[r := setLink chunk {| url := range_url range |}]> objs
                | None => objs
                end in
              linkLoop content ranges elems'
                (Z.to_nat idx + length (text chunk))%nat objs'
      end
  end.

(** [detectLinks(chunks, context)]: the returned reference and the store
    afterwards. *)
Definition detectLinks (chunks : Ref) (context : Context) (st : Store)
    : Ref * Store :=
  let ranges := collectRanges (content context) [] (highlights context) [] in
  if (length ranges =? 0)%nat then (chunks, st)
  else
    let elems := default [] (arrays st !! chunks) in
    (chunks,
     {| arrays := arrays st;
        chunkObjects := linkLoop (content context) ranges elems 0 (chunkObjects st) |}).

End Links.

(** ** Rebuild requests of the diff renderable, [renderables/Diff.ts] *)

Module Diff.
Import Js.

Inductive View : Type := Unified | Split.

(** The only closure this class hands to [queueMicrotask]. *)
Inductive Microtask : Type := RebuildTask.

Section Patches.

(** [parsePatch] of the [diff] package, which may throw. *)
Variable StructuredPatch : Type.
Inductive PatchResult : Type :=
  | Patches (patches : list StructuredPatch)
  | Throws (error : JsString).
Variable parsePatch : JsString -> PatchResult.

(** The fields that take part in rebuilding, the microtask queue of the
    runtime, and a record of the calls of [buildView] (with the value of
    [_diff] each one saw) and of [requestRender]. *)
Record State : Type := {
  _diff : JsString;
  _view : View;
  _parsedDiff : option StructuredPatch;
  _parseError : option JsString;
  _waitingForHighlight : bool;
  pendingRebuild : bool;
  isDestroyed : bool;
  microtasks : list Microtask;
  built : list JsString;
  requestRenderCalls : nat
}.

Definition parseDiff (st : State) : State :=
  let '(parsed, err) :=
    if (length (_diff st) =? 0)%nat then (None, None)
    else match parsePatch (_diff st) with
         | Patches [] => (None, None)
         | Patches (p :: _) => (Some p, None)
         | Throws e => (None, Some e)
         end in
  {| _diff := _diff st; _view := _view st; _parsedDiff := parsed;
     _parseError := err; _waitingForHighlight := _waitingForHighlight st;
     pendingRebuild := pendingRebuild st; isDestroyed := isDestroyed st;
     microtasks := microtasks st; built := built st;
     requestRenderCalls := requestRenderCalls st |}.

(** [buildView], recorded as one rebuild of the view from the current diff. *)
Definition buildView (st : State) : State :=
  {| _diff := _diff st; _view := _view st; _parsedDiff := _parsedDiff st;
     _parseError := _parseError st; _waitingForHighlight := _waitingForHighlight st;
     pendingRebuild := pendingRebuild st; isDestroyed := isDestroyed st;
     microtasks := microtasks st; built := built st ++ [_diff st];
     requestRenderCalls := requestRenderCalls st |}.

Definition requestRender (st : State) : State :=
  {| _diff := _diff st; _view := _view st; _parsedDiff := _parsedDiff st;
     _parseError := _parseError st; _waitingForHighlight := _waitingForHighlight st;
     pendingRebuild := pendingRebuild st; isDestroyed := isDestroyed st;
     microtasks := microtasks st; built := built st;
     requestRenderCalls := S (requestRenderCalls st) |}.

Definition setPending (b : bool) (st : State) : State :=
  {| _diff := _diff st; _view := _view st; _parsedDiff := _parsedDiff st;
     _parseError := _parseError st; _waitingForHighlight := _waitingForHighlight st;
     pendingRebuild := b; isDestroyed := isDestroyed st;
     microtasks := microtasks st; built := built st;
     requestRenderCalls := requestRenderCalls st |}.

Definition queueMicrotask (t : Microtask) (st : State) : State :=
  {| _diff := _diff st; _view := _view st; _parsedDiff := _parsedDiff st;
     _parseError := _parseError st; _waitingForHighlight := _waitingForHighlight st;
     pendingRebuild := pendingRebuild st; isDestroyed := isDestroyed st;
     microtasks := microtasks st ++ [t]; built := built st;
     requestRenderCalls := requestRenderCalls st |}.

Definition requestRebuild (st : State) : State :=
  if pendingRebuild st then st
  else queueMicrotask RebuildTask (setPending true st).

(** The body of the closure queued by [requestRebuild]. *)
Definition runMicrotask (t : Microtask) (st : State) : State :=
  match t with
  | RebuildTask =>
      if negb (isDestroyed st) && pendingRebuild st then
        requestRender (buildView (setPending false st))
      else st
  end.

Definition rebuildView (st : State) : State :=
  match _view st with
  | Split => requestRebuild st
  | Unified => buildView st
  end.

(** The setter [set diff(value)]. *)
Definition set_diff (value : JsString) (st : State) : State :=
  if bool_decide (_diff st <> value) then
    let st1 :=
      {| _diff := value; _view := _view st; _parsedDiff := _parsedDiff st;
         _parseError := _parseError st; _waitingForHighlight := false;
         pendingRebuild := pendingRebuild st; isDestroyed := isDestroyed st;
         microtasks := microtasks st; built := built st;
         requestRenderCalls := requestRenderCalls st |} in
    rebuildView (parseDiff st1)
  else st.

(** The microtask checkpoint of the runtime: the queued tasks run in order,
    each removed from the queue before it runs. *)
Fixpoint runTasks (tasks : list Microtask) (st : State) : State :=
  match tasks with
  | [] => st
  | t :: tasks' => runTasks tasks' (runMicrotask t st)
  end.

Definition clearQueue (st : State) : State :=
  {| _diff := _diff st; _view := _view st; _parsedDiff := _parsedDiff st;
     _parseError := _parseError st; _waitingForHighlight := _waitingForHighlight st;
     pendingRebuild := pendingRebuild st; isDestroyed := isDestroyed st;
     microtasks := []; built := built st;
     requestRenderCalls := requestRenderCalls st |}.

Definition drainMicrotasks (st : State) : State :=
  runTasks (microtasks st) (clearQueue st).

End Patches.

Arguments Patches {StructuredPatch} patches.
Arguments Throws {StructuredPatch} error.
Arguments _diff {StructuredPatch} s.
Arguments _view {StructuredPatch} s.
Arguments _parsedDiff {StructuredPatch} s.
Arguments _parseError {StructuredPatch} s.
Arguments _waitingForHighlight {StructuredPatch} s.
Arguments pendingRebuild {StructuredPatch} s.
Arguments isDestroyed {StructuredPatch} s.
Arguments microtasks {StructuredPatch} s.
Arguments built {StructuredPatch} s.
Arguments requestRenderCalls {StructuredPatch} s.
Arguments buildView {StructuredPatch} st.
Arguments requestRender {StructuredPatch} st.
Arguments setPending {StructuredPatch} b st.
Arguments queueMicrotask {StructuredPatch} t st.
Arguments requestRebuild {StructuredPatch} st.
Arguments runMicrotask {StructuredPatch} t st.
Arguments rebuildView {StructuredPatch} st.
Arguments runTasks {StructuredPatch} tasks st.
Arguments clearQueue {StructuredPatch} st.
Arguments drainMicrotasks {StructuredPatch} st.
Arguments parseDiff {StructuredPatch} parsePatch st.
Arguments set_diff {StructuredPatch} parsePatch value st.

End Diff.

(** ** Asynchronous highlighting of the code renderable, [renderables/Code.ts] *)

Module Code.
Import Js.
Local Open Scope Z_scope.

Definition SimpleHighlight : Type := Links.SimpleHighlight.
Definition TextChunk : Type := Links.TextChunk.

(** What the text buffer holds after [setText] or [setStyledText]. *)
Inductive TextBufferContent : Type :=
  | PlainText (content : JsString)
  | StyledText (chunks : list TextChunk).

(** Calls that leave the object, in the order they are made. *)
Inductive Effect : Type := Warn | UpdateTextInfo | RequestRender.

Record State : Type := {
  _content : JsString;
  _filetype : option JsString;
  _isHighlighting : bool;
  _highlightsDirty : bool;
  _highlightSnapshotId : Z;
  _conceal : bool;
  _drawUnstyledText : bool;
  _shouldRenderTextBuffer : bool;
  _streaming : bool;
  _hadInitialContent : bool;
  _lastHighlights : list SimpleHighlight;
  _onHighlight : bool;
  _onChunks : bool;
  isDestroyed : bool;
  textBuffer : TextBufferContent;
  effects : list Effect
}.

(** The result of a promise at the point where the function resumes. *)
Inductive Outcome (A : Type) : Type :=
  | Resolved (value : A)
  | Rejected (error : JsString).
Arguments Resolved {A} value.
Arguments Rejected {A} error.

(** The locals [content], [filetype] and [snapshotId] of one call. *)
Record Frame : Type := {
  content : JsString;
  filetype : JsString;
  snapshotId : Z
}.

(** Where a call of [startHighlight] is suspended, with the locals alive
    there. *)
Inductive Pending : Type :=
  | AwaitHighlightOnce (fr : Frame)
  | AwaitOnHighlight (fr : Frame) (highlights : list SimpleHighlight)
  | AwaitOnChunks (fr : Frame) (highlights : list SimpleHighlight)
      (chunks : list TextChunk).

Definition setSnapshotId (id : Z) (st : State) : State :=
  {| _content := _content st; _filetype := _filetype st;
     _isHighlighting := _isHighlighting st; _highlightsDirty := _highlightsDirty st;
     _highlightSnapshotId := id; _conceal := _conceal st;
     _drawUnstyledText := _drawUnstyledText st;
     _shouldRenderTextBuffer := _shouldRenderTextBuffer st;
     _streaming := _streaming st; _hadInitialContent := _hadInitialContent st;
     _lastHighlights := _lastHighlights st; _onHighlight := _onHighlight st;
     _onChunks := _onChunks st; isDestroyed := isDestroyed st;
     textBuffer := textBuffer st; effects := effects st |}.

Definition setHadInitialContent (b : bool) (st : State) : State :=
  {| _content := _content st; _filetype := _filetype st;
     _isHighlighting := _isHighlighting st; _highlightsDirty := _highlightsDirty st;
     _highlightSnapshotId := _highlightSnapshotId st; _conceal := _conceal st;
     _drawUnstyledText := _drawUnstyledText st;
     _shouldRenderTextBuffer := _shouldRenderTextBuffer st;
     _streaming := _streaming st; _hadInitialContent := b;
     _lastHighlights := _lastHighlights st; _onHighlight := _onHighlight st;
     _onChunks := _onChunks st; isDestroyed := isDestroyed st;
     textBuffer := textBuffer st; effects := effects st |}.

Definition setIsHighlighting (b : bool) (st : State) : State :=
  {| _content := _content st; _filetype := _filetype st;
     _isHighlighting := b; _highlightsDirty := _highlightsDirty st;
     _highlightSnapshotId := _highlightSnapshotId st; _conceal := _conceal st;
     _drawUnstyledText := _drawUnstyledText st;
     _shouldRenderTextBuffer := _shouldRenderTextBuffer st;
     _streaming := _streaming st; _hadInitialContent := _hadInitialContent st;
     _lastHighlights := _lastHighlights st; _onHighlight := _onHighlight st;
     _onChunks := _onChunks st; isDestroyed := isDestroyed st;
     textBuffer := textBuffer st; effects := effects st |}.

Definition setLastHighlights (hs : list SimpleHighlight) (st : State) : State :=
  {| _content := _content st; _filetype := _filetype st;
     _isHighlighting := _isHighlighting st; _highlightsDirty := _highlightsDirty st;
     _highlightSnapshotId := _highlightSnapshotId st; _conceal := _conceal st;
     _drawUnstyledText := _drawUnstyledText st;
     _shouldRenderTextBuffer := _shouldRenderTextBuffer st;
     _streaming := _streaming st; _hadInitialContent := _hadInitialContent st;
     _lastHighlights := hs; _onHighlight := _onHighlight st;
     _onChunks := _onChunks st; isDestroyed := isDestroyed st;
     textBuffer := textBuffer st; effects := effects st |}.

Definition setTextBuffer (tb : TextBufferContent) (st : State) : State :=
  {| _content := _content st; _filetype := _filetype st;
     _isHighlighting := _isHighlighting st; _highlightsDirty := _highlightsDirty st;
     _highlightSnapshotId := _highlightSnapshotId st; _conceal := _conceal st;
     _drawUnstyledText := _drawUnstyledText st;
     _shouldRenderTextBuffer := _shouldRenderTextBuffer st;
     _streaming := _streaming st; _hadInitialContent := _hadInitialContent st;
     _lastHighlights := _lastHighlights st; _onHighlight := _onHighlight st;
     _onChunks := _onChunks st; isDestroyed := isDestroyed st;
     textBuffer := tb; effects := effects st |}.

Definition perform (e : Effect) (st : State) : State :=
  {| _content := _content st; _filetype := _filetype st;
     _isHighlighting := _isHighlighting st; _highlightsDirty := _highlightsDirty st;
     _highlightSnapshotId := _highlightSnapshotId st; _conceal := _conceal st;
     _drawUnstyledText := _drawUnstyledText st;
     _shouldRenderTextBuffer := _shouldRenderTextBuffer st;
     _streaming := _streaming st; _hadInitialContent := _hadInitialContent st;
     _lastHighlights := _lastHighlights st; _onHighlight := _onHighlight st;
     _onChunks := _onChunks st; isDestroyed := isDestroyed st;
     textBuffer := textBuffer st; effects := effects st ++ [e] |}.

(** The five statements that end both the [try] block and the [catch]
    block: [_shouldRenderTextBuffer = true], [_isHighlighting = false],
    [_highlightsDirty = false], [updateTextInfo()], [requestRender()]. *)
Definition settle (st : State) : State :=
  perform RequestRender (perform UpdateTextInfo
    {| _content := _content st; _filetype := _filetype st;
       _isHighlighting := false; _highlightsDirty := false;
       _highlightSnapshotId := _highlightSnapshotId st; _conceal := _conceal st;
       _drawUnstyledText := _drawUnstyledText st;
       _shouldRenderTextBuffer := true;
       _streaming := _streaming st; _hadInitialContent := _hadInitialContent st;
       _lastHighlights := _lastHighlights st; _onHighlight := _onHighlight st;
       _onChunks := _onChunks st; isDestroyed := isDestroyed st;
       textBuffer := textBuffer st; effects := effects st |}).

(** The setter [set content(value)]: it supersedes the highlight requests in
    flight. *)
Definition set_content (value : JsString) (st : State) : State :=
  if bool_decide (_content st <> value) then
    let st1 :=
      {| _content := value; _filetype := _filetype st;
         _isHighlighting := _isHighlighting st; _highlightsDirty := true;
         _highlightSnapshotId := _highlightSnapshotId st + 1; _conceal := _conceal st;
         _drawUnstyledText := _drawUnstyledText st;
         _shouldRenderTextBuffer := _shouldRenderTextBuffer st;
         _streaming := _streaming st; _hadInitialContent := _hadInitialContent st;
         _lastHighlights := _lastHighlights st; _onHighlight := _onHighlight st;
         _onChunks := _onChunks st; isDestroyed := isDestroyed st;
         textBuffer := textBuffer st; effects := effects st |} in
    if _streaming st1 && negb (_drawUnstyledText st1)
       && match _filetype st1 with Some (_ :: _) => true | _ => false end
    then st1
    else perform UpdateTextInfo (setTextBuffer (PlainText value) st1)
  else st.

Section Highlighting.

(** [treeSitterToTextChunks(content, highlights, syntaxStyle, {enabled})]. *)
Variable treeSitterToTextChunks :
  JsString -> list SimpleHighlight -> bool -> list TextChunk.

(** [startHighlight] up to its first [await]: the state, and the suspended
    call if the highlighter was called. *)
Definition startHighlight (st : State) : State * option Pending :=
  let content := _content st in
  let filetype := _filetype st in
  let snapshotId := _highlightSnapshotId st + 1 in
  let st := setSnapshotId snapshotId st in
  match filetype with
  | None | Some [] => (st, None)
  | Some filetype =>
      let isInitialContent := _streaming st && negb (_hadInitialContent st) in
      let st := if isInitialContent then setHadInitialContent true st else st in
      let st := setIsHighlighting true st in
      (st, Some (AwaitHighlightOnce
                   {| content := content; filetype := filetype;
                      snapshotId := snapshotId |}))
  end.

(** The [catch] block. *)
Definition catchBlock (fr : Frame) (st : State) : State :=
  if negb (snapshotId fr =? _highlightSnapshotId st) then st
  else
    let st := perform Warn st in
    if isDestroyed st then st
    else settle (setTextBuffer (PlainText (content fr)) st).

(** The end of the [try] block, from [new StyledText(chunks)] on. *)
Definition applyChunks (chunks : list TextChunk) (st : State) : State :=
  settle (setTextBuffer (StyledText chunks) st).

(** The [try] block from the second snapshot test on. *)
Definition afterOnHighlight (fr : Frame) (highlights : list SimpleHighlight)
    (st : State) : State * option Pending :=
  if negb (snapshotId fr =? _highlightSnapshotId st) then (st, None)
  else if isDestroyed st then (st, None)
  else if (0 <? length highlights)%nat then
    let st := if _streaming st then setLastHighlights highlights st else st in
    let chunks := treeSitterToTextChunks (content fr) highlights (_conceal st) in
    if _onChunks st then (st, Some (AwaitOnChunks fr highlights chunks))
    else (applyChunks chunks st, None)
  else (settle (setTextBuffer (PlainText (content fr)) st), None).

(** Resuming after [await this._treeSitterClient.highlightOnce(...)]; the
    value is [result.highlights], which may be missing. *)
Definition resumeHighlightOnce (fr : Frame)
    (result : Outcome (option (list SimpleHighlight))) (st : State)
    : State * option Pending :=
  match result with
  | Rejected _ => (catchBlock fr st, None)
  | Resolved result_highlights =>
      if negb (snapshotId fr =? _highlightSnapshotId st) then (st, None)
      else if isDestroyed st then (st, None)
      else
        let highlights := default [] result_highlights in
        if _onHighlight st then (st, Some (AwaitOnHighlight fr highlights))
        else afterOnHighlight fr highlights st
  end.

(** Resuming after [await this._onHighlight(highlights, context)]. *)
Definition resumeOnHighlight (fr : Frame) (highlights : list SimpleHighlight)
    (modified : Outcome (option (list SimpleHighlight))) (st : State)
    : State * option Pending :=
  match modified with
  | Rejected _ => (catchBlock fr st, None)
  | Resolved modified => afterOnHighlight fr (default highlights modified) st
  end.

(** Resuming after [await this._onChunks(chunks, ...)]. *)
Definition resumeOnChunks (fr : Frame) (chunks : list TextChunk)
    (modified : Outcome (option (list TextChunk))) (st : State)
    : State * option Pending :=
  match modified with
  | Rejected _ => (catchBlock fr st, None)
  | Resolved modified => (applyChunks (default chunks modified) st, None)
  end.

End Highlighting.

End Code.

(** ** Focus handling of the renderer *)

Module Focus.
Import Js.
Local Open Scope Z_scope.

Inductive BusEvent : Type := FocusEvent | BlurEvent.

#[global] Instance BusEvent_eq_dec : EqDecision BusEvent.
Proof. solve_decision. Defined.

(** What the renderer does to the outside, in order: a write to the output
    sink or an event on the renderer bus. *)
Inductive Effect : Type :=
  | SinkWrite (sequence : JsString)
  | Emit (ev : BusEvent).

#[global] Instance Effect_eq_dec : EqDecision Effect.
Proof. solve_decision. Defined.

Definition ESC : Z := 27.

(** Modelled from the spec: the enable sequences of the external interface,
    which the sources do not hold: mouse reporting ([1000], [1002], [1003],
    [1006]), focus reporting ([1004]) and bracketed paste ([2004]). *)
Definition enableSequences : list JsString :=
  [ESC :: lit "[?1000h"; ESC :: lit "[?1002h"; ESC :: lit "[?1003h";
   ESC :: lit "[?1006h"; ESC :: lit "[?1004h"; ESC :: lit "[?2004h"].

(** Modelled from the spec: [restoreTerminalModes], which the renderer calls
    and only the tests name; it writes the enable sequences of mouse
    reporting, focus reporting and bracketed paste to the output sink. *)
Definition restoreTerminalModes (trace : list Effect) : list Effect :=
  trace ++ map SinkWrite enableSequences.

Definition focusIn : JsString := ESC :: lit "[I".
Definition focusOut : JsString := ESC :: lit "[O".

(** Modelled from the spec: the renderer's handler of input data, which is
    not among the sources.  On focus-in ([ESC [ I]) the presenter re-asserts
    the terminal modes and then a [focus] event is emitted on the renderer
    bus; on focus-out ([ESC [ O]) a [blur] event is emitted; other input
    goes to the key and mouse handling and is left out. *)
Definition feed (data : JsString) (trace : list Effect) : list Effect :=
  if bool_decide (data = focusIn) then
    restoreTerminalModes trace ++ [Emit FocusEvent]
  else if bool_decide (data = focusOut) then
    trace ++ [Emit BlurEvent]
  else trace.

(** Feeding several chunks of input one after the other. *)
Definition feedAll (inputs : list JsString) (trace : list Effect) : list Effect :=
  fold_left (fun tr data => feed data tr) inputs trace.

End Focus.

(** ** The views of the diff renderable, [renderables/Diff.ts] *)

Module DiffView.
Import Js.
Local Open Scope Z_scope.

(** [s.slice(start)]. *)
Definition sliceFrom (s : JsString) (start : Z) : JsString :=
  slice s start (Z.of_nat (length s)).

(** [line[0] === c] for a one-character string [c]. *)
Definition firstCharIs (line : JsString) (c : Z) : bool :=
  match charCodeAt line 0 with
  | Some d => d =? c
  | None => false
  end.

Definition PLUS : Z := 43.
Definition MINUS : Z := 45.
Definition SPACE : Z := 32.
Definition BACKSLASH : Z := 92.

(** A hunk of the parsed patch; the line counts of its header are not read
    by the views. *)
Record Hunk : Type := {
  oldStart : Z;
  newStart : Z;
  lines : list JsString
}.

Inductive LineType : Type := Context | Add | Remove | Empty.

#[global] Instance LineType_eq_dec : EqDecision LineType.
Proof. solve_decision. Defined.

Section Colours.

(** Parsed colours are values of the class [RGBA], which the views only
    pass on. *)
Variable RGBA : Type.

Record LineSign : Type := {
  before : option JsString;
  beforeColor : option RGBA;
  after : option JsString;
  afterColor : option RGBA
}.

Record LineColorConfig : Type := {
  gutter : option RGBA;
  content : option RGBA
}.

(** [LogicalLine]; a missing [hideLineNumber] is [false]. *)
Record LogicalLine : Type := {
  line_content : JsString;
  lineNum : option Z;
  hideLineNumber : bool;
  color : option RGBA;
  sign : option LineSign;
  type : LineType
}.

(** The colour fields of the renderable. *)
Record Palette : Type := {
  _addedBg : RGBA;
  _removedBg : RGBA;
  _contextBg : RGBA;
  _addedContentBg : option RGBA;
  _removedContentBg : option RGBA;
  _contextContentBg : option RGBA;
  _addedSignColor : RGBA;
  _removedSignColor : RGBA;
  _addedLineNumberBg : RGBA;
  _removedLineNumberBg : RGBA;
  _lineNumberBg : RGBA
}.

Variable p : Palette.

Definition addedConfig : LineColorConfig :=
  {| gutter := Some (_addedLineNumberBg p);
     content := Some (default (_addedBg p) (_addedContentBg p)) |}.

Definition removedConfig : LineColorConfig :=
  {| gutter := Some (_removedLineNumberBg p);
     content := Some (default (_removedBg p) (_removedContentBg p)) |}.

Definition contextConfig : LineColorConfig :=
  {| gutter := Some (_lineNumberBg p);
     content := Some (default (_contextBg p) (_contextContentBg p)) |}.

Definition addedSign : LineSign :=
  {| before := None; beforeColor := None;
     after := Some (lit " +"); afterColor := Some (_addedSignColor p) |}.

Definition removedSign : LineSign :=
  {| before := None; beforeColor := None;
     after := Some (lit " -"); afterColor := Some (_removedSignColor p) |}.

(** *** The unified view *)

(** The four collections [buildUnifiedView] fills, and [lineIndex]. *)
Record Unified : Type := {
  contentLines : list JsString;
  lineColors : gmap nat LineColorConfig;
  lineSigns : gmap nat LineSign;
  lineNumbers : gmap nat Z;
  lineIndex : nat
}.





(** *** The split view *)

Definition contextLine (content : JsString) (n : Z) : LogicalLine :=
  {| line_content := content; lineNum := Some n; hideLineNumber := false;
     color := Some (_contextBg p); sign := None; type := Context |}.

Definition removeLine (content : JsString) (n : Z) : LogicalLine :=
  {| line_content := content; lineNum := Some n; hideLineNumber := false;
     color := Some (_removedBg p); sign := Some removedSign; type := Remove |}.

Definition addLine (content : JsString) (n : Z) : LogicalLine :=
  {| line_content := content; lineNum := Some n; hideLineNumber := false;
     color := Some (_addedBg p); sign := Some addedSign; type := Add |}.

(** [{ content: "", hideLineNumber: true, type: "empty" }]. *)
Definition emptyLine : LogicalLine :=
  {| line_content := []; lineNum := None; hideLineNumber := true;
     color := None; sign := None; type := Empty |}.

(** The inner [while] of [buildSplitView], which gathers one run of changed
    lines: [rest] is [hunk.lines] from [i] on; the result holds [removes],
    [adds], the two line numbers and the lines from the new [i] on. *)
Fixpoint collectRun (rest : list JsString) (oldLineNum newLineNum : Z)
    (removes adds : list (JsString * Z))
    : list (JsString * Z) * list (JsString * Z) * Z * Z * list JsString :=
  match rest with
  | [] => (removes, adds, oldLineNum, newLineNum, [])
  | currentLine :: rest' =>
      if firstCharIs currentLine SPACE || firstCharIs currentLine BACKSLASH then
        (removes, adds, oldLineNum, newLineNum, rest)
      else
        let content := sliceFrom currentLine 1 in
        if firstCharIs currentLine MINUS then
          collectRun rest' (oldLineNum + 1) newLineNum
            (removes ++ [(content, oldLineNum)]) adds
        else if firstCharIs currentLine PLUS then
          collectRun rest' oldLineNum (newLineNum + 1)
            removes (adds ++ [(content, newLineNum)])
        else collectRun rest' oldLineNum newLineNum removes adds
  end.

(** The body of [for (let j = 0; j < maxLength; j++)]. *)
Definition pairRow (removes adds : list (JsString * Z))
    (lr : list LogicalLine * list LogicalLine) (j : nat)
    : list LogicalLine * list LogicalLine :=
  let '(leftLogicalLines, rightLogicalLines) := lr in
  (leftLogicalLines ++
     [match removes !! j with
      | Some (c, n) => removeLine c n
      | None => emptyLine
      end],
   rightLogicalLines ++
     [match adds !! j with
      | Some (c, n) => addLine c n
      | None => emptyLine
      end]).

Definition pairRows (removes adds : list (JsString * Z))
    (lr : list LogicalLine * list LogicalLine)
    : list LogicalLine * list LogicalLine :=
  let maxLength := Nat.max (length removes) (length adds) in
  fold_left (pairRow removes adds) (seq 0 maxLength) lr.

(** The outer [while (i < hunk.lines.length)] of [buildSplitView]: [rest] is
    [hunk.lines] from [i] on.  One unit of [fuel] is one iteration; [None]
    means the fuel ran out. *)
Fixpoint splitLoop (fuel : nat) (rest : list JsString) (oldLineNum newLineNum : Z)
    (lr : list LogicalLine * list LogicalLine)
    : option (list LogicalLine * list LogicalLine) :=
  match fuel with
  | O => None
  | S fuel' =>
      match rest with
      | [] => Some lr
      | line :: rest' =>
          if firstCharIs line SPACE then
            let content := sliceFrom line 1 in
            splitLoop fuel' rest' (oldLineNum + 1) (newLineNum + 1)
              (lr.1 ++ [contextLine content oldLineNum],
               lr.2 ++ [contextLine content newLineNum])
          else if firstCharIs line BACKSLASH then
            splitLoop fuel' rest' oldLineNum newLineNum lr
          else
            let '(removes, adds, oldLineNum', newLineNum', rest'') :=
              collectRun rest oldLineNum newLineNum [] [] in
            splitLoop fuel' rest'' oldLineNum' newLineNum' (pairRows removes adds lr)
      end
  end.

Definition splitHunk (lr : option (list LogicalLine * list LogicalLine))
    (hunk : Hunk) : option (list LogicalLine * list LogicalLine) :=
  match lr with
  | Some lr =>
      splitLoop (S (length (lines hunk))) (lines hunk) (oldStart hunk)
        (newStart hunk) lr
  | None => None
  end.

(** The loop over the hunks of [buildSplitView]: [leftLogicalLines] and
    [rightLogicalLines]. *)
Definition splitLines (hunks : list Hunk)
    : option (list LogicalLine * list LogicalLine) :=
  fold_left splitHunk hunks (Some ([], [])).

(** *** Alignment of wrapped lines *)

(** [leftVisualCounts]: how many visual lines each logical line takes,
    counted from [lineSources]. *)
Definition visualCounts (sources : list nat) : gmap nat nat :=
  fold_left (fun counts logicalLine =>
               <[logicalLine := (default 0 (counts !! logicalLine) + 1)%nat]> counts)
    sources ∅.

(** [counts.get(i) || 1]. *)
Definition visualCount (counts : gmap nat nat) (i : nat) : nat :=
  match counts !! i with
  | Some (S n) => S n
  | _ => 1
  end.

Record Aligned : Type := {
  finalLeftLines : list LogicalLine;
  finalRightLines : list LogicalLine;
  leftVisualPos : nat;
  rightVisualPos : nat
}.

(** The padding that brings the shorter side level with the other. *)
Definition levelUp (a : Aligned) : Aligned :=
  if (leftVisualPos a <? rightVisualPos a)%nat then
    let pad := (rightVisualPos a - leftVisualPos a)%nat in
    {| finalLeftLines := finalLeftLines a ++ replicate pad emptyLine;
       finalRightLines := finalRightLines a;
       leftVisualPos := (leftVisualPos a + pad)%nat;
       rightVisualPos := rightVisualPos a |}
  else if (rightVisualPos a <? leftVisualPos a)%nat then
    let pad := (leftVisualPos a - rightVisualPos a)%nat in
    {| finalLeftLines := finalLeftLines a;
       finalRightLines := finalRightLines a ++ replicate pad emptyLine;
       leftVisualPos := leftVisualPos a;
       rightVisualPos := (rightVisualPos a + pad)%nat |}
  else a.

(** The body of the alignment loop at index [i].  Both lists have the same
    length; an index without a line on either side adds nothing. *)
Definition alignStep (leftLogicalLines rightLogicalLines : list LogicalLine)
    (leftVisualCounts rightVisualCounts : gmap nat nat) (a : Aligned) (i : nat)
    : Aligned :=
  match leftLogicalLines !! i, rightLogicalLines !! i with
  | Some leftLine, Some rightLine =>
      let a := levelUp a in
      {| finalLeftLines := finalLeftLines a ++ [leftLine];
         finalRightLines := finalRightLines a ++ [rightLine];
         leftVisualPos := (leftVisualPos a + visualCount leftVisualCounts i)%nat;
         rightVisualPos := (rightVisualPos a + visualCount rightVisualCounts i)%nat |}
  | _, _ => a
  end.

(** The alignment of [buildSplitView], from the logical lines and the
    [lineSources] of both sides: [finalLeftLines] and [finalRightLines]. *)
Definition alignLines (leftLogicalLines rightLogicalLines : list LogicalLine)
    (leftSources rightSources : list nat) : list LogicalLine * list LogicalLine :=
  let leftVisualCounts := visualCounts leftSources in
  let rightVisualCounts := visualCounts rightSources in
  let a :=
    fold_left (alignStep leftLogicalLines rightLogicalLines
                 leftVisualCounts rightVisualCounts)
      (seq 0 (length leftLogicalLines))
      {| finalLeftLines := []; finalRightLines := [];
         leftVisualPos := 0; rightVisualPos := 0 |} in
  let a := levelUp a in
  (finalLeftLines a, finalRightLines a).

(** *** The maps of one side *)

Record SideMaps : Type := {
  side_lineColors : gmap nat LineColorConfig;
  side_lineSigns : gmap nat LineSign;
  side_hideLineNumbers : gset nat;
  side_lineNumbers : gmap nat Z
}.

Definition emptySideMaps : SideMaps :=
  {| side_lineColors := ∅; side_lineSigns := ∅; side_hideLineNumbers := ∅;
     side_lineNumbers := ∅ |}.

(** The callback of [finalLeftLines.forEach] ([changed] is [Remove]) and of
    [finalRightLines.forEach] ([changed] is [Add]). *)
Definition sideLine (changed : LineType) (changedConfig : LineColorConfig)
    (m : SideMaps) (index : nat) (line : LogicalLine) : SideMaps :=
  {| side_lineNumbers :=
       match lineNum line with
       | Some n => <[index := n]> (side_lineNumbers m)
       | None => side_lineNumbers m
       end;
     side_hideLineNumbers :=
       if hideLineNumber line then {[ index ]} ∪ side_hideLineNumbers m
       else side_hideLineNumbers m;
     side_lineColors :=
       if bool_decide (type line = changed) then
         <[index := changedConfig]> (side_lineColors m)
       else if bool_decide (type line = Context) then
         <[index := contextConfig]> (side_lineColors m)
       else side_lineColors m;
     side_lineSigns :=
       match sign line with
       | Some s => <[index := s]> (side_lineSigns m)
       | None => side_lineSigns m
       end |}.

(** [lines.forEach((line, index) => ...)] from [index] on. *)
Fixpoint forEachFrom (f : SideMaps -> nat -> LogicalLine -> SideMaps)
    (index : nat) (ls : list LogicalLine) (m : SideMaps) : SideMaps :=
  match ls with
  | [] => m
  | line :: ls' => forEachFrom f (S index) ls' (f m index line)
  end.

Definition leftSideMaps (finalLeftLines : list LogicalLine) : SideMaps :=
  forEachFrom (sideLine Remove removedConfig) 0 finalLeftLines emptySideMaps.

Definition rightSideMaps (finalRightLines : list LogicalLine) : SideMaps :=
  forEachFrom (sideLine Add addedConfig) 0 finalRightLines emptySideMaps.

End Colours.

End DiffView.

(** ** Rendering of the code renderable, [renderables/Code.ts] *)

Module CodeRender.
Import Js Code.
Local Open Scope Z_scope.

Definition setShouldRenderTextBuffer (b : bool) (st : State) : State :=
  {| _content := _content st; _filetype := _filetype st;
     _isHighlighting := _isHighlighting st; _highlightsDirty := _highlightsDirty st;
     _highlightSnapshotId := _highlightSnapshotId st; _conceal := _conceal st;
     _drawUnstyledText := _drawUnstyledText st;
     _shouldRenderTextBuffer := b;
     _streaming := _streaming st; _hadInitialContent := _hadInitialContent st;
     _lastHighlights := _lastHighlights st; _onHighlight := _onHighlight st;
     _onChunks := _onChunks st; isDestroyed := isDestroyed st;
     textBuffer := textBuffer st; effects := effects st |}.

Definition setHighlightsDirty (b : bool) (st : State) : State :=
  {| _content := _content st; _filetype := _filetype st;
     _isHighlighting := _isHighlighting st; _highlightsDirty := b;
     _highlightSnapshotId := _highlightSnapshotId st; _conceal := _conceal st;
     _drawUnstyledText := _drawUnstyledText st;
     _shouldRenderTextBuffer := _shouldRenderTextBuffer st;
     _streaming := _streaming st; _hadInitialContent := _hadInitialContent st;
     _lastHighlights := _lastHighlights st; _onHighlight := _onHighlight st;
     _onChunks := _onChunks st; isDestroyed := isDestroyed st;
     textBuffer := textBuffer st; effects := effects st |}.

(** [!this._filetype]: the file type is missing or the empty string. *)
Definition noFiletype (st : State) : bool :=
  match _filetype st with
  | Some (_ :: _) => false
  | _ => true
  end.

(** The setter [set filetype(value)]. *)
Definition set_filetype (value : JsString) (st : State) : State :=
  if bool_decide (_filetype st <> Some value) then
    {| _content := _content st; _filetype := Some value;
       _isHighlighting := _isHighlighting st; _highlightsDirty := true;
       _highlightSnapshotId := _highlightSnapshotId st; _conceal := _conceal st;
       _drawUnstyledText := _drawUnstyledText st;
       _shouldRenderTextBuffer := _shouldRenderTextBuffer st;
       _streaming := _streaming st; _hadInitialContent := _hadInitialContent st;
       _lastHighlights := _lastHighlights st; _onHighlight := _onHighlight st;
       _onChunks := _onChunks st; isDestroyed := isDestroyed st;
       textBuffer := textBuffer st; effects := effects st |}
  else st.

(** The setter [set streaming(value)]. *)
Definition set_streaming (value : bool) (st : State) : State :=
  if bool_decide (_streaming st <> value) then
    {| _content := _content st; _filetype := _filetype st;
       _isHighlighting := _isHighlighting st; _highlightsDirty := true;
       _highlightSnapshotId := _highlightSnapshotId st; _conceal := _conceal st;
       _drawUnstyledText := _drawUnstyledText st;
       _shouldRenderTextBuffer := _shouldRenderTextBuffer st;
       _streaming := value; _hadInitialContent := false;
       _lastHighlights := []; _onHighlight := _onHighlight st;
       _onChunks := _onChunks st; isDestroyed := isDestroyed st;
       textBuffer := textBuffer st; effects := effects st |}
  else st.

(** [ensureVisibleTextBeforeHighlight]. *)
Definition ensureVisibleTextBeforeHighlight (st : State) : State :=
  if isDestroyed st then st
  else
    let content := _content st in
    if noFiletype st then setShouldRenderTextBuffer true st
    else
      let isInitialContent := _streaming st && negb (_hadInitialContent st) in
      let shouldDrawUnstyledNow :=
        if _streaming st then isInitialContent && _drawUnstyledText st
        else _drawUnstyledText st in
      if _streaming st && negb isInitialContent then
        setShouldRenderTextBuffer true st
      else if shouldDrawUnstyledNow then
        setShouldRenderTextBuffer true (setTextBuffer (PlainText content) st)
      else setShouldRenderTextBuffer false st.

(** [renderSelf(buffer)]: the state, the call of [startHighlight] left
    suspended if one was made, and whether [super.renderSelf(buffer)] is
    reached, which draws the text buffer. *)
Definition renderSelf (st : State) : State * option Pending * bool :=
  if _highlightsDirty st then
    if isDestroyed st then (st, None, false)
    else if (length (_content st) =? 0)%nat then
      let st := setHighlightsDirty false (setShouldRenderTextBuffer false st) in
      (st, None, _shouldRenderTextBuffer st)
    else if noFiletype st then
      let st := setHighlightsDirty false (setShouldRenderTextBuffer true st) in
      (st, None, _shouldRenderTextBuffer st)
    else
      let st := ensureVisibleTextBeforeHighlight st in
      let st := setHighlightsDirty false st in
      let '(st, pending) := startHighlight st in
      (st, pending, _shouldRenderTextBuffer st)
  else (st, None, _shouldRenderTextBuffer st).

End CodeRender.

(** ** Line colours and signs of the line number renderable,
    [renderables/LineNumberRenderable.ts] *)

Module LineNumbers.
Import Js.
Local Open Scope Z_scope.

Section Colours.

(** Values of the class [RGBA]. *)
Variable RGBA : Type.

(** [string | RGBA]. *)
Inductive ColorInput : Type :=
  | ColorString (s : JsString)
  | ColorValue (c : RGBA).

(** [LineColorConfig]: a key that is absent is [None]; a key that is present
    with the value [undefined] is [Some None]. *)
Record LineColorConfig : Type := {
  gutter : option (option ColorInput);
  content : option (option ColorInput)
}.

(** [string | RGBA | LineColorConfig]. *)
Inductive LineColor : Type :=
  | Plain (c : ColorInput)
  | Config (config : LineColorConfig).

(** [parseColor] of [lib/RGBA], applied to whatever it is given, and
    [darkenColor], which scales the colour channels. *)
Variable parseColor : LineColor -> RGBA.
Variable darkenColor : RGBA -> RGBA.

Record LineSign : Type := {
  before : option JsString;
  beforeColor : option ColorInput;
  after : option JsString;
  afterColor : option ColorInput
}.

(** The two colour maps and the sign map, and, when there is a gutter, how
    often it has been told of new colours and of new signs. *)
Record State : Type := {
  _lineColorsGutter : gmap Z RGBA;
  _lineColorsContent : gmap Z RGBA;
  _lineSigns : gmap Z LineSign;
  gutterUpdates : option (nat * nat)
}.

(** The value of [config.gutter] or [config.content] when it is truthy: an
    [RGBA] object, or a string that is not empty. *)
Definition truthy (v : option (option ColorInput)) : option ColorInput :=
  match v with
  | Some (Some (ColorString [])) => None
  | Some (Some c) => Some c
  | _ => None
  end.

(** [this.gutter.setLineColors(...)], if there is a gutter. *)
Definition notifyColors (st : State) : State :=
  {| _lineColorsGutter := _lineColorsGutter st;
     _lineColorsContent := _lineColorsContent st;
     _lineSigns := _lineSigns st;
     gutterUpdates :=
       match gutterUpdates st with
       | Some (colors, signs) => Some (S colors, signs)
       | None => None
       end |}.

(** [this.gutter.setLineSigns(...)], if there is a gutter. *)
Definition notifySigns (st : State) : State :=
  {| _lineColorsGutter := _lineColorsGutter st;
     _lineColorsContent := _lineColorsContent st;
     _lineSigns := _lineSigns st;
     gutterUpdates :=
       match gutterUpdates st with
       | Some (colors, signs) => Some (colors, S signs)
       | None => None
       end |}.

Definition withColors (g c : gmap Z RGBA) (st : State) : State :=
  {| _lineColorsGutter := g; _lineColorsContent := c;
     _lineSigns := _lineSigns st; gutterUpdates := gutterUpdates st |}.

Definition withSigns (s : gmap Z LineSign) (st : State) : State :=
  {| _lineColorsGutter := _lineColorsGutter st;
     _lineColorsContent := _lineColorsContent st;
     _lineSigns := s; gutterUpdates := gutterUpdates st |}.

(** [parseLineColor(line, color)].  An object takes the first branch when it
    has the key [gutter]; an [RGBA] object has no such key. *)
Definition parseLineColor (line : Z) (color : LineColor) (st : State) : State :=
  match color with
  | Config {| gutter := Some g; content := c |} =>
      let config_gutter := truthy (Some g) in
      let config_content := truthy c in
      let gutterMap :=
        match config_gutter with
        | Some cg => <[line := parseColor (Plain cg)]> (_lineColorsGutter st)
        | None => _lineColorsGutter st
        end in
      let contentMap :=
        match config_content, config_gutter with
        | Some cc, _ => <[line := parseColor (Plain cc)]> (_lineColorsContent st)
        | None, Some cg =>
            <[line := darkenColor (parseColor (Plain cg))]> (_lineColorsContent st)
        | None, None => _lineColorsContent st
        end in
      withColors gutterMap contentMap st
  | _ =>
      let parsedColor := parseColor color in
      withColors (<[line := parsedColor]> (_lineColorsGutter st))
        (<[line := darkenColor parsedColor]> (_lineColorsContent st)) st
  end.

Definition setLineColor (line : Z) (color : LineColor) (st : State) : State :=
  notifyColors (parseLineColor line color st).

Definition clearLineColor (line : Z) (st : State) : State :=
  notifyColors (withColors (delete line (_lineColorsGutter st))
                  (delete line (_lineColorsContent st)) st).

Definition clearAllLineColors (st : State) : State :=
  notifyColors (withColors ∅ ∅ st).

(** [setLineColors(lineColors)]; the map is given by its entries in the order
    of iteration. *)
Definition setLineColors (lineColors : list (Z * LineColor)) (st : State) : State :=
  notifyColors
    (fold_left (fun s entry => parseLineColor entry.1 entry.2 s) lineColors
       (withColors ∅ ∅ st)).

(** The values [i] takes in [for (let i = startLine; i <= endLine; i++)]. *)
Definition lineRange (startLine endLine : Z) : list Z :=
  map (fun k => startLine + Z.of_nat k) (seq 0 (Z.to_nat (endLine - startLine + 1))).

Definition highlightLines (startLine endLine : Z) (color : LineColor) (st : State)
    : State :=
  notifyColors
    (fold_left (fun s i => parseLineColor i color s) (lineRange startLine endLine) st).

Definition clearHighlightLines (startLine endLine : Z) (st : State) : State :=
  notifyColors
    (fold_left (fun s i => withColors (delete i (_lineColorsGutter s))
                             (delete i (_lineColorsContent s)) s)
       (lineRange startLine endLine) st).

Definition setLineSign (line : Z) (sign : LineSign) (st : State) : State :=
  notifySigns (withSigns (<[line := sign]> (_lineSigns st)) st).

Definition clearLineSign (line : Z) (st : State) : State :=
  notifySigns (withSigns (delete line (_lineSigns st)) st).

Definition clearAllLineSigns (st : State) : State :=
  notifySigns (withSigns ∅ st).

Definition setLineSigns (lineSigns : list (Z * LineSign)) (st : State) : State :=
  notifySigns
    (fold_left (fun s entry => withSigns (<[entry.1 := entry.2]> (_lineSigns s)) s)
       lineSigns (withSigns ∅ st)).

End Colours.

End LineNumbers.

(** ** The mouse parser: what it produces *)

Module MouseSpec.
Import Js Mouse.
Local Open Scope Z_scope.

(** The kind of an SGR event as the specification words it: from the bits
    of the button code, the final byte and the pressed buttons. *)
Definition sgrType (b : Z) (pressRelease : PressRelease) (pressed : Pressed)
    : MouseEventType :=
  if Z.testbit b 6 && isUpperM pressRelease then Scroll
  else if Z.testbit b 5 then
    if Z.land b 3 =? 3 then Move
    else if bool_decide (pressed <> ∅) then Drag else Move
  else if isUpperM pressRelease then Down else Up.

(** The pressed buttons after an SGR event, in the same terms. *)
Definition sgrPressed (b : Z) (pressRelease : PressRelease) (pressed : Pressed)
    : Pressed :=
  if Z.testbit b 6 && isUpperM pressRelease then pressed
  else if Z.testbit b 5 then pressed
  else if isUpperM pressRelease then
    if Z.land b 3 =? 3 then pressed else {[ Z.land b 3 ]} ∪ pressed
  else ∅.

Definition isDigit (c : Z) : Prop := 48 <= c <= 57.

(** A decimal numeral: one digit at least. *)
Definition isNumeral (ds : list Z) : Prop := ds <> [] /\ Forall isDigit ds.

Definition digitStep (v c : Z) : Z := v * 10 + (c - 48).

(** The value of a numeral. *)
Definition numeral (ds : list Z) : Z := fold_left digitStep ds 0.

Definition finalByte (pr : PressRelease) : Z := if isUpperM pr then 77 else 109.

(** [ESC [ < b ; x ; y F]. *)
Definition sgrSequence (db dx dy : list Z) (pr : PressRelease) : JsString :=
  [27; 91; 60] ++ db ++ [59] ++ dx ++ [59] ++ dy ++ [finalByte pr].

(** The kinds of event the parser can produce. *)
Definition parserType (t : MouseEventType) : Prop :=
  t = Down \/ t = Up \/ t = Move \/ t = Drag \/ t = Scroll.

(** UTF-8 decoding leaves ASCII bytes alone. *)
Definition asciiTransparent (decodeInput : Buffer -> JsString) : Prop :=
  forall data, Forall (fun b => 0 <= b < 128) data -> decodeInput data = data.

(** Feeding buffers to one parser, one call of [parseAllMouseEvents] each. *)
Fixpoint feedAll (decodeInput : Buffer -> JsString) (chunks : list Buffer)
    (pressed : Pressed) : option (list RawMouseEvent * Pressed) :=
  match chunks with
  | [] => Some ([], pressed)
  | data :: chunks' =>
      match parseAllMouseEvents decodeInput data pressed with
      | None => None
      | Some (events, pressed') =>
          match feedAll decodeInput chunks' pressed' with
          | None => None
          | Some (events', pressed'') => Some (events ++ events', pressed'')
          end
      end
  end.

Definition noModifiers : Modifiers := {| shift := false; alt := false; ctrl := false |}.

Definition plainEvent (t : MouseEventType) (btn ex ey : Z) : RawMouseEvent :=
  {| type := t; button := btn; x := ex; y := ey; modifiers := noModifiers;
     scroll := None |}.

(** [ESC[<0;10;5M], [ESC[<32;12;5M], [ESC[<0;12;5m]. *)
Definition dragScenario : list Buffer :=
  [27 :: lit "[<0;10;5M"; 27 :: lit "[<32;12;5M"; 27 :: lit "[<0;12;5m"].

(** [ESC [ M B X Y]. *)
Definition x10Sequence (B X Y : Z) : JsString := [27; 91; 77; B; X; Y].

(** The kind of an X10 event as the specification words it, from the bits
    of the button byte. *)
Definition x10Type (buttonByte : Z) : MouseEventType :=
  if Z.testbit buttonByte 6 then Scroll
  else if Z.testbit buttonByte 5 then Move
  else if Z.land buttonByte 3 =? 3 then Up else Down.

(** The button of an X10 event, in the same terms. *)
Definition x10Button (buttonByte : Z) : Z :=
  if Z.testbit buttonByte 6 then 0
  else if Z.testbit buttonByte 5 then
    if Z.land buttonByte 3 =? 3 then -1 else Z.land buttonByte 3
  else if Z.land buttonByte 3 =? 3 then 0 else Z.land buttonByte 3.

(** *** Bitwise facts *)

Lemma toInt32_congr a : (toInt32 a) mod 2 ^ 32 = a mod 2 ^ 32.
Proof.
  unfold toInt32.
  rewrite Zminus_mod, Zmod_mod, <- Zminus_mod.
  f_equal. lia.
Qed.

Lemma toInt32_low_bits a n : 0 <= n < 32 -> Z.testbit (toInt32 a) n = Z.testbit a n.
Proof.
  intros Hn.
  rewrite <- (Z.mod_pow2_bits_low (toInt32 a) 32 n) by lia.
  rewrite toInt32_congr. apply Z.mod_pow2_bits_low. lia.
Qed.

Lemma toInt32_small m : 0 <= m < 2 ^ 31 -> toInt32 m = m.
Proof.
  intros Hm. unfold toInt32. rewrite Z.mod_small; lia.
Qed.

Lemma bitand_mask a m : 0 <= m < 2 ^ 31 -> bitand a m = Z.land a m.
Proof.
  intros Hm. unfold bitand. rewrite (toInt32_small m Hm).
  apply Z.bits_inj'. intros n Hn. rewrite !Z.land_spec.
  destruct (Z_lt_dec n 31) as [Hlt | Hge].
  - rewrite toInt32_low_bits by lia. reflexivity.
  - assert (Z.testbit m n = false) as ->.
    { destruct (Z.eq_dec m 0) as [-> | Hm0]; [apply Z.bits_0 |].
      apply Z.bits_above_log2; [lia |].
      apply Z.log2_lt_pow2; [lia |].
      apply Z.lt_le_trans with (2 ^ 31); [lia |].
      apply Z.pow_le_mono_r; lia. }
    rewrite !andb_false_r. reflexivity.
Qed.

Lemma nonzero_land_pow2 a k : 0 <= k -> nonzero (Z.land a (2 ^ k)) = Z.testbit a k.
Proof.
  intros Hk. unfold nonzero.
  destruct (Z.testbit a k) eqn:Hbit.
  - destruct (Z.eqb_spec (Z.land a (2 ^ k)) 0) as [H0 | H0]; [| reflexivity].
    exfalso. assert (Z.testbit (Z.land a (2 ^ k)) k = true) as Ht.
    { rewrite Z.land_spec, Hbit, Z.pow2_bits_true by lia. reflexivity. }
    rewrite H0, Z.bits_0 in Ht. discriminate.
  - assert (Z.land a (2 ^ k) = 0) as ->; [| reflexivity].
    apply Z.bits_inj'. intros n Hn. rewrite Z.land_spec, Z.bits_0.
    destruct (Z.eq_dec n k) as [-> | Hne].
    + rewrite Hbit. reflexivity.
    + rewrite Z.pow2_bits_false by lia. apply andb_false_r.
Qed.

Lemma nonzero_bitand_bit a k : 0 <= k < 31 -> nonzero (bitand a (2 ^ k)) = Z.testbit a k.
Proof.
  intros Hk. rewrite bitand_mask.
  - apply nonzero_land_pow2. lia.
  - split; [apply Z.pow_nonneg; lia | apply Z.pow_lt_mono_r; lia].
Qed.

Lemma bitand_3 a : bitand a 3 = Z.land a 3.
Proof. apply bitand_mask. lia. Qed.

Lemma land_3_range a : 0 <= Z.land a 3 < 4.
Proof.
  change 3 with (Z.ones 2). rewrite Z.land_ones by lia.
  apply Z.mod_pos_bound. lia.
Qed.

Lemma bit2 a : nonzero (bitand a 4) = Z.testbit a 2.
Proof. exact (nonzero_bitand_bit a 2 ltac:(lia)). Qed.

Lemma bit3 a : nonzero (bitand a 8) = Z.testbit a 3.
Proof. exact (nonzero_bitand_bit a 3 ltac:(lia)). Qed.

Lemma bit4 a : nonzero (bitand a 16) = Z.testbit a 4.
Proof. exact (nonzero_bitand_bit a 4 ltac:(lia)). Qed.

Lemma bit5 a : nonzero (bitand a 32) = Z.testbit a 5.
Proof. exact (nonzero_bitand_bit a 5 ltac:(lia)). Qed.

Lemma bit6 a : nonzero (bitand a 64) = Z.testbit a 6.
Proof. exact (nonzero_bitand_bit a 6 ltac:(lia)). Qed.

Ltac js_bits := rewrite ?bit2, ?bit3, ?bit4, ?bit5, ?bit6, ?bitand_3.

Lemma size_pos_nonempty (pressed : Pressed) :
  bool_decide (0 < size pressed)%nat = bool_decide (pressed <> ∅).
Proof.
  apply bool_decide_ext. split.
  - intros Hpos ->. rewrite size_empty in Hpos. lia.
  - intros Hne. destruct (decide (size pressed = 0%nat)) as [H0 | H0]; [| lia].
    apply size_empty_inv in H0. exfalso. apply Hne. apply leibniz_equiv. exact H0.
Qed.

(** *** What [decodeSgrEvent] computes, field by field *)

Lemma decodeSgrEvent_type b wx wy pr pressed :
  type (decodeSgrEvent b wx wy pr pressed).1 = sgrType b pr pressed.
Proof.
  unfold decodeSgrEvent, sgrType. js_bits.
  rewrite size_pos_nonempty.
  destruct (Z.testbit b 6), pr, (Z.testbit b 5), (Z.land b 3 =? 3),
    (bool_decide (pressed <> ∅)); reflexivity.
Qed.

Lemma decodeSgrEvent_pressed b wx wy pr pressed :
  (decodeSgrEvent b wx wy pr pressed).2 = sgrPressed b pr pressed.
Proof.
  unfold decodeSgrEvent, sgrPressed. js_bits.
  destruct (Z.testbit b 6), pr, (Z.testbit b 5), (Z.land b 3 =? 3),
    (bool_decide (0 < size pressed)%nat); reflexivity.
Qed.

Lemma decodeSgrEvent_fields b wx wy pr pressed :
  let ev := (decodeSgrEvent b wx wy pr pressed).1 in
  x ev = wx - 1 /\ y ev = wy - 1 /\
  button ev = (if Z.land b 3 =? 3 then 0 else Z.land b 3) /\
  shift (modifiers ev) = Z.testbit b 2 /\
  alt (modifiers ev) = Z.testbit b 3 /\
  ctrl (modifiers ev) = Z.testbit b 4.
Proof.
  unfold decodeSgrEvent. js_bits.
  destruct (Z.testbit b 6), pr, (Z.testbit b 5), (Z.land b 3 =? 3),
    (bool_decide (0 < size pressed)%nat); cbn; repeat split; reflexivity.
Qed.

(** *** SGR sequences *)

Lemma sgrLoop_digits ds : forall rest index offset values part hasDigit pressed,
  Forall isDigit ds -> (part < length values)%nat ->
  sgrLoop (ds ++ rest) index offset values part hasDigit pressed =
  sgrLoop rest (index + length ds) offset
    (<[part := fold_left digitStep ds (default 0 (values !! part))]> values)
    part (match ds with [] => hasDigit | _ => true end) pressed.
Proof.
  induction ds as [| c ds IH]; intros rest index offset values part hasDigit pressed Hds Hpart.
  - cbn [app fold_left length]. rewrite Nat.add_0_r.
    destruct (lookup_lt_is_Some_2 values part Hpart) as [v Hv].
    rewrite Hv. cbn [default]. rewrite list_insert_id by exact Hv. reflexivity.
  - inversion Hds as [| ? ? Hc Hds']; subst.
    cbn [app sgrLoop]. unfold isDigit in Hc.
    assert ((48 <=? c) && (c <=? 57) = true) as ->.
    { apply andb_true_intro. split; apply Z.leb_le; lia. }
    rewrite IH; [| exact Hds' | rewrite length_insert; exact Hpart].
    rewrite list_lookup_insert_eq by exact Hpart. cbn [default fold_left length].
    rewrite list_insert_insert_eq.
    replace (S index + length ds)%nat with (index + S (length ds))%nat by lia.
    unfold digitStep at 2.
    destruct ds; reflexivity.
Qed.

Lemma numeral_nonneg_from ds : forall v, Forall isDigit ds -> 0 <= v ->
  v <= fold_left digitStep ds v.
Proof.
  induction ds as [| c ds IH]; intros v Hds Hv; cbn [fold_left]; [lia |].
  inversion Hds as [| ? ? Hc Hds']; subst. unfold isDigit in Hc.
  etransitivity; [| apply IH; [exact Hds' | unfold digitStep; lia]].
  unfold digitStep. lia.
Qed.

Lemma numeral_nonneg ds : Forall isDigit ds -> 0 <= numeral ds.
Proof. intros Hds. apply (numeral_nonneg_from ds 0 Hds). lia. Qed.

Lemma length_sgrSequence db dx dy pr :
  length (sgrSequence db dx dy pr) = (length db + length dx + length dy + 6)%nat.
Proof. unfold sgrSequence. rewrite !length_app. cbn [length]. lia. Qed.

Lemma finalByte_not_digit pr : (48 <=? finalByte pr) && (finalByte pr <=? 57) = false.
Proof. destruct pr; reflexivity. Qed.

(** An SGR sequence anywhere in the input is parsed whole, and its numerals
    reach [decodeSgrEvent] with their values. *)
Lemma seen_digit (ds : list Z) (hasDigit : bool) :
  ds <> [] -> match ds with [] => hasDigit | _ :: _ => true end = true.
Proof. destruct ds; [congruence | reflexivity]. Qed.

Lemma parseSgrSequence_sequence pre post db dx dy pr pressed :
  isNumeral db -> isNumeral dx -> isNumeral dy ->
  parseSgrSequence (pre ++ sgrSequence db dx dy pr ++ post) (length pre) pressed =
  Some ({| event := (decodeSgrEvent (numeral db) (numeral dx) (numeral dy) pr pressed).1;
           consumed := length (sgrSequence db dx dy pr) |},
        (decodeSgrEvent (numeral db) (numeral dx) (numeral dy) pr pressed).2).
Proof.
  intros [Hneb Hdb] [Hnex Hdx] [Hney Hdy].
  unfold parseSgrSequence.
  rewrite drop_app_add. unfold sgrSequence at 1.
  rewrite <- !app_assoc. cbn [app drop]. rewrite drop_0.
  rewrite sgrLoop_digits by (auto; cbn; lia).
  rewrite (seen_digit db) by exact Hneb.
  cbn [sgrLoop lookup list_lookup default insert list_insert].
  change ((48 <=? 59) && (59 <=? 57)) with false. cbn match.
  change (59 =? 59) with true. cbn match. cbn [negb orb Nat.leb].
  rewrite sgrLoop_digits by (auto; cbn; lia).
  rewrite (seen_digit dx) by exact Hnex.
  cbn [sgrLoop lookup list_lookup default insert list_insert].
  change ((48 <=? 59) && (59 <=? 57)) with false. cbn match.
  change (59 =? 59) with true. cbn match. cbn [negb orb Nat.leb].
  rewrite sgrLoop_digits by (auto; cbn; lia).
  rewrite (seen_digit dy) by exact Hney.
  cbn [sgrLoop lookup list_lookup default insert list_insert].
  rewrite finalByte_not_digit, length_sgrSequence.
  unfold id, numeral.
  destruct (decodeSgrEvent (fold_left digitStep db 0) (fold_left digitStep dx 0)
              (fold_left digitStep dy 0) pr pressed) as [ev pressed'] eqn:Hdec.
  destruct pr; cbn [finalByte isUpperM Z.eqb Pos.eqb orb negb Nat.eqb];
    rewrite Hdec; cbn [fst snd]; do 3 f_equal; lia.
Qed.

Lemma lookup_after (pre l : list Z) (k : nat) :
  (pre ++ l) !! (length pre + k)%nat = l !! k.
Proof. rewrite lookup_app_r by lia. f_equal. lia. Qed.

Lemma parseMouseSequenceAt_sgr pre post db dx dy pr pressed :
  isNumeral db -> isNumeral dx -> isNumeral dy ->
  parseMouseSequenceAt (pre ++ sgrSequence db dx dy pr ++ post) (length pre) pressed =
  Some ({| event := (decodeSgrEvent (numeral db) (numeral dx) (numeral dy) pr pressed).1;
           consumed := length (sgrSequence db dx dy pr) |},
        (decodeSgrEvent (numeral db) (numeral dx) (numeral dy) pr pressed).2).
Proof.
  intros Hb Hx Hy. unfold parseMouseSequenceAt, startsWith, charCodeAt.
  rewrite drop_app_length.
  rewrite lookup_after.
  unfold sgrSequence at 1 2. cbn [app isPrefixOf lookup list_lookup Z.eqb Pos.eqb andb negb].
  apply parseSgrSequence_sequence; assumption.
Qed.

(** *** Every parsed sequence consumes input *)

Lemma sgrType_parserType b pr pressed : parserType (sgrType b pr pressed).
Proof.
  unfold sgrType, parserType.
  destruct (Z.testbit b 6), pr, (Z.testbit b 5), (Z.land b 3 =? 3),
    (bool_decide (pressed <> ∅)); cbn; auto.
Qed.

Lemma decodeBasicEvent_parserType bb cx cy : parserType (type (decodeBasicEvent bb cx cy)).
Proof.
  unfold decodeBasicEvent, parserType.
  destruct (nonzero (bitand bb 64)), (nonzero (bitand bb 32)), (bitand bb 3 =? 3);
    cbn; auto.
Qed.

Lemma sgrLoop_consumed rest :
  forall index offset values part hasDigit pressed parsed pressed',
  sgrLoop rest index offset values part hasDigit pressed = Some (parsed, pressed') ->
  (offset <= index)%nat ->
  (1 <= consumed parsed)%nat /\
  (offset + consumed parsed <= index + length rest)%nat /\
  parserType (type (event parsed)).
Proof.
  induction rest as [| c rest IH];
    intros index offset values part hasDigit pressed parsed pressed' Hloop Hle;
    cbn [sgrLoop] in Hloop; [discriminate |].
  destruct ((48 <=? c) && (c <=? 57)).
  { apply IH in Hloop; [| lia]. cbn [length]. intuition lia. }
  destruct (c =? 59).
  { destruct (negb hasDigit || (2 <=? part)%nat); [discriminate |].
    apply IH in Hloop; [| lia]. cbn [length]. intuition lia. }
  destruct ((c =? 77) || (c =? 109)); [| discriminate].
  destruct (negb hasDigit || negb (part =? 2)%nat); [discriminate |].
  destruct (decodeSgrEvent _ _ _ _ _) as [ev pr'] eqn:Hdec.
  injection Hloop as <- <-. cbn [consumed event length].
  repeat split; try lia.
  change ev with (ev, pr').1. rewrite <- Hdec, decodeSgrEvent_type.
  apply sgrType_parserType.
Qed.

Lemma parseMouseSequenceAt_consumed str offset pressed parsed pressed' :
  parseMouseSequenceAt str offset pressed = Some (parsed, pressed') ->
  (1 <= consumed parsed)%nat /\
  (offset + consumed parsed <= length str)%nat /\
  parserType (type (event parsed)).
Proof.
  unfold parseMouseSequenceAt.
  destruct (negb (startsWith str [27; 91] offset)); [discriminate |].
  destruct (charCodeAt str (offset + 2)) as [c |] eqn:Hc; [| discriminate].
  assert (offset + 2 < length str)%nat as Hlen.
  { apply lookup_lt_Some in Hc. exact Hc. }
  destruct (Z.eq_dec c 60) as [-> | Hne60].
  - unfold parseSgrSequence. intros Hloop.
    apply sgrLoop_consumed in Hloop; [| lia].
    rewrite length_drop in Hloop. intuition lia.
  - destruct (Z.eq_dec c 77) as [-> | Hne77].
    + unfold parseBasicSequence.
      destruct (length str <? offset + 6)%nat eqn:Hshort; [discriminate |].
      apply Nat.ltb_ge in Hshort.
      destruct (charCodeAt str (offset + 3)); [| discriminate].
      destruct (charCodeAt str (offset + 4)); [| discriminate].
      destruct (charCodeAt str (offset + 5)); [| discriminate].
      intros H. injection H as <- <-. cbn [consumed event].
      repeat split; try lia. apply decodeBasicEvent_parserType.
    + intros H. exfalso.
      destruct c as [| p | p]; try discriminate.
      repeat (destruct p as [p | p |]; try discriminate; try congruence).
Qed.

(** *** The loop of [parseAllMouseEvents] *)

Lemma parseLoop_exit fuel str offset events pressed :
  parseMouseSequenceAt str offset pressed = None ->
  parseLoop (S fuel) str offset events pressed = Some (events, offset, pressed).
Proof.
  intros Hnone. cbn [parseLoop]. rewrite Hnone.
  destruct (offset <? length str)%nat; reflexivity.
Qed.

Lemma parseLoop_end fuel str offset events pressed :
  (length str <= offset)%nat ->
  parseLoop (S fuel) str offset events pressed = Some (events, offset, pressed).
Proof.
  intros Hle. cbn [parseLoop].
  apply Nat.ltb_ge in Hle. rewrite Hle. reflexivity.
Qed.

Lemma parseLoop_step fuel str offset events pressed parsed pressed' :
  parseMouseSequenceAt str offset pressed = Some (parsed, pressed') ->
  parseLoop (S fuel) str offset events pressed =
  parseLoop fuel str (offset + consumed parsed) (events ++ [event parsed]) pressed'.
Proof.
  intros Hsome. cbn [parseLoop]. rewrite Hsome.
  apply parseMouseSequenceAt_consumed in Hsome as (H1 & Hlen & _).
  assert ((offset <? length str)%nat = true) as -> by (apply Nat.ltb_lt; lia).
  reflexivity.
Qed.

(** With more fuel than input left, the loop returns; it stops at the end of
    the input or at the first position where no mouse sequence starts. *)
Lemma parseLoop_total fuel : forall str offset events pressed,
  (offset <= length str)%nat -> (length str - offset < fuel)%nat ->
  exists events' off pressed',
    parseLoop fuel str offset events pressed = Some (events ++ events', off, pressed') /\
    (offset <= off <= length str)%nat /\
    (off = length str \/ parseMouseSequenceAt str off pressed' = None) /\
    Forall (fun ev => parserType (type ev)) events'.
Proof.
  induction fuel as [| fuel IH]; intros str offset events pressed Hoff Hfuel; [lia |].
  destruct (parseMouseSequenceAt str offset pressed) as [[parsed pressed'] |] eqn:Hparse.
  - rewrite (parseLoop_step _ _ _ _ _ _ _ Hparse).
    apply parseMouseSequenceAt_consumed in Hparse as (H1 & Hlen & Hty).
    destruct (IH str (offset + consumed parsed)%nat (events ++ [event parsed]) pressed')
      as (events' & off & pressed'' & Hloop & Hrange & Hstop & Hall); [lia | lia |].
    exists (event parsed :: events'), off, pressed''.
    rewrite Hloop, <- app_assoc. cbn [app].
    repeat split; try lia; [exact Hstop | constructor; assumption].
  - rewrite (parseLoop_exit _ _ _ _ _ Hparse).
    exists [], offset, pressed. rewrite app_nil_r.
    repeat split; try lia; [right; exact Hparse | constructor].
Qed.

(** A buffer that is one mouse sequence gives one event. *)
Lemma parseLoop_single str pressed parsed pressed' :
  parseMouseSequenceAt str 0 pressed = Some (parsed, pressed') ->
  consumed parsed = length str ->
  parseLoop (S (length str)) str 0 [] pressed =
  Some ([event parsed], length str, pressed').
Proof.
  intros Hparse Hall.
  rewrite (parseLoop_step _ _ _ _ _ _ _ Hparse).
  apply parseMouseSequenceAt_consumed in Hparse as (H1 & _ & _).
  destruct (length str) as [| n] eqn:Hlen; [lia |].
  rewrite parseLoop_end by lia. rewrite Hall. reflexivity.
Qed.

Lemma decodeAscii_transparent : asciiTransparent decodeAscii.
Proof. intros data _. reflexivity. Qed.

Lemma sgrSequence_ascii db dx dy pr :
  Forall isDigit db -> Forall isDigit dx -> Forall isDigit dy ->
  Forall (fun b => 0 <= b < 128) (sgrSequence db dx dy pr).
Proof.
  intros Hb Hx Hy. unfold sgrSequence.
  assert (forall ds, Forall isDigit ds -> Forall (fun b => 0 <= b < 128) ds) as Hd.
  { intros ds Hds. eapply Forall_impl; [exact Hds |]. unfold isDigit. cbn. lia. }
  repeat (apply Forall_app; split); auto;
    repeat constructor; try lia; destruct pr; cbn; lia.
Qed.

(** *** SGR sequences: one event each *)

(** C1, as amended.  For every SGR sequence [ESC [ < b ; x ; y F] whose
    numerals are below [2^53] (where the arithmetic of the code is exact),
    parsing the buffer that holds it gives exactly one event.  Its coordinates are [x - 1] and [y - 1]; its button is the
    low two bits of [b], with 3 reported as 0; shift, alt and ctrl are bits
    2, 3 and 4 of [b]; its kind is [scroll] when bit 6 is set and [F] is [M],
    else [move] or [drag] when bit 5 is set (for either final byte), else
    [down] for [M] and [up] for [m]. *)
Theorem sgr_sequence_event (decodeInput : Buffer -> JsString)
    (db dx dy : list Z) (pr : PressRelease) (pressed : Pressed) :
  asciiTransparent decodeInput ->
  isNumeral db -> isNumeral dx -> isNumeral dy ->
  numeral db < MAX_SAFE -> numeral dx < MAX_SAFE -> numeral dy < MAX_SAFE ->
  exists ev,
    parseAllMouseEvents decodeInput (sgrSequence db dx dy pr) pressed =
      Some ([ev], sgrPressed (numeral db) pr pressed) /\
    x ev = numeral dx - 1 /\
    y ev = numeral dy - 1 /\
    button ev = (if Z.land (numeral db) 3 =? 3 then 0 else Z.land (numeral db) 3) /\
    shift (modifiers ev) = Z.testbit (numeral db) 2 /\
    alt (modifiers ev) = Z.testbit (numeral db) 3 /\
    ctrl (modifiers ev) = Z.testbit (numeral db) 4 /\
    type ev = sgrType (numeral db) pr pressed.
Proof.
  intros Hdec Hb Hx Hy _ _ _.
  exists (decodeSgrEvent (numeral db) (numeral dx) (numeral dy) pr pressed).1.
  split.
  - unfold parseAllMouseEvents, parseAllMouseEventsFrom.
    rewrite Hdec by (apply sgrSequence_ascii; [apply Hb | apply Hx | apply Hy]).
    pose proof (parseMouseSequenceAt_sgr [] [] db dx dy pr pressed Hb Hx Hy) as Hparse.
    cbn [app length] in Hparse. rewrite app_nil_r in Hparse.
    rewrite (parseLoop_single _ _ _ _ Hparse) by reflexivity.
    cbn [event]. rewrite decodeSgrEvent_pressed. reflexivity.
  - pose proof (decodeSgrEvent_fields (numeral db) (numeral dx) (numeral dy) pr pressed)
      as (Hx' & Hy' & Hbtn & Hs & Ha & Hc).
    rewrite decodeSgrEvent_type. auto 10.
Qed.

Lemma sgr_sequence_event_witness :
  exists ev,
    parseAllMouseEvents decodeAscii (sgrSequence [51; 53] [49; 48] [53] LowerM) {[ 0 ]} =
      Some ([ev], sgrPressed 35 LowerM {[ 0 ]}) /\
    x ev = 9 /\ y ev = 4 /\ button ev = 0 /\
    shift (modifiers ev) = false /\ alt (modifiers ev) = false /\
    ctrl (modifiers ev) = false /\ type ev = Move.
Proof.
  apply (sgr_sequence_event decodeAscii [51; 53] [49; 48] [53] LowerM {[ 0 ]}).
  - exact decodeAscii_transparent.
  - split; [discriminate | repeat constructor; unfold isDigit; lia].
  - split; [discriminate | repeat constructor; unfold isDigit; lia].
  - split; [discriminate | repeat constructor; unfold isDigit; lia].
  - vm_compute. reflexivity.
  - vm_compute. reflexivity.
  - vm_compute. reflexivity.
Defined.

(** C1 as stated fails: with [b = 3] the button of the event is 0, not the
    low two bits of [b]; and with bit 5 set a sequence ending in [m] gives a
    [move], not a release. *)
Lemma sgr_sequence_event_counterexample :
  (exists ev pressed',
     parseAllMouseEvents decodeAscii (27 :: lit "[<3;1;1M") init = Some ([ev], pressed') /\
     Z.land 3 3 = 3 /\ button ev = 0) /\
  (exists ev pressed',
     parseAllMouseEvents decodeAscii (27 :: lit "[<32;1;1m") init = Some ([ev], pressed') /\
     type ev = Move).
Proof.
  split; eexists; eexists; (split; [vm_compute; reflexivity |]); cbn; auto.
Qed.

(** *** The drag scenario *)

Lemma dragScenario_ascii : Forall (Forall (fun b => 0 <= b < 128)) dragScenario.
Proof. apply (bool_decide_unpack _). vm_compute. exact I. Qed.

(** C2, as amended.  Feeding the three sequences produces, in order, exactly
    the events down(btn=0, x=9, y=4), drag(btn=0, x=11, y=4) and
    up(btn=0, x=11, y=4), and leaves no button pressed; no event that the
    parser produces, on any input, has a kind other than down, up, move, drag
    or scroll, so a drag-end never comes from the parser. *)
Theorem sgr_drag_scenario (decodeInput : Buffer -> JsString) :
  asciiTransparent decodeInput ->
  feedAll decodeInput dragScenario init =
    Some ([plainEvent Down 0 9 4; plainEvent Drag 0 11 4; plainEvent Up 0 11 4], ∅) /\
  (forall str offset pressed parsed pressed',
     parseMouseSequenceAt str offset pressed = Some (parsed, pressed') ->
     parserType (type (event parsed))).
Proof.
  intros Hdec. split.
  - pose proof dragScenario_ascii as Hascii.
    unfold dragScenario in *.
    repeat (apply Forall_cons in Hascii as [? Hascii]).
    cbn [feedAll]. unfold parseAllMouseEvents, parseAllMouseEventsFrom.
    rewrite !Hdec by assumption.
    vm_compute. reflexivity.
  - intros str offset pressed parsed pressed' Hparse.
    apply parseMouseSequenceAt_consumed in Hparse. tauto.
Qed.

Lemma sgr_drag_scenario_witness :
  feedAll decodeAscii dragScenario init =
    Some ([plainEvent Down 0 9 4; plainEvent Drag 0 11 4; plainEvent Up 0 11 4], ∅) /\
  (forall str offset pressed parsed pressed',
     parseMouseSequenceAt str offset pressed = Some (parsed, pressed') ->
     parserType (type (event parsed))).
Proof.
  apply (sgr_drag_scenario decodeAscii). exact decodeAscii_transparent.
Defined.

(** C2 as stated fails: the three feeds give three events, and no fourth
    event of kind drag-end follows. *)
Lemma sgr_drag_scenario_counterexample :
  ~ (exists e1 e2 e3 e4 pressed',
       feedAll decodeAscii dragScenario init = Some ([e1; e2; e3; e4], pressed') /\
       type e4 = DragEnd).
Proof.
  intros (e1 & e2 & e3 & e4 & pressed' & Hfeed & _).
  vm_compute in Hfeed. discriminate Hfeed.
Qed.

(** *** Termination and progress *)

(** C3, as amended.  For every input, [parseAllMouseEvents] returns.  Every
    sequence it parses advances the offset by at least one code unit and
    stays within the input.  At a position where no mouse sequence starts the
    loop stops, producing no event and without advancing; so on return the
    offset is the end of the input or the first such position. *)
Theorem parseAllMouseEvents_terminates (decodeInput : Buffer -> JsString)
    (data : Buffer) (pressed : Pressed) :
  let str := decodeInput data in
  (exists events off pressed',
     parseAllMouseEventsFrom decodeInput data pressed = Some (events, off, pressed') /\
     parseAllMouseEvents decodeInput data pressed = Some (events, pressed') /\
     (off <= length str)%nat /\
     (off = length str \/ parseMouseSequenceAt str off pressed' = None)) /\
  (forall offset q parsed q',
     parseMouseSequenceAt str offset q = Some (parsed, q') ->
     (1 <= consumed parsed)%nat /\ (offset + consumed parsed <= length str)%nat) /\
  (forall fuel offset events q,
     parseMouseSequenceAt str offset q = None ->
     parseLoop (S fuel) str offset events q = Some (events, offset, q)).
Proof.
  intros str. split; [| split].
  - destruct (parseLoop_total (S (length str)) str 0 [] pressed)
      as (events & off & pressed' & Hloop & Hrange & Hstop & _); [lia | lia |].
    exists events, off, pressed'. cbn [app] in Hloop.
    unfold parseAllMouseEvents, parseAllMouseEventsFrom. fold str.
    rewrite Hloop. repeat split; [lia | exact Hstop].
  - intros offset q parsed q' Hparse.
    apply parseMouseSequenceAt_consumed in Hparse. tauto.
  - intros fuel offset events q Hnone. apply parseLoop_exit. exact Hnone.
Qed.

(** C3 as stated fails: on the one-byte input ["a"] an unparsed byte remains
    and the offset is still 0 on return. *)
Lemma parseAllMouseEvents_counterexample :
  ~ (forall (data : Buffer) (pressed : Pressed),
       (0 < length (decodeAscii data))%nat ->
       exists events off pressed',
         parseAllMouseEventsFrom decodeAscii data pressed = Some (events, off, pressed') /\
         (1 <= off)%nat).
Proof.
  intros Hclaim.
  destruct (Hclaim (lit "a") init) as (events & off & pressed' & Hrun & Hoff).
  - cbn. lia.
  - vm_compute in Hrun. injection Hrun as _ <- _. lia.
Qed.

(** *** Move or drag *)



(** *** Release *)

(** C8.  An SGR release that is neither motion nor scroll (final byte [m],
    bits 5 and 6 clear) gives an [up] and leaves the set of pressed buttons
    empty, whatever it held and whichever button is named; the next motion
    event is therefore a [move]. *)
Theorem sgr_release_clears_pressed (b wireX wireY : Z) (pressed : Pressed) :
  Z.testbit b 5 = false -> Z.testbit b 6 = false ->
  let after := (decodeSgrEvent b wireX wireY LowerM pressed).2 in
  type (decodeSgrEvent b wireX wireY LowerM pressed).1 = Up /\
  after = ∅ /\
  (forall b' wireX' wireY',
     Z.testbit b' 5 = true -> Z.testbit b' 6 = false ->
     type (decodeSgrEvent b' wireX' wireY' UpperM after).1 = Move).
Proof.
  intros H5 H6 after. subst after.
  rewrite decodeSgrEvent_type, decodeSgrEvent_pressed.
  unfold sgrType at 1, sgrPressed. rewrite H5, H6. cbn [andb isUpperM].
  repeat split.
  intros b' wireX' wireY' H5' H6'.
  rewrite decodeSgrEvent_type. unfold sgrType. rewrite H5', H6'. cbn [andb].
  rewrite bool_decide_eq_false_2 by tauto.
  destruct (Z.land b' 3 =? 3); reflexivity.
Qed.

Lemma sgr_release_clears_pressed_witness :
  let after := (decodeSgrEvent 2 12 5 LowerM {[ 0; 1 ]}).2 in
  type (decodeSgrEvent 2 12 5 LowerM {[ 0; 1 ]}).1 = Up /\
  after = ∅ /\
  (forall b' wireX' wireY',
     Z.testbit b' 5 = true -> Z.testbit b' 6 = false ->
     type (decodeSgrEvent b' wireX' wireY' UpperM after).1 = Move).
Proof.
  apply (sgr_release_clears_pressed 2 12 5 {[ 0; 1 ]}); reflexivity.
Defined.

(** *** X10 sequences *)

Lemma decodeBasicEvent_fields bb cx cy :
  let ev := decodeBasicEvent bb cx cy in
  x ev = cx /\ y ev = cy /\
  type ev = x10Type bb /\ button ev = x10Button bb /\
  shift (modifiers ev) = Z.testbit bb 2 /\
  alt (modifiers ev) = Z.testbit bb 3 /\
  ctrl (modifiers ev) = Z.testbit bb 4.
Proof.
  unfold decodeBasicEvent, x10Type, x10Button. js_bits.
  destruct (Z.testbit bb 6), (Z.testbit bb 5), (Z.land bb 3 =? 3);
    cbn; repeat split; reflexivity.
Qed.

Lemma parseMouseSequenceAt_x10 pre post B X Y pressed :
  parseMouseSequenceAt (pre ++ x10Sequence B X Y ++ post) (length pre) pressed =
  Some ({| event := decodeBasicEvent (B - 32) (X - 33) (Y - 33); consumed := 6 |},
        pressed).
Proof.
  unfold parseMouseSequenceAt, parseBasicSequence, startsWith, charCodeAt.
  rewrite drop_app_length.
  rewrite !lookup_after.
  assert ((length (pre ++ x10Sequence B X Y ++ post) <? length pre + 6)%nat = false)
    as ->.
  { apply Nat.ltb_ge. rewrite !length_app. cbn [length x10Sequence]. lia. }
  unfold x10Sequence.
  cbn [app isPrefixOf lookup list_lookup Z.eqb Pos.eqb andb negb].
  reflexivity.
Qed.

(** C6, as amended.  An X10 sequence [ESC [ M B X Y] with its six code units
    available is parsed into one event, consuming exactly six code units and
    leaving the pressed buttons alone.  The button byte is [code(B) - 32] and
    the coordinates are [code(X) - 33] and [code(Y) - 33].  The byte is read
    with the masks of SGR: shift, alt and ctrl are its bits 2, 3 and 4 (these
    and the scroll data equal those of the SGR event of the same code), bit 6
    makes a [scroll], bit 5 a motion.  The event itself differs from SGR: a
    scroll reports button 0, a motion is always a [move] (button -1 when the
    low two bits are 3), and otherwise low bits 3 give an [up] and any other
    value a [down]. *)
Theorem x10_sequence_event (pre post : JsString) (B X Y : Z) (pressed : Pressed) :
  let buttonByte := B - 32 in
  exists ev,
    parseMouseSequenceAt (pre ++ x10Sequence B X Y ++ post) (length pre) pressed =
      Some ({| event := ev; consumed := 6 |}, pressed) /\
    (forall (decodeInput : Buffer -> JsString) (data : Buffer),
       decodeInput data = x10Sequence B X Y ->
       parseAllMouseEvents decodeInput data pressed = Some ([ev], pressed)) /\
    ev = decodeBasicEvent buttonByte (X - 33) (Y - 33) /\
    x ev = X - 33 /\
    y ev = Y - 33 /\
    shift (modifiers ev) = Z.testbit buttonByte 2 /\
    alt (modifiers ev) = Z.testbit buttonByte 3 /\
    ctrl (modifiers ev) = Z.testbit buttonByte 4 /\
    type ev = x10Type buttonByte /\
    button ev = x10Button buttonByte /\
    (forall wireX wireY pr q,
       modifiers ev = modifiers (decodeSgrEvent buttonByte wireX wireY pr q).1) /\
    (forall wireX wireY q,
       scroll ev = scroll (decodeSgrEvent buttonByte wireX wireY UpperM q).1).
Proof.
  intros buttonByte.
  exists (decodeBasicEvent buttonByte (X - 33) (Y - 33)).
  pose proof (decodeBasicEvent_fields buttonByte (X - 33) (Y - 33))
    as (Hx & Hy & Hty & Hbtn & Hs & Ha & Hc).
  split; [apply parseMouseSequenceAt_x10 |].
  split.
  { intros decodeInput data Hdata.
    pose proof (parseMouseSequenceAt_x10 [] [] B X Y pressed) as Hparse.
    cbn [app length] in Hparse. rewrite app_nil_r in Hparse.
    unfold parseAllMouseEvents, parseAllMouseEventsFrom.
    rewrite Hdata, (parseLoop_single _ _ _ _ Hparse) by reflexivity.
    reflexivity. }
  repeat (split; [assumption || reflexivity |]).
  split.
  - intros wireX wireY pr q. unfold decodeBasicEvent, decodeSgrEvent.
    destruct (nonzero (bitand buttonByte 64)), pr, (nonzero (bitand buttonByte 32)),
      (bitand buttonByte 3 =? 3), (bool_decide (0 < size q)%nat); reflexivity.
  - intros wireX wireY q. unfold decodeBasicEvent, decodeSgrEvent.
    destruct (nonzero (bitand buttonByte 64)), (nonzero (bitand buttonByte 32)),
      (bitand buttonByte 3 =? 3), (bool_decide (0 < size q)%nat); reflexivity.
Qed.

(** C6 as stated fails: for one and the same button code and position the
    X10 event and the SGR event differ.  Code 3 is an [up] in X10 and a
    [down] in SGR; code 65 (scroll down) has button 0 in X10 and 1 in SGR;
    code 32 with a button held is a [move] in X10 and a [drag] in SGR. *)
Lemma x10_sequence_event_counterexample :
  (parseMouseEvent decodeAscii (27 :: lit "[M#!!") init).1
    = Some (plainEvent Up 0 0 0) /\
  (parseMouseEvent decodeAscii (27 :: lit "[<3;1;1M") init).1
    = Some (plainEvent Down 0 0 0) /\
  option_map button (parseMouseEvent decodeAscii (27 :: lit "[Ma!!") init).1 = Some 0 /\
  option_map button (parseMouseEvent decodeAscii (27 :: lit "[<65;1;1M") init).1 = Some 1 /\
  option_map type (parseMouseEvent decodeAscii (27 :: lit "[M@!!") {[ 0 ]}).1 = Some Move /\
  option_map type (parseMouseEvent decodeAscii (27 :: lit "[<32;1;1M") {[ 0 ]}).1 = Some Drag.
Proof. vm_compute. repeat split; reflexivity. Qed.

End MouseSpec.

(** ** Link detection: what is left alone *)

Module LinksSpec.
Import Js Links.
Local Open Scope Z_scope.

(** The highlight carries none of the URL scopes as its group. *)
Definition noUrlScope (h : SimpleHighlight) : Prop := h.2 ∉ URL_SCOPES.

(** The helper [chunk(text)] of the tests. *)
Definition chunk (s : string) : TextChunk :=
  {| text := lit s; attributes := 0; link := None |}.

(** An array at reference 1 whose elements are fresh chunks with the given
    texts, at references 2, 3, ... *)
Definition storeOf (texts : list string) : Store :=
  let refs := map Pos.of_nat (seq 2 (length texts)) in
  {| arrays := {[ 1%positive := refs ]};
     chunkObjects := list_to_map (zip refs (map chunk texts)) |}.

(** The links of the elements of the array at reference 1, in order. *)
Definition linksOf (st : Store) : list (option Link) :=
  omap (fun r => link <$> chunkObjects st !! r) (default [] (arrays st !! 1%positive)).

Definition markdownLink : Context :=
  {| content := lit "[Click here](https://example.com)";
     highlights := [(0, 1, lit "markup.link"); (1, 11, lit "markup.link.label");
                    (11, 13, lit "markup.link"); (13, 32, lit "markup.link.url");
                    (32, 33, lit "markup.link")] |}.

Lemma collectRanges_no_url content rest : forall earlier ranges,
  Forall noUrlScope rest ->
  collectRanges content earlier rest ranges = ranges.
Proof.
  induction rest as [| [[start end_] group] rest IH]; intros earlier ranges Hall;
    cbn [collectRanges]; [reflexivity |].
  apply Forall_cons in Hall as [Hh Hrest].
  unfold noUrlScope in Hh. cbn [snd] in Hh.
  unfold includes. rewrite bool_decide_eq_false_2 by exact Hh. cbn [negb].
  apply IH. exact Hrest.
Qed.

(** The loop over the chunks assigns links only: an object of the store
    keeps its text and attributes, and it is not touched at all when its
    text has at most one code unit. *)
Lemma linkLoop_frame content ranges elems : forall contentPos objs r c,
  objs !! r = Some c ->
  exists c',
    linkLoop content ranges elems contentPos objs !! r = Some c' /\
    text c' = text c /\ attributes c' = attributes c /\
    ((length (text c) <= 1)%nat -> c' = c).
Proof.
  induction elems as [| r0 elems IH]; intros contentPos objs r c Hr; cbn [linkLoop].
  { exists c. auto. }
  destruct (objs !! r0) as [chunk |] eqn:Hr0; [| apply IH; exact Hr].
  destruct (length (text chunk) <=? 1)%nat eqn:Hshort; [apply IH; exact Hr |].
  apply Nat.leb_gt in Hshort.
  destruct (indexOf content (text chunk) contentPos <? 0); [apply IH; exact Hr |].
  destruct (find _ ranges) as [range |]; [| apply IH; exact Hr].
  destruct (decide (r0 = r)) as [-> | Hne].
  - assert (chunk = c) as -> by congruence.
    destruct (IH (Z.to_nat (indexOf content (text c) contentPos) + length (text c))%nat
                (<[r := setLink c {| url := range_url range |}]> objs) r
                (setLink c {| url := range_url range |}))
      as (c' & Hc' & Htext & Hattr & _); [apply lookup_insert_eq |].
    exists c'. cbn [setLink text attributes] in Htext, Hattr.
    repeat split; try assumption. intros Hle. lia.
  - apply IH. rewrite lookup_insert_ne by exact Hne. exact Hr.
Qed.

Lemma linkLoop_fresh content ranges elems : forall contentPos objs r,
  objs !! r = None ->
  linkLoop content ranges elems contentPos objs !! r = None.
Proof.
  induction elems as [| r0 elems IH]; intros contentPos objs r Hr; cbn [linkLoop];
    [exact Hr |].
  destruct (objs !! r0) as [chunk |] eqn:Hr0; [| apply IH; exact Hr].
  destruct (length (text chunk) <=? 1)%nat; [apply IH; exact Hr |].
  destruct (indexOf content (text chunk) contentPos <? 0); [apply IH; exact Hr |].
  destruct (find _ ranges) as [range |]; [| apply IH; exact Hr].
  apply IH. rewrite lookup_insert_ne; [exact Hr | congruence].
Qed.

(** C9.  When no highlight carries a URL scope group, [detectLinks] returns
    the very array it was given and the store is as before, so no link is set
    or changed.  Whatever the highlights, the returned reference is the given
    one, the arrays are as before, and a chunk whose text has at most one
    code unit is left exactly as it was. *)
Theorem detectLinks_frame (chunks : Ref) (context : Context) (st : Store) :
  (Forall noUrlScope (highlights context) ->
   detectLinks chunks context st = (chunks, st)) /\
  (detectLinks chunks context st).1 = chunks /\
  arrays (detectLinks chunks context st).2 = arrays st /\
  (forall r c,
     chunkObjects st !! r = Some c -> (length (text c) <= 1)%nat ->
     chunkObjects (detectLinks chunks context st).2 !! r = Some c).
Proof.
  unfold detectLinks. split; [| split; [| split]].
  - intros Hall. rewrite collectRanges_no_url by exact Hall. reflexivity.
  - destruct (length _ =? 0)%nat; reflexivity.
  - destruct (length _ =? 0)%nat; reflexivity.
  - intros r c Hr Hshort.
    destruct (length _ =? 0)%nat; cbn [snd chunkObjects]; [exact Hr |].
    destruct (linkLoop_frame (content context)
                (collectRanges (content context) [] (highlights context) [])
                (default [] (arrays st !! chunks)) 0 (chunkObjects st) r c Hr)
      as (c' & Hc' & _ & _ & Hsame).
    rewrite Hc'. f_equal. apply Hsame. exact Hshort.
Qed.

(** The tests of [detect-links.test.ts]: a markdown link, also with concealed
    punctuation, and highlights without URL scope. *)
Example detectLinks_markdown_link :
  linksOf (detectLinks 1 markdownLink
             (storeOf ["["; "Click here"; "]("; "https://example.com"; ")"])).2 =
  [None; Some {| url := lit "https://example.com" |}; None;
   Some {| url := lit "https://example.com" |}; None].
Proof. vm_compute. reflexivity. Qed.

Example detectLinks_concealed :
  linksOf (detectLinks 1 markdownLink
             (storeOf [""; "Click here"; " "; "https://example.com"; ""])).2 =
  [None; Some {| url := lit "https://example.com" |}; None;
   Some {| url := lit "https://example.com" |}; None].
Proof. vm_compute. reflexivity. Qed.

Example detectLinks_no_url :
  detectLinks 1 {| content := lit "hello world";
                   highlights := [(0, 5, lit "keyword")] |}
    (storeOf ["hello"; " world"]) = (1%positive, storeOf ["hello"; " world"]).
Proof. vm_compute. reflexivity. Qed.

End LinksSpec.

(** ** Rebuild requests are coalesced *)

Module DiffSpec.
Import Js Diff.

(** A renderable in split view with nothing pending. *)
Definition idleSplit : Diff.State unit :=
  {| _diff := lit "a"; _view := Split; _parsedDiff := None; _parseError := None;
     _waitingForHighlight := false; pendingRebuild := false; isDestroyed := false;
     microtasks := []; built := []; requestRenderCalls := 0 |}.

Definition noPatches (diff : JsString) : PatchResult unit := Patches [].

Section Coalescing.

Context {StructuredPatch : Type}.
Variable parsePatch : JsString -> PatchResult StructuredPatch.

Local Abbreviation State := (Diff.State StructuredPatch).

(** What asks for a rebuild: a direct call of [requestRebuild] (as [onResize]
    and the [wrapMode] setter make in split view), or an assignment to the
    [diff] property. *)
Inductive Request : Type :=
  | CallRequestRebuild
  | AssignDiff (value : JsString).

Definition issue (req : Request) (st : State) : State :=
  match req with
  | CallRequestRebuild => requestRebuild st
  | AssignDiff value => set_diff parsePatch value st
  end.

Definition issueAll (reqs : list Request) (st : State) : State :=
  fold_left (fun s req => issue req s) reqs st.










Lemma parseDiff_fields (st : State) :
  pendingRebuild (parseDiff parsePatch st) = pendingRebuild st /\
  microtasks (parseDiff parsePatch st) = microtasks st /\
  built (parseDiff parsePatch st) = built st /\
  _view (parseDiff parsePatch st) = _view st /\
  _diff (parseDiff parsePatch st) = _diff st /\
  isDestroyed (parseDiff parsePatch st) = isDestroyed st.
Proof.
  unfold parseDiff.
  destruct (length (_diff st) =? 0)%nat; [cbn; auto 10 |].
  destruct (parsePatch (_diff st)) as [[| p ps] | e]; cbn; auto 10.
Qed.









End Coalescing.



(** The scenario of the test "rapid diff updates trigger microtask
    coalescing": four assignments, one rebuild, from the last value. *)
Example rapid_diff_updates :
  built (drainMicrotasks
           (issueAll noPatches
              [AssignDiff (lit "b"); AssignDiff (lit "c"); AssignDiff (lit "d");
               AssignDiff (lit "a")] idleSplit)) = [lit "a"].
Proof. vm_compute. reflexivity. Qed.

End DiffSpec.

(** ** Highlighting that fails *)

Module CodeSpec.
Import Js Code.
Local Open Scope Z_scope.

(** A renderable with a file type and some content, not yet highlighted. *)
Definition fresh : State :=
  {| _content := lit "let x"; _filetype := Some (lit "ts");
     _isHighlighting := false; _highlightsDirty := true;
     _highlightSnapshotId := 0; _conceal := true; _drawUnstyledText := true;
     _shouldRenderTextBuffer := true; _streaming := false;
     _hadInitialContent := false; _lastHighlights := [];
     _onHighlight := false; _onChunks := false; isDestroyed := false;
     textBuffer := StyledText []; effects := [] |}.

Definition noChunks (content : JsString) (highlights : list SimpleHighlight)
    (conceal : bool) : list TextChunk := [].

(** The state of [fresh] once highlighting has started and the renderable
    has been destroyed. *)
Definition destroyedInFlight : State :=
  {| _content := lit "let x"; _filetype := Some (lit "ts");
     _isHighlighting := true; _highlightsDirty := true;
     _highlightSnapshotId := 1; _conceal := true; _drawUnstyledText := true;
     _shouldRenderTextBuffer := true; _streaming := false;
     _hadInitialContent := false; _lastHighlights := [];
     _onHighlight := false; _onChunks := false; isDestroyed := true;
     textBuffer := StyledText []; effects := [] |}.

Section Failure.

Variable treeSitterToTextChunks :
  JsString -> list SimpleHighlight -> bool -> list TextChunk.

Lemma startHighlight_pending (st0 st1 : State) (pending : Pending) :
  startHighlight st0 = (st1, Some pending) ->
  exists fr,
    pending = AwaitHighlightOnce fr /\
    content fr = _content st0 /\
    snapshotId fr = _highlightSnapshotId st0 + 1 /\
    _highlightSnapshotId st1 = snapshotId fr /\
    _isHighlighting st1 = true.
Proof.
  unfold startHighlight.
  destruct (_filetype st0) as [[| c filetype] |]; try discriminate.
  intros H. injection H as <- <-.
  eexists. split; [reflexivity |]. cbn [content snapshotId].
  destruct (_streaming _ && negb (_hadInitialContent _)); cbn; auto.
Qed.

Lemma catchBlock_superseded (fr : Frame) (st : State) :
  snapshotId fr <> _highlightSnapshotId st -> catchBlock fr st = st.
Proof.
  intros Hne. unfold catchBlock.
  destruct (Z.eqb_spec (snapshotId fr) (_highlightSnapshotId st)); [contradiction |].
  reflexivity.
Qed.

Lemma catchBlock_destroyed (fr : Frame) (st : State) :
  snapshotId fr = _highlightSnapshotId st -> isDestroyed st = true ->
  catchBlock fr st = perform Warn st.
Proof.
  intros Heq Hx. unfold catchBlock. rewrite Heq, Z.eqb_refl. cbn. rewrite Hx.
  reflexivity.
Qed.

Lemma catchBlock_alive (fr : Frame) (st : State) :
  snapshotId fr = _highlightSnapshotId st -> isDestroyed st = false ->
  catchBlock fr st = settle (setTextBuffer (PlainText (content fr)) (perform Warn st)).
Proof.
  intros Heq Hx. unfold catchBlock. rewrite Heq, Z.eqb_refl. cbn. rewrite Hx.
  reflexivity.
Qed.

(** C10, as amended.  Let a call of [startHighlight] be suspended at the
    highlight call, and let the call throw.  If no newer snapshot has
    superseded the request and the renderable has not been destroyed
    meanwhile, the text buffer is set to the plain content the call started
    from, [_shouldRenderTextBuffer] is set, [_isHighlighting] and
    [_highlightsDirty] are cleared and a render is requested (after a warning
    and [updateTextInfo]).  If the renderable has been destroyed, only the
    warning is made.  An outcome of the highlight call or of the
    [onHighlight] callback, result or failure, that belongs to a superseded
    snapshot is dropped: the whole state, text buffer included, is as
    before. *)
Theorem highlight_failure_fallback (st0 st1 : State) (pending : Pending)
    (error : JsString) (st : State) :
  startHighlight st0 = (st1, Some pending) ->
  exists fr,
    pending = AwaitHighlightOnce fr /\
    content fr = _content st0 /\
    snapshotId fr = _highlightSnapshotId st0 + 1 /\
    let st' := (resumeHighlightOnce treeSitterToTextChunks fr (Rejected error) st).1 in
    (_highlightSnapshotId st = snapshotId fr -> isDestroyed st = false ->
     textBuffer st' = PlainText (_content st0) /\
     _shouldRenderTextBuffer st' = true /\
     _isHighlighting st' = false /\
     _highlightsDirty st' = false /\
     effects st' = effects st ++ [Warn; UpdateTextInfo; RequestRender]) /\
    (_highlightSnapshotId st = snapshotId fr -> isDestroyed st = true ->
     st' = perform Warn st) /\
    (_highlightSnapshotId st <> snapshotId fr ->
     (forall result,
        resumeHighlightOnce treeSitterToTextChunks fr result st = (st, None)) /\
     (forall highlights modified,
        resumeOnHighlight treeSitterToTextChunks fr highlights modified st = (st, None))).
Proof.
  intros Hstart.
  destruct (startHighlight_pending st0 st1 pending Hstart)
    as (fr & -> & Hcontent & Hid & _ & _).
  exists fr. repeat (split; [assumption || reflexivity |]).
  cbn [resumeHighlightOnce fst]. split; [| split].
  - intros Hsame Halive.
    rewrite catchBlock_alive by congruence. rewrite Hcontent.
    cbn. rewrite <- !app_assoc. repeat split.
  - intros Hsame Hdead. apply catchBlock_destroyed; congruence.
  - intros Hnewer. split.
    + intros [highlights | err]; cbn [resumeHighlightOnce].
      * destruct (Z.eqb_spec (snapshotId fr) (_highlightSnapshotId st)); [congruence |].
        reflexivity.
      * rewrite catchBlock_superseded by congruence. reflexivity.
    + intros highlights [modified | err]; cbn [resumeOnHighlight].
      * unfold afterOnHighlight.
        destruct (Z.eqb_spec (snapshotId fr) (_highlightSnapshotId st)); [congruence |].
        reflexivity.
      * rewrite catchBlock_superseded by congruence. reflexivity.
Qed.

(** Assigning new content supersedes a request in flight: whatever the
    highlight call then returns is dropped. *)
Lemma set_content_supersedes (fr : Frame) (value : JsString)
    (result : Outcome (option (list SimpleHighlight))) (st : State) :
  snapshotId fr = _highlightSnapshotId st -> _content st <> value ->
  resumeHighlightOnce treeSitterToTextChunks fr result (set_content value st) =
  (set_content value st, None).
Proof.
  intros Hid Hne.
  assert (_highlightSnapshotId (set_content value st) = _highlightSnapshotId st + 1)
    as Hnew.
  { unfold set_content. rewrite bool_decide_eq_true_2 by exact Hne.
    cbn [_streaming _drawUnstyledText _filetype].
    destruct (_streaming st && negb (_drawUnstyledText st) && _);
      reflexivity. }
  destruct result as [highlights | err]; cbn [resumeHighlightOnce].
  - destruct (Z.eqb_spec (snapshotId fr) (_highlightSnapshotId (set_content value st)));
      [lia | reflexivity].
  - rewrite catchBlock_superseded by lia. reflexivity.
Qed.

(** After [await this._onChunks(...)] the snapshot is not tested again: the
    chunks are written although the request has been superseded. *)
Remark onChunks_result_not_rechecked (fr : Frame) (chunks : list TextChunk) (st : State) :
  textBuffer (resumeOnChunks fr chunks (Resolved None) st).1 = StyledText chunks.
Proof. reflexivity. Qed.

End Failure.

Lemma highlight_failure_fallback_witness :
  exists fr,
    AwaitHighlightOnce {| content := lit "let x"; filetype := lit "ts"; snapshotId := 1 |}
      = AwaitHighlightOnce fr /\
    content fr = _content fresh /\
    snapshotId fr = _highlightSnapshotId fresh + 1 /\
    let st' := (resumeHighlightOnce noChunks fr (Rejected (lit "boom"))
                  (startHighlight fresh).1).1 in
    (_highlightSnapshotId (startHighlight fresh).1 = snapshotId fr ->
     isDestroyed (startHighlight fresh).1 = false ->
     textBuffer st' = PlainText (_content fresh) /\
     _shouldRenderTextBuffer st' = true /\
     _isHighlighting st' = false /\
     _highlightsDirty st' = false /\
     effects st' = effects (startHighlight fresh).1 ++ [Warn; UpdateTextInfo; RequestRender]) /\
    (_highlightSnapshotId (startHighlight fresh).1 = snapshotId fr ->
     isDestroyed (startHighlight fresh).1 = true ->
     st' = perform Warn (startHighlight fresh).1) /\
    (_highlightSnapshotId (startHighlight fresh).1 <> snapshotId fr ->
     (forall result,
        resumeHighlightOnce noChunks fr result (startHighlight fresh).1
          = ((startHighlight fresh).1, None)) /\
     (forall highlights modified,
        resumeOnHighlight noChunks fr highlights modified (startHighlight fresh).1
          = ((startHighlight fresh).1, None))).
Proof.
  apply (highlight_failure_fallback noChunks fresh (startHighlight fresh).1
           (AwaitHighlightOnce
              {| content := lit "let x"; filetype := lit "ts"; snapshotId := 1 |})
           (lit "boom") (startHighlight fresh).1).
  reflexivity.
Defined.

(** C10 as stated fails: the highlight call throws and no newer snapshot has
    superseded the request, but the renderable was destroyed meanwhile; the
    text buffer is not set to the plain content, [_isHighlighting] stays set
    and no render is requested. *)
Lemma highlight_failure_fallback_counterexample :
  let fr := {| content := lit "let x"; filetype := lit "ts"; snapshotId := 1 |} in
  let st' := (resumeHighlightOnce noChunks fr (Rejected (lit "boom"))
                destroyedInFlight).1 in
  (startHighlight fresh).2 = Some (AwaitHighlightOnce fr) /\
  snapshotId fr = _highlightSnapshotId destroyedInFlight /\
  textBuffer st' <> PlainText (_content fresh) /\
  _isHighlighting st' = true /\
  RequestRender ∉ effects st'.
Proof.
  cbn. repeat split; try discriminate.
  intros Hin. apply list_elem_of_In in Hin. cbn in Hin.
  destruct Hin as [H | []]. discriminate H.
Qed.

End CodeSpec.

(** ** Focus-in restores the terminal modes *)

Module FocusSpec.
Import Js Focus.
Local Open Scope Z_scope.

(** How often [sequence] has been written to the output sink. *)
Definition writes (sequence : JsString) (trace : list Effect) : nat :=
  length (filter (fun e => e = SinkWrite sequence) trace).

(** How many of the inputs are focus-in. *)
Definition focusIns (inputs : list JsString) : nat :=
  length (filter (fun data => data = focusIn) inputs).

Lemma writes_app sequence (t1 t2 : list Effect) :
  writes sequence (t1 ++ t2) = (writes sequence t1 + writes sequence t2)%nat.
Proof. unfold writes. rewrite filter_app, length_app. reflexivity. Qed.

Lemma writes_emit sequence (ev : BusEvent) : writes sequence [Emit ev] = 0%nat.
Proof.
  unfold writes. rewrite filter_cons.
  destruct (decide (Emit ev = SinkWrite sequence)); [discriminate | reflexivity].
Qed.

Lemma writes_enable sequence :
  sequence ∈ enableSequences -> writes sequence (map SinkWrite enableSequences) = 1%nat.
Proof.
  intros Hin. unfold enableSequences in *.
  repeat (apply elem_of_cons in Hin as [-> | Hin]; [vm_compute; reflexivity |]).
  apply elem_of_nil in Hin. contradiction.
Qed.

Lemma feed_focusIn (trace : list Effect) :
  feed focusIn trace = trace ++ map SinkWrite enableSequences ++ [Emit FocusEvent].
Proof.
  unfold feed. rewrite bool_decide_eq_true_2 by reflexivity.
  unfold restoreTerminalModes. rewrite <- app_assoc. reflexivity.
Qed.

Lemma feed_other (data : JsString) (trace : list Effect) sequence :
  data <> focusIn -> writes sequence (feed data trace) = writes sequence trace.
Proof.
  intros Hne. unfold feed. rewrite bool_decide_eq_false_2 by exact Hne.
  destruct (bool_decide (data = focusOut)); [| reflexivity].
  rewrite writes_app, writes_emit. lia.
Qed.

Lemma feedAll_writes sequence (inputs : list JsString) : forall trace,
  sequence ∈ enableSequences ->
  writes sequence (feedAll inputs trace) =
  (writes sequence trace + focusIns inputs)%nat.
Proof.
  induction inputs as [| data inputs IH]; intros trace Hin.
  - unfold focusIns. cbn [feedAll fold_left filter list_filter length]. lia.
  - cbn [feedAll fold_left]. fold (feedAll inputs (feed data trace)).
    rewrite IH by exact Hin. unfold focusIns. rewrite filter_cons.
    destruct (decide (data = focusIn)) as [-> | Hne].
    + rewrite feed_focusIn, !writes_app, writes_emit, writes_enable by exact Hin.
      cbn [length]. lia.
    + rewrite feed_other by exact Hne. lia.
Qed.

(** C5.  Feeding focus-out and then focus-in writes each of the mouse, focus
    and bracketed-paste enable sequences to the output sink exactly once;
    the focus-out writes nothing and only emits [blur]; the writes of a
    focus-in come before the [focus] event it emits; and for any inputs each
    enable sequence is written once per focus-in among them. *)
Theorem focus_in_restores_modes :
  feedAll [focusOut; focusIn] [] =
    [Emit BlurEvent] ++ map SinkWrite enableSequences ++ [Emit FocusEvent] /\
  (forall sequence, sequence ∈ enableSequences ->
     writes sequence (feedAll [focusOut; focusIn] []) = 1%nat) /\
  (forall trace, feed focusOut trace = trace ++ [Emit BlurEvent]) /\
  (forall trace,
     feed focusIn trace = trace ++ map SinkWrite enableSequences ++ [Emit FocusEvent]) /\
  (forall sequence inputs trace, sequence ∈ enableSequences ->
     writes sequence (feedAll inputs trace) =
     (writes sequence trace + focusIns inputs)%nat).
Proof.
  split; [vm_compute; reflexivity |].
  split.
  { intros sequence Hin. rewrite feedAll_writes by exact Hin. vm_compute. reflexivity. }
  split.
  { intros trace. unfold feed.
    rewrite bool_decide_eq_false_2 by (vm_compute; discriminate).
    rewrite bool_decide_eq_true_2 by reflexivity. reflexivity. }
  split; [exact feed_focusIn |].
  intros sequence inputs trace Hin. apply feedAll_writes. exact Hin.
Qed.

(** The test "rapid focus toggle": ten times focus-out and focus-in. *)
Example rapid_focus_toggle :
  writes (ESC :: lit "[?1004h")
    (feedAll (concat (replicate 10 [focusOut; focusIn])) []) = 10%nat.
Proof. vm_compute. reflexivity. Qed.

End FocusSpec.

(** ** The mouse parser: accepted input, composition, invariants *)

Module MouseMore.
Import Js Mouse MouseSpec.
Local Open Scope Z_scope.

(** The text after [ESC [ <] that the loop of [parseSgrSequence] accepts when
    [k] separators are still to come: a numeral (possibly empty if a digit
    has been seen), then a separator and the rest, or the final byte. *)
Fixpoint sgrShape (k : nat) (hasDigit : bool) (rest : JsString) : Prop :=
  exists ds, Forall isDigit ds /\ (hasDigit = true \/ ds <> []) /\
    match k with
    | O => exists pr post, rest = ds ++ finalByte pr :: post
    | S k' => exists rest', rest = ds ++ 59 :: rest' /\ sgrShape k' false rest'
    end.

(** The buttons that can be held. *)
Definition heldButtons : gset Z := {[ 0; 1; 2 ]}.

(** The buttons an event can name. *)
Definition eventButton (ev : RawMouseEvent) : Prop :=
  button ev = -1 \/ button ev = 0 \/ button ev = 1 \/ button ev = 2.

(** An SGR sequence on the wire: its three numerals and its final byte. *)
Record SgrWire : Type := {
  wireButton : list Z;
  wireX : list Z;
  wireY : list Z;
  wireFinal : PressRelease
}.

Definition wire (w : SgrWire) : JsString :=
  sgrSequence (wireButton w) (wireX w) (wireY w) (wireFinal w).

(** The numerals are decimal and below [2^53], where the arithmetic of the
    code is exact. *)
Definition wellFormed (w : SgrWire) : Prop :=
  (isNumeral (wireButton w) /\ isNumeral (wireX w) /\ isNumeral (wireY w)) /\
  numeral (wireButton w) < MAX_SAFE /\ numeral (wireX w) < MAX_SAFE /\
  numeral (wireY w) < MAX_SAFE.

(** Decoding the sequences one after the other, each with the buttons its
    predecessors left pressed. *)
Fixpoint decodeAll (ws : list SgrWire) (pressed : Pressed)
    : list RawMouseEvent * Pressed :=
  match ws with
  | [] => ([], pressed)
  | w :: ws' =>
      let r := decodeSgrEvent (numeral (wireButton w)) (numeral (wireX w))
                 (numeral (wireY w)) (wireFinal w) pressed in
      let rest := decodeAll ws' r.2 in
      (r.1 :: rest.1, rest.2)
  end.

Lemma sgrLoop_shape rest : forall index offset values part hasDigit pressed r,
  (part <= 2)%nat ->
  sgrLoop rest index offset values part hasDigit pressed = Some r ->
  sgrShape (2 - part) hasDigit rest.
Proof.
  induction rest as [| c rest IH];
    intros index offset values part hasDigit pressed r Hpart Hloop;
    cbn [sgrLoop] in Hloop; [discriminate |].
  destruct ((48 <=? c) && (c <=? 57)) eqn:Hdigit.
  { apply andb_prop in Hdigit as [H1 H2]. apply Z.leb_le in H1, H2.
    apply IH in Hloop; [| exact Hpart].
    destruct (2 - part)%nat as [| k] eqn:Hk; cbn [sgrShape] in *;
      destruct Hloop as (ds & Hds & _ & Hrest).
    - destruct Hrest as (pr & post & ->).
      exists (c :: ds). split; [constructor; [split; assumption | exact Hds] |].
      split; [right; discriminate |]. exists pr, post. reflexivity.
    - destruct Hrest as (rest' & -> & Hshape).
      exists (c :: ds). split; [constructor; [split; assumption | exact Hds] |].
      split; [right; discriminate |]. exists rest'. split; [reflexivity | exact Hshape]. }
  destruct (Z.eqb_spec c 59) as [-> | Hne59].
  { destruct hasDigit; cbn [negb orb] in Hloop; [| discriminate].
    destruct (2 <=? part)%nat eqn:Hge; [discriminate |].
    apply Nat.leb_gt in Hge.
    apply IH in Hloop; [| lia].
    replace (2 - part)%nat with (S (2 - S part)) by lia. cbn [sgrShape].
    exists []. split; [constructor |]. split; [left; reflexivity |].
    exists rest. split; [reflexivity | exact Hloop]. }
  destruct ((c =? 77) || (c =? 109)) eqn:Hfinal; [| discriminate].
  destruct hasDigit; cbn [negb orb] in Hloop; [| discriminate].
  destruct (Nat.eqb_spec part 2) as [-> | Hne2]; cbn [negb] in Hloop; [| discriminate].
  cbn [Nat.sub sgrShape].
  exists []. split; [constructor |]. split; [left; reflexivity |].
  apply orb_prop in Hfinal as [H | H]; apply Z.eqb_eq in H; subst c.
  - exists UpperM, rest. reflexivity.
  - exists LowerM, rest. reflexivity.
Qed.

Lemma sgrShape_sequence rest :
  sgrShape 2 false rest ->
  exists db dx dy pr post,
    isNumeral db /\ isNumeral dx /\ isNumeral dy /\
    [27; 91; 60] ++ rest = sgrSequence db dx dy pr ++ post.
Proof.
  cbn [sgrShape].
  intros (db & Hdb & [Hf | Hneb] & rest1 & -> & dx & Hdx & [Hf1 | Hnex] & rest2 & -> &
          dy & Hdy & [Hf2 | Hney] & pr & post & ->); try discriminate.
  exists db, dx, dy, pr, post.
  repeat (split; [split; assumption |]).
  unfold sgrSequence. rewrite <- !app_assoc. reflexivity.
Qed.

Lemma isPrefixOf_esc_bracket (s : JsString) :
  isPrefixOf [27; 91] s = true -> exists tl, s = 27 :: 91 :: tl.
Proof.
  destruct s as [| a [| b tl]]; cbn [isPrefixOf]; try discriminate.
  - rewrite andb_false_r. discriminate.
  - intros H. apply andb_prop in H as [Ha H]. apply andb_prop in H as [Hb _].
    apply Z.eqb_eq in Ha, Hb. subst. exists tl. reflexivity.
Qed.

Lemma split_at_offset (str : JsString) (offset : nat) :
  (offset <= length str)%nat ->
  str = take offset str ++ drop offset str /\ length (take offset str) = offset.
Proof.
  intros Hle. split; [symmetry; apply take_drop |].
  rewrite length_take. lia.
Qed.

(** The shape of an accepted sequence, read off the parser, with the
    numerals taken exactly. *)
Lemma parseMouseSequenceAt_inv (str : JsString) (offset : nat)
    (pressed : Pressed) (parsed : ParsedMouseSequence) (pressed' : Pressed) :
  parseMouseSequenceAt str offset pressed = Some (parsed, pressed') ->
  (exists db dx dy pr post,
     isNumeral db /\ isNumeral dx /\ isNumeral dy /\
     drop offset str = sgrSequence db dx dy pr ++ post /\
     parsed = {| event := (decodeSgrEvent (numeral db) (numeral dx) (numeral dy)
                             pr pressed).1;
                 consumed := length (sgrSequence db dx dy pr) |} /\
     pressed' = (decodeSgrEvent (numeral db) (numeral dx) (numeral dy) pr pressed).2) \/
  (exists B X Y post,
     drop offset str = x10Sequence B X Y ++ post /\
     parsed = {| event := decodeBasicEvent (B - 32) (X - 33) (Y - 33);
                 consumed := 6 |} /\
     pressed' = pressed).
Proof.
  intros Hparse. pose proof Hparse as Hcopy.
  unfold parseMouseSequenceAt in Hparse.
  destruct (startsWith str [27; 91] offset) eqn:Hstart; [| discriminate].
  cbn [negb] in Hparse. unfold startsWith in Hstart.
  apply isPrefixOf_esc_bracket in Hstart as [tl Htl].
  destruct (charCodeAt str (offset + 2)) as [c |] eqn:Hc; [| discriminate].
  unfold charCodeAt in Hc.
  assert (offset <= length str)%nat as Hoff.
  { apply lookup_lt_Some in Hc. lia. }
  destruct (split_at_offset str offset Hoff) as [Hsplit Hlen].
  assert (tl !! 0%nat = Some c) as Hhead.
  { rewrite <- Hc, <- (lookup_drop str offset 2), Htl. reflexivity. }
  destruct tl as [| c' tl]; [discriminate |].
  cbn in Hhead. injection Hhead as ->.
  destruct (Z.eq_dec c 60) as [-> | Hne60].
  - left. unfold parseSgrSequence in Hparse.
    replace (drop (offset + 3) str) with tl in Hparse.
    2:{ rewrite <- (drop_drop str 3 offset), Htl. reflexivity. }
    destruct (sgrShape_sequence tl) as (db & dx & dy & pr & post & Hb & Hx & Hy & Heq).
    { apply (sgrLoop_shape tl _ _ _ 0%nat false _ _ ltac:(lia) Hparse). }
    exists db, dx, dy, pr, post.
    repeat (split; [assumption |]).
    split; [rewrite Htl; exact Heq |].
    rewrite Hsplit, Htl in Hcopy. cbn [app] in Heq. rewrite Heq in Hcopy.
    rewrite <- Hlen in Hcopy at 2.
    rewrite parseMouseSequenceAt_sgr in Hcopy by assumption.
    injection Hcopy as <- <-. split; reflexivity.
  - destruct (Z.eq_dec c 77) as [-> | Hne77].
    + right.
      destruct (parseBasicSequence str offset) as [parsed0 |] eqn:Hbasic;
        [| discriminate].
      unfold parseBasicSequence, charCodeAt in Hbasic.
      destruct (length str <? offset + 6)%nat; [discriminate |].
      rewrite <- !(lookup_drop str offset), Htl in Hbasic. cbn in Hbasic.
      destruct tl as [| B [| X [| Y post]]]; try discriminate.
      exists B, X, Y, post. split; [rewrite Htl; reflexivity |].
      injection Hbasic as <-. injection Hparse as <- <-. split; reflexivity.
    + exfalso.
      destruct c as [| q | q]; try discriminate.
      repeat (destruct q as [q | q |]; try discriminate; try congruence).
Qed.

(** X1.  Whatever [parseMouseSequenceAt] accepts is a well-formed SGR sequence or
    an X10 sequence starting at the offset; the code units it consumes are
    those of the sequence, at least one and all within the string.  The
    event of an X10 sequence is the decoding of its three bytes; the event
    of an SGR sequence, and the buttons pressed after it, are the decoding
    of its three numerals when these are below [2^53], where the arithmetic
    of the code is exact. *)
Theorem parseMouseSequenceAt_sound (str : JsString) (offset : nat)
    (pressed : Pressed) (parsed : ParsedMouseSequence) (pressed' : Pressed) :
  parseMouseSequenceAt str offset pressed = Some (parsed, pressed') ->
  ((exists db dx dy pr post,
      isNumeral db /\ isNumeral dx /\ isNumeral dy /\
      drop offset str = sgrSequence db dx dy pr ++ post /\
      consumed parsed = length (sgrSequence db dx dy pr) /\
      (numeral db < MAX_SAFE -> numeral dx < MAX_SAFE -> numeral dy < MAX_SAFE ->
       event parsed =
         (decodeSgrEvent (numeral db) (numeral dx) (numeral dy) pr pressed).1 /\
       pressed' =
         (decodeSgrEvent (numeral db) (numeral dx) (numeral dy) pr pressed).2)) \/
   (exists B X Y post,
      drop offset str = x10Sequence B X Y ++ post /\
      parsed = {| event := decodeBasicEvent (B - 32) (X - 33) (Y - 33);
                  consumed := 6 |} /\
      pressed' = pressed)) /\
  (0 < consumed parsed)%nat /\
  (offset + consumed parsed <= length str)%nat.
Proof.
  intros Hparse.
  pose proof (parseMouseSequenceAt_inv str offset pressed parsed pressed' Hparse) as Hinv.
  assert (forall sequence post : JsString,
            drop offset str = sequence ++ post ->
            (offset + length sequence <= length str)%nat) as Hfit.
  { intros sequence post Hdrop.
    pose proof (f_equal length Hdrop) as Hlen.
    rewrite length_drop, length_app in Hlen.
    destruct (decide (offset <= length str)%nat) as [Hle | Hgt]; [lia |].
    rewrite drop_ge in Hdrop by lia.
    unfold parseMouseSequenceAt, startsWith in Hparse.
    rewrite drop_ge in Hparse by lia. discriminate. }
  destruct Hinv as [(db & dx & dy & pr & post & Hb & Hx & Hy & Hdrop & -> & ->) |
                    (B & X & Y & post & Hdrop & -> & ->)]; cbn [consumed].
  - split; [| split].
    + left. exists db, dx, dy, pr, post. cbn [consumed event]. auto 10.
    + unfold sgrSequence. rewrite length_app. cbn [length]. lia.
    + exact (Hfit _ _ Hdrop).
  - split; [| split].
    + right. exists B, X, Y, post. auto.
    + lia.
    + exact (Hfit (x10Sequence B X Y) post Hdrop).
Qed.

Lemma parseMouseSequenceAt_sound_witness :
  exists db dx dy pr post,
    (isNumeral db /\ isNumeral dx /\ isNumeral dy) /\
    drop 1 (lit "x" ++ 27 :: lit "[<0;10;5M") = sgrSequence db dx dy pr ++ post /\
    10%nat = length (sgrSequence db dx dy pr).
Proof.
  destruct (parseMouseSequenceAt_sound (lit "x" ++ 27 :: lit "[<0;10;5M") 1 ∅
              {| event := plainEvent Down 0 9 4; consumed := 10 |} {[ 0 ]})
    as [[(db & dx & dy & pr & post & Hb & Hx & Hy & Hdrop & Hlen & _) |
         (B & X & Y & post & Hdrop & _)] _].
  - vm_compute. reflexivity.
  - exists db, dx, dy, pr, post. auto.
  - vm_compute in Hdrop. discriminate Hdrop.
Defined.

(** *** Truncated sequences *)

Lemma sgrLoop_needs_final rest : forall index offset values part hasDigit pressed r,
  sgrLoop rest index offset values part hasDigit pressed = Some r ->
  exists c, c ∈ rest /\ (c = 77 \/ c = 109).
Proof.
  induction rest as [| c rest IH];
    intros index offset values part hasDigit pressed r Hloop;
    cbn [sgrLoop] in Hloop; [discriminate |].
  destruct ((48 <=? c) && (c <=? 57)).
  { apply IH in Hloop as (d & Hin & Hd). exists d. split; [right; exact Hin | exact Hd]. }
  destruct (c =? 59).
  { destruct (negb hasDigit || (2 <=? part)%nat); [discriminate |].
    apply IH in Hloop as (d & Hin & Hd). exists d. split; [right; exact Hin | exact Hd]. }
  destruct ((c =? 77) || (c =? 109)) eqn:Hfinal; [| discriminate].
  exists c. split; [left |].
  apply orb_prop in Hfinal as [H | H]; apply Z.eqb_eq in H; auto.
Qed.

Lemma sgr_body_no_final db dx dy c :
  Forall isDigit db -> Forall isDigit dx -> Forall isDigit dy ->
  c ∈ db ++ [59] ++ dx ++ [59] ++ dy -> c <> 77 /\ c <> 109.
Proof.
  intros Hb Hx Hy Hin.
  assert (forall ds, Forall isDigit ds -> c ∈ ds -> c <> 77 /\ c <> 109) as Hd.
  { intros ds Hds Hc. rewrite Forall_forall in Hds. apply Hds in Hc.
    unfold isDigit in Hc. lia. }
  repeat (apply elem_of_app in Hin as [Hin | Hin]; [eauto |]);
    try (apply list_elem_of_singleton in Hin; lia).
  eauto.
Qed.

(** X2.  A sequence cut short gives no event: every proper prefix of an SGR
    sequence, and every X10 sequence with fewer than six code units, is
    rejected, and [parseAllMouseEvents] returns no event for it, with the
    pressed buttons as they were. *)
Theorem truncated_sequence_rejected (db dx dy : list Z) (pr : PressRelease)
    (B X Y : Z) (k : nat) (pressed : Pressed) :
  isNumeral db -> isNumeral dx -> isNumeral dy ->
  (k < length (sgrSequence db dx dy pr))%nat ->
  let cut := take k (sgrSequence db dx dy pr) in
  parseMouseSequenceAt cut 0 pressed = None /\
  parseLoop (S (length cut)) cut 0 [] pressed = Some ([], 0%nat, pressed) /\
  ((k < 6)%nat -> parseMouseSequenceAt (take k (x10Sequence B X Y)) 0 pressed = None).
Proof.
  intros [_ Hb] [_ Hx] [_ Hy] Hk cut.
  assert (parseMouseSequenceAt cut 0 pressed = None) as Hnone.
  { destruct (parseMouseSequenceAt cut 0 pressed) as [[parsed q] |] eqn:Hparse;
      [exfalso | reflexivity].
    unfold parseMouseSequenceAt in Hparse.
    destruct (negb (startsWith cut [27; 91] 0)); [discriminate |].
    destruct (charCodeAt cut (0 + 2)) as [c |] eqn:Hc; [| discriminate].
    unfold charCodeAt in Hc. subst cut.
    assert (2 < k)%nat as Hk2.
    { apply lookup_lt_Some in Hc. rewrite length_take in Hc. lia. }
    rewrite lookup_take_lt in Hc by lia.
    unfold sgrSequence in Hc. cbn in Hc. injection Hc as <-.
    unfold parseSgrSequence in Hparse.
    apply sgrLoop_needs_final in Hparse as (c & Hin & Hc).
    rewrite length_sgrSequence in Hk.
    unfold sgrSequence in Hin.
    cbn [Nat.add] in Hin.
    replace k with (3 + (k - 3))%nat in Hin by lia.
    rewrite <- take_drop_commute in Hin.
    replace (drop 3 ([27; 91; 60] ++ db ++ [59] ++ dx ++ [59] ++ dy ++ [finalByte pr]))
      with ((db ++ [59] ++ dx ++ [59] ++ dy) ++ [finalByte pr]) in Hin
      by (cbn [app drop]; rewrite drop_0;
          repeat (rewrite <- app_assoc; cbn [app]); reflexivity).
    rewrite take_app_le in Hin by (rewrite !length_app; cbn [length]; lia).
    apply elem_of_take in Hin as (i & Hi & _).
    apply list_elem_of_lookup_2 in Hi.
    pose proof (sgr_body_no_final db dx dy c Hb Hx Hy Hi). lia. }
  split; [exact Hnone |]. split; [apply parseLoop_exit; exact Hnone |].
  intros Hk6. clear Hk cut Hnone.
  do 6 (destruct k as [| k]; [reflexivity |]). lia.
Qed.

Lemma truncated_sequence_rejected_witness :
  let cut := take 7 (sgrSequence [48] [49; 48] [53] UpperM) in
  parseMouseSequenceAt cut 0 ∅ = None /\
  parseLoop (S (length cut)) cut 0 [] ∅ = Some ([], 0%nat, ∅) /\
  ((7 < 6)%nat -> parseMouseSequenceAt (take 7 (x10Sequence 35 33 33)) 0 ∅ = None).
Proof.
  apply (truncated_sequence_rejected [48] [49; 48] [53] UpperM 35 33 33 7 ∅).
  - split; [discriminate | repeat constructor; unfold isDigit; lia].
  - split; [discriminate | repeat constructor; unfold isDigit; lia].
  - split; [discriminate | repeat constructor; unfold isDigit; lia].
  - vm_compute. lia.
Defined.

(** *** Parsing is local *)

Lemma sgrLoop_app rest : forall t index offset values part hasDigit pressed r,
  sgrLoop rest index offset values part hasDigit pressed = Some r ->
  sgrLoop (rest ++ t) index offset values part hasDigit pressed = Some r.
Proof.
  induction rest as [| c rest IH];
    intros t index offset values part hasDigit pressed r Hloop;
    cbn [sgrLoop app] in *; [discriminate |].
  destruct ((48 <=? c) && (c <=? 57)); [apply IH; exact Hloop |].
  destruct (c =? 59).
  { destruct (negb hasDigit || (2 <=? part)%nat); [discriminate |].
    apply IH; exact Hloop. }
  exact Hloop.
Qed.

(** A sequence parsed in [s] is parsed the same way when more input follows. *)
Lemma parseMouseSequenceAt_app (s t : JsString) (offset : nat) (pressed : Pressed) r :
  parseMouseSequenceAt s offset pressed = Some r ->
  parseMouseSequenceAt (s ++ t) offset pressed = Some r.
Proof.
  intros Hparse.
  destruct r as [parsed pressed'].
  destruct (parseMouseSequenceAt_inv s offset pressed parsed pressed' Hparse)
    as [(db & dx & dy & pr & post & Hb & Hx & Hy & Hdrop & -> & ->) |
        (B & X & Y & post & Hdrop & -> & ->)].
  - assert (offset <= length s)%nat as Hoff.
    { destruct (Nat.le_gt_cases offset (length s)) as [H | H]; [exact H |].
      rewrite drop_ge in Hdrop by lia. discriminate. }
    destruct (split_at_offset s offset Hoff) as [Hsplit Hlen].
    rewrite Hsplit, Hdrop, <- !app_assoc. rewrite <- Hlen at 2.
    apply parseMouseSequenceAt_sgr; assumption.
  - assert (offset <= length s)%nat as Hoff.
    { destruct (Nat.le_gt_cases offset (length s)) as [H | H]; [exact H |].
      rewrite drop_ge in Hdrop by lia. discriminate. }
    destruct (split_at_offset s offset Hoff) as [Hsplit Hlen].
    rewrite Hsplit, Hdrop, <- !app_assoc. rewrite <- Hlen at 2.
    apply parseMouseSequenceAt_x10.
Qed.

(** What precedes the offset is not looked at. *)
Lemma parseMouseSequenceAt_shift (pre s : JsString) (offset : nat) (pressed : Pressed) :
  parseMouseSequenceAt (pre ++ s) (length pre + offset) pressed =
  parseMouseSequenceAt s offset pressed.
Proof.
  unfold parseMouseSequenceAt, startsWith, charCodeAt, parseSgrSequence,
    parseBasicSequence, charCodeAt.
  rewrite <- !Nat.add_assoc, !lookup_after, !drop_app_add, length_app.
  replace (length pre + length s <? length pre + (offset + 6))%nat
    with (length s <? offset + 6)%nat.
  2:{ destruct (Nat.ltb_spec (length s) (offset + 6));
      destruct (Nat.ltb_spec (length pre + length s) (length pre + (offset + 6)));
      try reflexivity; lia. }
  destruct (negb (isPrefixOf [27; 91] (drop offset s))); [reflexivity |].
  destruct (s !! (offset + 2)%nat) as [c |]; [| reflexivity].
  assert (forall rest values part hasDigit index,
            sgrLoop rest (length pre + index) (length pre + offset) values part
              hasDigit pressed =
            sgrLoop rest index offset values part hasDigit pressed) as Hloop.
  { induction rest as [| d rest IH]; intros values part hasDigit index;
      cbn [sgrLoop]; [reflexivity |].
    rewrite <- !(IH _ _ _ (S index)).
    replace (S (length pre + index)) with (length pre + S index)%nat by lia.
    replace (length pre + index - (length pre + offset) + 1)%nat
      with (index - offset + 1)%nat by lia.
    reflexivity. }
  rewrite Hloop. reflexivity.
Qed.

Lemma parseLoop_shift (pre s : JsString) fuel : forall offset events pressed,
  parseLoop fuel (pre ++ s) (length pre + offset) events pressed =
  match parseLoop fuel s offset events pressed with
  | Some (events', off, pressed') => Some (events', (length pre + off)%nat, pressed')
  | None => None
  end.
Proof.
  induction fuel as [| fuel IH]; intros offset events pressed; cbn [parseLoop];
    [reflexivity |].
  rewrite length_app, parseMouseSequenceAt_shift.
  replace (length pre + offset <? length pre + length s)%nat
    with (offset <? length s)%nat.
  2:{ destruct (Nat.ltb_spec offset (length s));
      destruct (Nat.ltb_spec (length pre + offset) (length pre + length s));
      try reflexivity; lia. }
  destruct (offset <? length s)%nat; [| reflexivity].
  destruct (parseMouseSequenceAt s offset pressed) as [[parsed pressed'] |];
    [| reflexivity].
  rewrite <- Nat.add_assoc. apply IH.
Qed.

Lemma parseLoop_events fuel (str : JsString) : forall offset events pressed,
  parseLoop fuel str offset events pressed =
  match parseLoop fuel str offset [] pressed with
  | Some (events', off, pressed') => Some (events ++ events', off, pressed')
  | None => None
  end.
Proof.
  induction fuel as [| fuel IH]; intros offset events pressed; cbn [parseLoop];
    [reflexivity |].
  destruct (offset <? length str)%nat; [| rewrite app_nil_r; reflexivity].
  destruct (parseMouseSequenceAt str offset pressed) as [[parsed pressed'] |];
    [| rewrite app_nil_r; reflexivity].
  rewrite IH. rewrite (IH _ ([] ++ [event parsed])).
  destruct (parseLoop fuel str (offset + consumed parsed) [] pressed')
    as [[[events' off] pressed''] |]; [| reflexivity].
  rewrite <- app_assoc. reflexivity.
Qed.

(** More fuel than needed changes nothing. *)
Lemma parseLoop_more_fuel fuel (str : JsString) : forall offset events pressed r extra,
  parseLoop fuel str offset events pressed = Some r ->
  parseLoop (fuel + extra) str offset events pressed = Some r.
Proof.
  induction fuel as [| fuel IH]; intros offset events pressed r extra Hloop;
    cbn [parseLoop Nat.add] in *; [discriminate |].
  destruct (offset <? length str)%nat; [| exact Hloop].
  destruct (parseMouseSequenceAt str offset pressed) as [[parsed pressed'] |];
    [| exact Hloop].
  apply IH. exact Hloop.
Qed.

(** Parsing [s1] to its end and then going on: the loop on [s1 ++ s2]. *)
Lemma parseLoop_app fuel (s1 s2 : JsString) :
  forall offset events pressed events1 pressed1 fuel2,
  parseLoop fuel s1 offset events pressed = Some (events1, length s1, pressed1) ->
  (offset <= length s1)%nat -> (length s2 <= fuel2)%nat ->
  parseLoop (fuel + fuel2) (s1 ++ s2) offset events pressed =
  parseLoop (S fuel2) (s1 ++ s2) (length s1) events1 pressed1.
Proof.
  induction fuel as [| fuel IH];
    intros offset events pressed events1 pressed1 fuel2 Hloop Hoff Hfuel2;
    [discriminate |].
  destruct (Nat.ltb_spec offset (length s1)) as [Hlt | Hge].
  - cbn [parseLoop Nat.add] in Hloop |- *.
    apply Nat.ltb_lt in Hlt as Hlt'. rewrite Hlt' in Hloop.
    assert ((offset <? length (s1 ++ s2))%nat = true) as ->.
    { apply Nat.ltb_lt. rewrite length_app. lia. }
    destruct (parseMouseSequenceAt s1 offset pressed) as [[parsed pressed'] |] eqn:Hparse.
    + rewrite (parseMouseSequenceAt_app _ s2 _ _ _ Hparse).
      apply parseMouseSequenceAt_consumed in Hparse as (_ & Hlen & _).
      apply IH; [exact Hloop | lia | exact Hfuel2].
    + injection Hloop as _ Hoff' _. lia.
  - rewrite parseLoop_end in Hloop by exact Hge.
    injection Hloop as <- Hoff' <-. rewrite Hoff'.
    destruct (parseLoop_total (S fuel2) (s1 ++ s2) (length s1) events pressed)
      as (events' & off & pressed' & Hr & _); [rewrite length_app; lia |
                                               rewrite length_app; lia |].
    rewrite Hr. replace (S fuel + fuel2)%nat with (S fuel2 + fuel)%nat by lia.
    apply parseLoop_more_fuel. exact Hr.
Qed.

(** X3.  A buffer that ends where a first part has been parsed to its end gives
    the events of the first part followed by those of the rest, parsed with
    the buttons the first part left pressed: sequences may be delivered in
    one buffer or in several. *)
Theorem parseAllMouseEvents_concat (decodeInput : Buffer -> JsString)
    (data1 data2 : Buffer) (pressed : Pressed)
    (events1 : list RawMouseEvent) (pressed1 : Pressed) :
  decodeInput (data1 ++ data2) = decodeInput data1 ++ decodeInput data2 ->
  parseAllMouseEventsFrom decodeInput data1 pressed =
    Some (events1, length (decodeInput data1), pressed1) ->
  parseAllMouseEvents decodeInput (data1 ++ data2) pressed =
  match parseAllMouseEvents decodeInput data2 pressed1 with
  | Some (events2, pressed2) => Some (events1 ++ events2, pressed2)
  | None => None
  end.
Proof.
  intros Hsplit Hfirst.
  unfold parseAllMouseEvents, parseAllMouseEventsFrom in *. rewrite Hsplit.
  set (s1 := decodeInput data1) in *. set (s2 := decodeInput data2).
  rewrite length_app.
  replace (S (length s1 + length s2)) with (S (length s1) + length s2)%nat by lia.
  rewrite (parseLoop_app _ s1 s2 _ _ _ _ _ (length s2) Hfirst) by lia.
  rewrite <- (Nat.add_0_r (length s1)) at 1.
  rewrite parseLoop_shift, parseLoop_events.
  destruct (parseLoop (S (length s2)) s2 0 [] pressed1) as [[[events2 off] pressed2] |];
    reflexivity.
Qed.

Lemma parseAllMouseEvents_concat_witness :
  parseAllMouseEvents decodeAscii
    ((27 :: lit "[<0;10;5M") ++ (27 :: lit "[<32;12;5M" ++ lit "abc")) ∅ =
  match parseAllMouseEvents decodeAscii (27 :: lit "[<32;12;5M" ++ lit "abc") {[ 0 ]} with
  | Some (events2, pressed2) => Some ([plainEvent Down 0 9 4] ++ events2, pressed2)
  | None => None
  end.
Proof.
  apply (parseAllMouseEvents_concat decodeAscii (27 :: lit "[<0;10;5M")
           (27 :: lit "[<32;12;5M" ++ lit "abc") ∅ [plainEvent Down 0 9 4] {[ 0 ]}).
  - reflexivity.
  - vm_compute. reflexivity.
Defined.

(** X4.  [parseMouseEvent] gives the first event of [parseAllMouseEvents], or
    [null] when there is none. *)
Theorem parseMouseEvent_is_first (decodeInput : Buffer -> JsString)
    (data : Buffer) (pressed : Pressed) :
  exists events pressed',
    parseAllMouseEvents decodeInput data pressed = Some (events, pressed') /\
    (parseMouseEvent decodeInput data pressed).1 = head events.
Proof.
  unfold parseAllMouseEvents, parseAllMouseEventsFrom, parseMouseEvent.
  set (str := decodeInput data).
  destruct (parseMouseSequenceAt str 0 pressed) as [[parsed pressed1] |] eqn:Hparse.
  - rewrite (parseLoop_step _ _ _ _ _ _ _ Hparse).
    apply parseMouseSequenceAt_consumed in Hparse as (H1 & Hlen & _).
    destruct (parseLoop_total (length str) str (0 + consumed parsed)
                ([] ++ [event parsed]) pressed1)
      as (events' & off & pressed' & Hloop & _); [lia | lia |].
    rewrite Hloop. eexists _, _. split; reflexivity.
  - rewrite (parseLoop_exit _ _ _ _ _ Hparse). eexists _, _. split; reflexivity.
Qed.

(** *** What the pressed buttons can be *)

Lemma land_3_cases a :
  Z.land a 3 = 0 \/ Z.land a 3 = 1 \/ Z.land a 3 = 2 \/ Z.land a 3 = 3.
Proof. pose proof (land_3_range a). lia. Qed.

Lemma parseMouseSequenceAt_held (str : JsString) (offset : nat) (pressed : Pressed)
    parsed pressed' :
  parseMouseSequenceAt str offset pressed = Some (parsed, pressed') ->
  pressed ⊆ heldButtons ->
  pressed' ⊆ heldButtons /\ eventButton (event parsed).
Proof.
  intros Hparse Hsub.
  destruct (parseMouseSequenceAt_inv _ _ _ _ _ Hparse)
    as [(db & dx & dy & pr & post & _ & _ & _ & _ & -> & ->) |
        (B & X & Y & post & _ & -> & ->)]; cbn [event].
  - rewrite decodeSgrEvent_pressed.
    destruct (decodeSgrEvent_fields (numeral db) (numeral dx) (numeral dy) pr pressed)
      as (_ & _ & Hbtn & _).
    unfold eventButton. rewrite Hbtn. unfold sgrPressed, heldButtons in *.
    destruct (land_3_cases (numeral db)) as [H | [H | [H | H]]]; rewrite H;
      cbn [Z.eqb Pos.eqb]; clear H Hbtn;
      (split; [destruct (Z.testbit (numeral db) 6 && isUpperM pr),
                 (Z.testbit (numeral db) 5), (isUpperM pr);
               first [ exact Hsub | apply empty_subseteq
                     | apply union_least;
                       [apply singleton_subseteq_l; set_solver | exact Hsub] ]
              | lia]).
  - split; [exact Hsub |].
    destruct (decodeBasicEvent_fields (B - 32) (X - 33) (Y - 33))
      as (_ & _ & _ & Hbtn & _).
    unfold eventButton. rewrite Hbtn. unfold x10Button.
    destruct (land_3_cases (B - 32)) as [H | [H | [H | H]]]; rewrite H;
      cbn [Z.eqb Pos.eqb]; destruct (Z.testbit (B - 32) 6), (Z.testbit (B - 32) 5); lia.
Qed.

Lemma parseLoop_held fuel (str : JsString) : forall offset events pressed events' off pressed',
  parseLoop fuel str offset events pressed = Some (events', off, pressed') ->
  pressed ⊆ heldButtons -> Forall eventButton events ->
  pressed' ⊆ heldButtons /\ Forall eventButton events'.
Proof.
  induction fuel as [| fuel IH];
    intros offset events pressed events' off pressed' Hloop Hsub Hall;
    cbn [parseLoop] in Hloop; [discriminate |].
  destruct (offset <? length str)%nat.
  2:{ injection Hloop as <- _ <-. auto. }
  destruct (parseMouseSequenceAt str offset pressed) as [[parsed pressed1] |] eqn:Hparse.
  2:{ injection Hloop as <- _ <-. auto. }
  destruct (parseMouseSequenceAt_held _ _ _ _ _ Hparse Hsub) as [Hsub1 Hbtn].
  apply IH in Hloop; [exact Hloop | exact Hsub1 |].
  apply Forall_app. split; [exact Hall | constructor; [exact Hbtn | constructor]].
Qed.

(** X5.  The pressed buttons are always among 0, 1 and 2, and no event names a
    button other than -1, 0, 1 or 2: button 3 is never held and never
    reported. *)
Theorem pressed_buttons_invariant (decodeInput : Buffer -> JsString)
    (data : Buffer) (pressed : Pressed)
    (events : list RawMouseEvent) (pressed' : Pressed) :
  pressed ⊆ heldButtons ->
  parseAllMouseEvents decodeInput data pressed = Some (events, pressed') ->
  pressed' ⊆ heldButtons /\ Forall eventButton events.
Proof.
  intros Hsub Hall. unfold parseAllMouseEvents, parseAllMouseEventsFrom in Hall.
  destruct (parseLoop _ _ _ _ _) as [[[events0 off] pressed0] |] eqn:Hloop;
    [| discriminate].
  injection Hall as <- <-.
  apply (parseLoop_held _ _ _ _ _ _ _ _ Hloop Hsub). constructor.
Qed.

Lemma pressed_buttons_invariant_witness :
  ({[ 1 ]} : gset Z) ⊆ heldButtons /\ Forall eventButton [plainEvent Drag 0 11 4].
Proof.
  apply (pressed_buttons_invariant decodeAscii (27 :: lit "[<32;12;5M") {[ 1 ]}
           [plainEvent Drag 0 11 4] {[ 1 ]}).
  - unfold heldButtons. set_solver.
  - vm_compute. reflexivity.
Defined.

(** X6.  Only a press or a release changes the pressed buttons: after a move, a
    drag or a scroll they are as before, and X10 sequences never change
    them. *)
Theorem pressed_changes_only_on_press_release (str : JsString) (offset : nat)
    (pressed : Pressed) (parsed : ParsedMouseSequence) (pressed' : Pressed) :
  parseMouseSequenceAt str offset pressed = Some (parsed, pressed') ->
  (pressed' <> pressed ->
   charCodeAt str (offset + 2) = Some 60 /\
   (type (event parsed) = Down \/ type (event parsed) = Up)) /\
  (type (event parsed) = Up -> charCodeAt str (offset + 2) = Some 60 -> pressed' = ∅).
Proof.
  intros Hparse.
  assert (forall l : JsString, drop offset str = 27 :: 91 :: l ->
            charCodeAt str (offset + 2) = l !! 0%nat) as Hintro.
  { intros l Hl. unfold charCodeAt. rewrite <- (lookup_drop str offset 2), Hl.
    reflexivity. }
  destruct (parseMouseSequenceAt_inv _ _ _ _ _ Hparse)
    as [(db & dx & dy & pr & post & _ & _ & _ & Hdrop & -> & ->) |
        (B & X & Y & post & Hdrop & -> & ->)]; cbn [event].
  - rewrite decodeSgrEvent_pressed, decodeSgrEvent_type.
    rewrite (Hintro (60 :: db ++ [59] ++ dx ++ [59] ++ dy ++ [finalByte pr] ++ post))
      by (rewrite Hdrop; unfold sgrSequence; rewrite <- !app_assoc; reflexivity).
    unfold sgrPressed, sgrType.
    destruct (Z.testbit (numeral db) 6), pr, (Z.testbit (numeral db) 5),
      (Z.land (numeral db) 3 =? 3), (bool_decide (pressed <> ∅));
      cbn; repeat split; intros; try congruence; auto.
  - rewrite (Hintro (77 :: B :: X :: Y :: post)) by (rewrite Hdrop; reflexivity).
    cbn. repeat split; intros; congruence.
Qed.

Lemma pressed_changes_only_on_press_release_witness :
  ((∅ : gset Z) <> {[ 0; 1 ]} ->
   charCodeAt (27 :: lit "[<1;12;5m") (0 + 2) = Some 60 /\
   (type (plainEvent Up 1 11 4) = Down \/ type (plainEvent Up 1 11 4) = Up)) /\
  (type (plainEvent Up 1 11 4) = Up ->
   charCodeAt (27 :: lit "[<1;12;5m") (0 + 2) = Some 60 -> (∅ : gset Z) = ∅).
Proof.
  apply (pressed_changes_only_on_press_release (27 :: lit "[<1;12;5m") 0 {[ 0; 1 ]}
           {| event := plainEvent Up 1 11 4; consumed := 10 |} ∅).
  vm_compute. reflexivity.
Defined.


Lemma parseLoop_stream (ws : list SgrWire) :
  forall (pre : JsString) (fuel : nat) (events : list RawMouseEvent) (pressed : Pressed),
  Forall wellFormed ws ->
  (length (concat (map wire ws)) < fuel)%nat ->
  parseLoop fuel (pre ++ concat (map wire ws)) (length pre) events pressed =
  Some (events ++ (decodeAll ws pressed).1,
        length (pre ++ concat (map wire ws)),
        (decodeAll ws pressed).2).
Proof.
  induction ws as [| w ws IH]; intros pre fuel events pressed Hall Hfuel.
  { cbn [map concat decodeAll fst snd]. rewrite !app_nil_r.
    destruct fuel as [| fuel]; [cbn in Hfuel; lia |].
    apply parseLoop_end. lia. }
  apply Forall_cons in Hall as [((Hb & Hx & Hy) & _) Hall].
  cbn [map concat] in Hfuel |- *. rewrite length_app in Hfuel.
  destruct fuel as [| fuel]; [lia |].
  pose proof (parseMouseSequenceAt_sgr pre (concat (map wire ws)) _ _ _ (wireFinal w)
                pressed Hb Hx Hy) as Hparse.
  fold (wire w) in Hparse.
  rewrite (parseLoop_step _ _ _ _ _ _ _ Hparse). cbn [consumed event].
  assert (0 < length (wire w))%nat as Hpos.
  { unfold wire. rewrite length_sgrSequence. lia. }
  rewrite <- length_app.
  rewrite (app_assoc pre (wire w)).
  rewrite IH by (first [exact Hall | lia]).
  cbn [decodeAll fst snd]. rewrite <- app_assoc. reflexivity.
Qed.

(** X25.  A buffer that holds any number of well-formed SGR sequences back to
    back gives exactly one event for each of them, in order, each decoded
    with the buttons its predecessors left pressed; nothing of the buffer is
    left over. *)
Theorem sgr_stream_events (decodeInput : Buffer -> JsString) (ws : list SgrWire)
    (pressed : Pressed) :
  asciiTransparent decodeInput ->
  Forall wellFormed ws ->
  let data := concat (map wire ws) in
  parseAllMouseEventsFrom decodeInput data pressed =
    Some ((decodeAll ws pressed).1, length data, (decodeAll ws pressed).2) /\
  parseAllMouseEvents decodeInput data pressed = Some (decodeAll ws pressed) /\
  length (decodeAll ws pressed).1 = length ws.
Proof.
  intros Hdec Hall data.
  assert (decodeInput data = data) as Hdata.
  { apply Hdec. unfold data. clear Hdec. induction Hall as [| w ws Hw Hall IH];
      cbn [map concat]; [constructor |].
    apply Forall_app. split; [| exact IH].
    destruct Hw as ((Hb & Hx & Hy) & _).
    apply sgrSequence_ascii; [apply Hb | apply Hx | apply Hy]. }
  assert (parseAllMouseEventsFrom decodeInput data pressed =
          Some ((decodeAll ws pressed).1, length data, (decodeAll ws pressed).2)) as Hfrom.
  { unfold parseAllMouseEventsFrom. rewrite Hdata.
    pose proof (parseLoop_stream ws [] (S (length data)) [] pressed Hall) as Hloop.
    cbn [app length] in Hloop. apply Hloop. unfold data. lia. }
  split; [exact Hfrom |]. split.
  - unfold parseAllMouseEvents. rewrite Hfrom. destruct (decodeAll ws pressed); reflexivity.
  - clear. revert pressed. induction ws as [| w ws IH]; intros pressed; [reflexivity |].
    cbn [decodeAll fst length]. rewrite IH. reflexivity.
Qed.

Lemma sgr_stream_events_witness :
  parseAllMouseEvents decodeAscii
    (concat (map wire
       [{| wireButton := lit "0"; wireX := lit "10"; wireY := lit "5";
           wireFinal := UpperM |};
        {| wireButton := lit "32"; wireX := lit "12"; wireY := lit "5";
           wireFinal := UpperM |};
        {| wireButton := lit "0"; wireX := lit "12"; wireY := lit "5";
           wireFinal := LowerM |}])) ∅ =
  Some ([plainEvent Down 0 9 4; plainEvent Drag 0 11 4; plainEvent Up 0 11 4], ∅).
Proof.
  destruct (sgr_stream_events decodeAscii
              [{| wireButton := lit "0"; wireX := lit "10"; wireY := lit "5";
                  wireFinal := UpperM |};
               {| wireButton := lit "32"; wireX := lit "12"; wireY := lit "5";
                  wireFinal := UpperM |};
               {| wireButton := lit "0"; wireX := lit "12"; wireY := lit "5";
                  wireFinal := LowerM |}] ∅) as (_ & H & _).
  - intros data _. reflexivity.
  - repeat constructor; vm_compute; try discriminate; try lia; try reflexivity.
  - rewrite H. vm_compute. reflexivity.
Defined.

End MouseMore.

(** ** The views of the diff renderable: what they hold *)

Module DiffViewSpec.
Import Js DiffView.
Local Open Scope Z_scope.

(** A line of a hunk that is shown on the left of the split view: context or
    removed. *)
Definition onLeft (line : JsString) : bool :=
  firstCharIs line SPACE || firstCharIs line MINUS.

(** A line of a hunk that is shown on the right: context or added. *)
Definition onRight (line : JsString) : bool :=
  firstCharIs line SPACE || firstCharIs line PLUS.


(** All the lines of the hunks, in order. *)
Definition allLines (hunks : list Hunk) : list JsString :=
  concat (map lines hunks).

(** The visual lines the first [n] logical lines take. *)
Definition visualRows (counts : gmap nat nat) (n : nat) : nat :=
  foldr (fun i acc => visualCount counts i + acc)%nat 0%nat (seq 0 n).




Section Views.

Context {RGBA : Type}.
Variable p : Palette RGBA.

Local Abbreviation LogicalLine := (DiffView.LogicalLine RGBA).

(** The lines that are not fillers. *)
Definition realLines (ls : list LogicalLine) : list LogicalLine :=
  filter (fun l => type RGBA l <> Empty) ls.

(** A filler has no number and is hidden; any other line has a number and is
    not hidden. *)
Definition numberedOrFiller (l : LogicalLine) : Prop :=
  (type RGBA l = Empty /\ lineNum RGBA l = None /\ hideLineNumber RGBA l = true /\
   sign RGBA l = None) \/
  (type RGBA l <> Empty /\ is_Some (lineNum RGBA l) /\ hideLineNumber RGBA l = false).







(** What the loops of the split view maintain: both sides have the same
    number of rows, every row is a numbered line or a filler, and the lines
    that are not fillers carry, in order, the text of the hunk lines of that
    side. *)
Definition paired (seen : list JsString) (lr : list LogicalLine * list LogicalLine)
    : Prop :=
  length lr.1 = length lr.2 /\
  Forall numberedOrFiller lr.1 /\ Forall numberedOrFiller lr.2 /\
  map (line_content RGBA) (realLines lr.1) =
    map (fun line => sliceFrom line 1) (filter onLeft seen) /\
  map (line_content RGBA) (realLines lr.2) =
    map (fun line => sliceFrom line 1) (filter onRight seen).

(** What the alignment loop maintains after [i] lines. *)
Record aligned (leftLogicalLines rightLogicalLines : list LogicalLine)
    (cl cr : gmap nat nat) (i : nat) (a : Aligned RGBA) : Prop := {
  al_left : (leftVisualPos RGBA a + i =
             visualRows cl i + length (finalLeftLines RGBA a))%nat;
  al_right : (rightVisualPos RGBA a + i =
              visualRows cr i + length (finalRightLines RGBA a))%nat;
  al_real_left : realLines (finalLeftLines RGBA a) = realLines (take i leftLogicalLines);
  al_real_right : realLines (finalRightLines RGBA a) = realLines (take i rightLogicalLines);
  al_sub_left : take i leftLogicalLines `sublist_of` finalLeftLines RGBA a;
  al_sub_right : take i rightLogicalLines `sublist_of` finalRightLines RGBA a;
  al_ok_left :
    Forall numberedOrFiller leftLogicalLines ->
    Forall numberedOrFiller (finalLeftLines RGBA a);
  al_ok_right :
    Forall numberedOrFiller rightLogicalLines ->
    Forall numberedOrFiller (finalRightLines RGBA a);
  al_same :
    (forall j, (j < i)%nat -> visualCount cl j = visualCount cr j) ->
    leftVisualPos RGBA a = rightVisualPos RGBA a /\
    finalLeftLines RGBA a = take i leftLogicalLines /\
    finalRightLines RGBA a = take i rightLogicalLines
}.

(** The colour configuration the callback records for a line. *)
Definition sideColour (changed : LineType) (changedConfig : LineColorConfig RGBA)
    (l : LogicalLine) : option (LineColorConfig RGBA) :=
  if bool_decide (type RGBA l = changed) then Some changedConfig
  else if bool_decide (type RGBA l = Context) then Some (contextConfig RGBA p)
  else None.

(** The maps hold, at an index, what the line at that index carries. *)
Definition indexes (m : SideMaps RGBA) (changed : LineType)
    (changedConfig : LineColorConfig RGBA) (from : nat) (ls : list LogicalLine)
    (m0 : SideMaps RGBA) : Prop :=
  forall i : nat,
    if (i <? from)%nat then
      side_lineNumbers RGBA m !! i = side_lineNumbers RGBA m0 !! i /\
      side_lineSigns RGBA m !! i = side_lineSigns RGBA m0 !! i /\
      side_lineColors RGBA m !! i = side_lineColors RGBA m0 !! i /\
      (i ∈ side_hideLineNumbers RGBA m <-> i ∈ side_hideLineNumbers RGBA m0)
    else
      side_lineNumbers RGBA m !! i = ls !! (i - from)%nat ≫= lineNum RGBA /\
      side_lineSigns RGBA m !! i = ls !! (i - from)%nat ≫= sign RGBA /\
      side_lineColors RGBA m !! i =
        ls !! (i - from)%nat ≫= sideColour changed changedConfig /\
      (i ∈ side_hideLineNumbers RGBA m <->
       exists l, ls !! (i - from)%nat = Some l /\ hideLineNumber RGBA l = true).

(** Nothing is recorded from [from] on. *)
Definition emptyFrom (m : SideMaps RGBA) (from : nat) : Prop :=
  forall i : nat, (from <= i)%nat ->
    side_lineNumbers RGBA m !! i = None /\ side_lineSigns RGBA m !! i = None /\
    side_lineColors RGBA m !! i = None /\ i ∉ side_hideLineNumbers RGBA m.

(** *** The unified view *)
















(** *** The split view *)

Lemma pairRows_spec (removes adds : list (JsString * Z))
    (l r : list LogicalLine) :
  pairRows RGBA p removes adds (l, r) =
  (l ++ map (fun cn => removeLine RGBA p cn.1 cn.2) removes
     ++ replicate (length adds - length removes) (emptyLine RGBA),
   r ++ map (fun cn => addLine RGBA p cn.1 cn.2) adds
     ++ replicate (length removes - length adds) (emptyLine RGBA)).
Proof.
  unfold pairRows.
  assert (forall n (l r : list LogicalLine),
            fold_left (pairRow RGBA p removes adds) (seq 0 n) (l, r) =
            (l ++ map (fun cn => removeLine RGBA p cn.1 cn.2) (take n removes)
               ++ replicate (n - length removes) (emptyLine RGBA),
             r ++ map (fun cn => addLine RGBA p cn.1 cn.2) (take n adds)
               ++ replicate (n - length adds) (emptyLine RGBA))) as Hn.
  { clear l r. induction n as [| n IH]; intros l r.
    - cbn. rewrite !take_0, !app_nil_r. reflexivity.
    - rewrite seq_S, fold_left_app, IH. cbn [fold_left Nat.add pairRow].
      f_equal.
      + rewrite <- !app_assoc. f_equal.
        destruct (removes !! n) as [[c k] |] eqn:Hn.
        * apply lookup_lt_Some in Hn as Hlt.
          rewrite (take_S_r _ _ _ Hn), map_app.
          replace (n - length removes)%nat with 0%nat by lia.
          replace (S n - length removes)%nat with 0%nat by lia.
          cbn. rewrite app_nil_r. reflexivity.
        * apply lookup_ge_None in Hn as Hge.
          rewrite !take_ge by lia.
          replace (S n - length removes)%nat with (S (n - length removes)) by lia.
          f_equal. rewrite replicate_S_end. reflexivity.
      + rewrite <- !app_assoc. f_equal.
        destruct (adds !! n) as [[c k] |] eqn:Hn.
        * apply lookup_lt_Some in Hn as Hlt.
          rewrite (take_S_r _ _ _ Hn), map_app.
          replace (n - length adds)%nat with 0%nat by lia.
          replace (S n - length adds)%nat with 0%nat by lia.
          cbn. rewrite app_nil_r. reflexivity.
        * apply lookup_ge_None in Hn as Hge.
          rewrite !take_ge by lia.
          replace (S n - length adds)%nat with (S (n - length adds)) by lia.
          f_equal. rewrite replicate_S_end. reflexivity. }
  rewrite Hn. rewrite !take_ge by lia.
  f_equal; do 3 f_equal; lia.
Qed.

Lemma realLines_app (l1 l2 : list LogicalLine) :
  realLines (l1 ++ l2) = realLines l1 ++ realLines l2.
Proof. unfold realLines. apply filter_app. Qed.

Lemma realLines_fillers (n : nat) : realLines (replicate n (emptyLine RGBA)) = [].
Proof.
  induction n as [| n IH]; [reflexivity |]. cbn [replicate]. unfold realLines in *.
  rewrite filter_cons. destruct (decide (type RGBA (emptyLine RGBA) <> Empty)) as [H | H].
  - exfalso. apply H. reflexivity.
  - exact IH.
Qed.

Lemma realLines_removes (removes : list (JsString * Z)) :
  realLines (map (fun cn => removeLine RGBA p cn.1 cn.2) removes) =
  map (fun cn => removeLine RGBA p cn.1 cn.2) removes.
Proof.
  induction removes as [| cn removes IH]; [reflexivity |]. cbn [map]. unfold realLines in *.
  rewrite filter_cons.
  destruct (decide (type RGBA (removeLine RGBA p cn.1 cn.2) <> Empty)) as [H | H].
  - rewrite IH. reflexivity.
  - exfalso. apply H. discriminate.
Qed.

Lemma realLines_adds (adds : list (JsString * Z)) :
  realLines (map (fun cn => addLine RGBA p cn.1 cn.2) adds) =
  map (fun cn => addLine RGBA p cn.1 cn.2) adds.
Proof.
  induction adds as [| cn adds IH]; [reflexivity |]. cbn [map]. unfold realLines in *.
  rewrite filter_cons.
  destruct (decide (type RGBA (addLine RGBA p cn.1 cn.2) <> Empty)) as [H | H].
  - rewrite IH. reflexivity.
  - exfalso. apply H. discriminate.
Qed.

Lemma filler_ok : numberedOrFiller (emptyLine RGBA).
Proof. left. repeat split. Qed.

(** One run of changed lines: the lines consumed, and what was gathered
    from them. *)
Lemma collectRun_spec (rest : list JsString) :
  forall oldLineNum newLineNum removes adds removes' adds' o' n' rest',
  collectRun rest oldLineNum newLineNum removes adds = (removes', adds', o', n', rest') ->
  exists run,
    rest = run ++ rest' /\
    map fst removes' = map fst removes ++ map (fun l => sliceFrom l 1) (filter onLeft run) /\
    map fst adds' = map fst adds ++ map (fun l => sliceFrom l 1) (filter onRight run) /\
    (match rest with
     | [] => True
     | line :: _ =>
         firstCharIs line SPACE || firstCharIs line BACKSLASH = false -> run <> []
     end).
Proof.
  induction rest as [| line rest IH];
    intros oldLineNum newLineNum removes adds removes' adds' o' n' rest' Hrun;
    cbn [collectRun] in Hrun.
  { injection Hrun as <- <- _ _ <-. exists []. cbn. rewrite !app_nil_r. auto. }
  destruct (firstCharIs line SPACE || firstCharIs line BACKSLASH) eqn:Hbreak.
  { injection Hrun as <- <- _ _ <-. exists []. cbn. rewrite !app_nil_r.
    repeat split; auto; discriminate. }
  apply orb_false_elim in Hbreak as [Hsp Hbs].
  assert (forall c1 c2, c1 <> c2 -> firstCharIs line c1 = true ->
            firstCharIs line c2 = false) as Hexcl.
  { intros c1 c2 Hne. unfold firstCharIs. destruct (charCodeAt line 0) as [d |];
      [| discriminate].
    intros H1. apply Z.eqb_eq in H1. subst. apply Z.eqb_neq. exact Hne. }
  destruct (firstCharIs line MINUS) eqn:Hminus.
  { apply IH in Hrun as (run & -> & Hrem & Hadd & _).
    exists (line :: run). split; [reflexivity |].
    unfold onLeft, onRight in *. rewrite !filter_cons.
    rewrite Hsp, Hminus, (Hexcl MINUS PLUS ltac:(discriminate) Hminus). cbn [orb].
    destruct (decide true) as [_ | Hf]; [| exfalso; apply Hf; exact I].
    destruct (decide false) as [Hf | _]; [destruct Hf |].
    rewrite Hrem, Hadd, map_app, <- app_assoc. cbn. repeat split; discriminate. }
  destruct (firstCharIs line PLUS) eqn:Hplus.
  { apply IH in Hrun as (run & -> & Hrem & Hadd & _).
    exists (line :: run). split; [reflexivity |].
    unfold onLeft, onRight in *. rewrite !filter_cons.
    rewrite Hsp, Hminus, Hplus. cbn [orb].
    destruct (decide true) as [_ | Hf]; [| exfalso; apply Hf; exact I].
    destruct (decide false) as [Hf | _]; [destruct Hf |].
    rewrite Hrem, Hadd, map_app, <- app_assoc. cbn. repeat split; discriminate. }
  apply IH in Hrun as (run & -> & Hrem & Hadd & _).
  exists (line :: run). split; [reflexivity |].
  unfold onLeft, onRight in *. rewrite !filter_cons.
  rewrite Hsp, Hminus, Hplus. cbn [orb].
  destruct (decide false) as [Hf | _]; [destruct Hf |].
  rewrite Hrem, Hadd. repeat split; discriminate.
Qed.

Lemma paired_context (seen : list JsString) (line : JsString) (o n : Z)
    (lr : list LogicalLine * list LogicalLine) :
  firstCharIs line SPACE = true -> paired seen lr ->
  paired (seen ++ [line])
    (lr.1 ++ [contextLine RGBA p (sliceFrom line 1) o],
     lr.2 ++ [contextLine RGBA p (sliceFrom line 1) n]).
Proof.
  intros Hsp (Hlen & Hl & Hr & Hcl & Hcr). unfold paired. cbn [fst snd].
  assert (forall k, numberedOrFiller (contextLine RGBA p (sliceFrom line 1) k)) as Hctx.
  { intros k. right. repeat split; [discriminate | eexists; reflexivity]. }
  assert (forall k, realLines [contextLine RGBA p (sliceFrom line 1) k] =
                    [contextLine RGBA p (sliceFrom line 1) k]) as Hreal.
  { intros k. unfold realLines. rewrite filter_cons.
    destruct (decide (type RGBA (contextLine RGBA p (sliceFrom line 1) k) <> Empty))
      as [_ | H]; [reflexivity | exfalso; apply H; discriminate]. }
  rewrite !length_app, !realLines_app, !Hreal, !map_app, !filter_app, !map_app, Hcl, Hcr.
  unfold onLeft, onRight. rewrite !filter_cons, Hsp. cbn [orb].
  destruct (decide true) as [_ | Hf]; [| exfalso; apply Hf; exact I].
  cbn. rewrite Hlen. repeat split;
    try (apply Forall_app; split; [assumption | constructor; [apply Hctx | constructor]]).
Qed.

Lemma paired_skip (seen : list JsString) (line : JsString)
    (lr : list LogicalLine * list LogicalLine) :
  onLeft line = false -> onRight line = false ->
  paired seen lr -> paired (seen ++ [line]) lr.
Proof.
  intros Hl Hr (Hlen & Hfl & Hfr & Hcl & Hcr). unfold paired.
  rewrite !filter_app, !filter_cons, Hl, Hr.
  destruct (decide false) as [Hf | _]; [destruct Hf |].
  cbn. rewrite !app_nil_r. repeat split; assumption.
Qed.

Lemma paired_run (seen run : list JsString) (removes adds : list (JsString * Z))
    (lr : list LogicalLine * list LogicalLine) :
  map fst removes = map (fun l => sliceFrom l 1) (filter onLeft run) ->
  map fst adds = map (fun l => sliceFrom l 1) (filter onRight run) ->
  paired seen lr -> paired (seen ++ run) (pairRows RGBA p removes adds lr).
Proof.
  intros Hrem Hadd (Hlen & Hfl & Hfr & Hcl & Hcr). destruct lr as [l r].
  rewrite pairRows_spec. unfold paired. cbn [fst snd] in *.
  rewrite !length_app, !length_map, !length_replicate.
  rewrite !realLines_app, !realLines_fillers, !app_nil_r, realLines_removes,
    realLines_adds, !map_app, !filter_app, !map_app, Hcl, Hcr, <- Hrem, <- Hadd.
  split; [lia |].
  split.
  { repeat (apply Forall_app; split); [exact Hfl | |].
    - apply Forall_forall. intros x Hx. apply list_elem_of_fmap in Hx as (cn & -> & _).
      right. repeat split; [discriminate | eexists; reflexivity].
    - apply Forall_forall. intros x Hx. apply elem_of_replicate in Hx as [-> _].
      apply filler_ok. }
  split.
  { repeat (apply Forall_app; split); [exact Hfr | |].
    - apply Forall_forall. intros x Hx. apply list_elem_of_fmap in Hx as (cn & -> & _).
      right. repeat split; [discriminate | eexists; reflexivity].
    - apply Forall_forall. intros x Hx. apply elem_of_replicate in Hx as [-> _].
      apply filler_ok. }
  split; f_equal; rewrite map_map; reflexivity.
Qed.

Lemma splitLoop_paired fuel : forall rest o n lr seen,
  paired seen lr -> (length rest < fuel)%nat ->
  exists lr', splitLoop RGBA p fuel rest o n lr = Some lr' /\ paired (seen ++ rest) lr'.
Proof.
  induction fuel as [| fuel IH]; intros rest o n lr seen Hp Hfuel; [lia |].
  destruct rest as [| line rest]; cbn [splitLoop].
  { exists lr. rewrite app_nil_r. auto. }
  cbn [length] in Hfuel.
  destruct (firstCharIs line SPACE) eqn:Hsp.
  { destruct (IH rest (o + 1) (n + 1)
                (lr.1 ++ [contextLine RGBA p (sliceFrom line 1) o],
                 lr.2 ++ [contextLine RGBA p (sliceFrom line 1) n]) (seen ++ [line]))
      as (lr' & Hloop & Hp'); [apply paired_context; assumption | lia |].
    exists lr'. rewrite <- app_assoc in Hp'. auto. }
  assert (forall c1 c2, c1 <> c2 -> firstCharIs line c1 = true ->
            firstCharIs line c2 = false) as Hexcl.
  { intros c1 c2 Hne. unfold firstCharIs. destruct (charCodeAt line 0) as [d |];
      [| discriminate].
    intros H1. apply Z.eqb_eq in H1. subst. apply Z.eqb_neq. exact Hne. }
  destruct (firstCharIs line BACKSLASH) eqn:Hbs.
  { destruct (IH rest o n lr (seen ++ [line])) as (lr' & Hloop & Hp'); [| lia |].
    - apply paired_skip; [| | exact Hp]; unfold onLeft, onRight; rewrite Hsp;
        [rewrite (Hexcl BACKSLASH MINUS ltac:(discriminate) Hbs)
        | rewrite (Hexcl BACKSLASH PLUS ltac:(discriminate) Hbs)]; reflexivity.
    - exists lr'. rewrite <- app_assoc in Hp'. auto. }
  destruct (collectRun (line :: rest) o n [] [])
    as [[[[removes adds] o'] n'] rest''] eqn:Hrun.
  destruct (collectRun_spec _ _ _ _ _ _ _ _ _ _ Hrun) as (run & Hrest & Hrem & Hadd & Hne).
  assert (run <> []) as Hrun_ne by (apply Hne; rewrite Hsp, Hbs; reflexivity).
  assert (length rest'' < length (line :: rest))%nat as Hshorter.
  { rewrite Hrest, length_app. destruct run; [congruence | cbn [length]; lia]. }
  cbn [length] in Hshorter.
  destruct (IH rest'' o' n' (pairRows RGBA p removes adds lr) (seen ++ run))
    as (lr' & Hloop & Hp'); [apply paired_run; assumption | lia |].
  exists lr'. split; [exact Hloop |]. rewrite Hrest, app_assoc. exact Hp'.
Qed.

(** X8.  The split view pairs the rows of its two sides: for any hunks the loop
    returns, both sides have the same number of rows, every row is a
    numbered line or a hidden filler, and leaving the fillers out, the left
    side shows the context and removed lines of the hunks, in order and
    without their first character, and the right side the context and added
    lines. *)
Theorem split_sides_paired (hunks : list Hunk) :
  exists leftLogicalLines rightLogicalLines,
    splitLines RGBA p hunks = Some (leftLogicalLines, rightLogicalLines) /\
    length leftLogicalLines = length rightLogicalLines /\
    Forall numberedOrFiller leftLogicalLines /\
    Forall numberedOrFiller rightLogicalLines /\
    map (line_content RGBA) (realLines leftLogicalLines) =
      map (fun line => sliceFrom line 1) (filter onLeft (allLines hunks)) /\
    map (line_content RGBA) (realLines rightLogicalLines) =
      map (fun line => sliceFrom line 1) (filter onRight (allLines hunks)).
Proof.
  unfold splitLines.
  assert (forall hs seen lr, paired seen lr ->
            exists lr', fold_left (splitHunk RGBA p) hs (Some lr) = Some lr' /\
                        paired (seen ++ allLines hs) lr') as Hfold.
  { induction hs as [| h hs IH]; intros seen lr Hp; cbn [fold_left].
    { exists lr. unfold allLines. cbn. rewrite app_nil_r. auto. }
    cbn [splitHunk].
    destruct (splitLoop_paired (S (length (lines h))) (lines h) (oldStart h)
                (newStart h) lr seen Hp) as (lr1 & -> & Hp1); [lia |].
    destruct (IH _ _ Hp1) as (lr' & Hloop & Hp').
    exists lr'. split; [exact Hloop |].
    unfold allLines in *. cbn [map concat]. rewrite app_assoc. exact Hp'. }
  destruct (Hfold hunks [] ([], [])) as ([l r] & Hloop & Hp).
  { unfold paired. cbn. repeat split; constructor. }
  exists l, r. split; [exact Hloop | exact Hp].
Qed.

(** *** Alignment *)

Lemma visualRows_S (counts : gmap nat nat) (n : nat) :
  visualRows counts (S n) = (visualRows counts n + visualCount counts n)%nat.
Proof.
  unfold visualRows. rewrite seq_S, foldr_app. cbn [foldr Nat.add].
  generalize (seq 0 n). intros l. induction l as [| i l IH]; cbn [foldr]; lia.
Qed.

Lemma visualCounts_lookup (sources : list nat) (l : nat) :
  forall counts : gmap nat nat,
  fold_left (fun counts logicalLine =>
               <[logicalLine := (default 0 (counts !! logicalLine) + 1)%nat]> counts)
    sources counts !! l =
  match length (filter (fun x => x = l) sources) with
  | O => counts !! l
  | S k => Some (default 0 (counts !! l) + S k)%nat
  end.
Proof.
  induction sources as [| x sources IH]; intros counts; cbn [fold_left]; [reflexivity |].
  rewrite IH, filter_cons. destruct (decide (x = l)) as [-> | Hne].
  - rewrite lookup_insert_eq. cbn [length]. unfold default. cbn [from_option id].
    destruct (length (filter (fun x => x = l) sources)); f_equal; unfold id; lia.
  - rewrite lookup_insert_ne by exact Hne. reflexivity.
Qed.

(** A logical line takes as many visual lines as it occurs in [lineSources],
    and one if it does not occur. *)
Lemma visualCount_occurrences (sources : list nat) (i : nat) :
  visualCount (visualCounts sources) i =
  Nat.max 1 (length (filter (fun x => x = i) sources)).
Proof.
  unfold visualCount, visualCounts. rewrite visualCounts_lookup, lookup_empty.
  destruct (length (filter (fun x => x = i) sources)) as [| k]; [reflexivity |].
  cbn [default Nat.add]. lia.
Qed.

Lemma levelUp_aligned l r cl cr i (a : Aligned RGBA) :
  aligned l r cl cr i a ->
  aligned l r cl cr i (levelUp RGBA a) /\
  leftVisualPos RGBA (levelUp RGBA a) = rightVisualPos RGBA (levelUp RGBA a).
Proof.
  intros [Hl Hr Hrl Hrr Hsl Hsr Hokl Hokr Hsame]. unfold levelUp.
  assert (forall n, Forall numberedOrFiller (replicate n (emptyLine RGBA))) as Hfill.
  { intros n. apply Forall_forall. intros x Hx. apply elem_of_replicate in Hx as [-> _].
    apply filler_ok. }
  destruct (Nat.ltb_spec (leftVisualPos RGBA a) (rightVisualPos RGBA a)) as [Hlt | Hge].
  - split; [| cbn; lia]. constructor; cbn; try assumption.
    + rewrite length_app, length_replicate. lia.
    + rewrite realLines_app, realLines_fillers, app_nil_r. exact Hrl.
    + apply sublist_inserts_r. exact Hsl.
    + intros Hok. apply Forall_app. split; [apply Hokl; exact Hok | apply Hfill].
    + intros Hj. apply Hsame in Hj as (Heq & _). lia.
  - destruct (Nat.ltb_spec (rightVisualPos RGBA a) (leftVisualPos RGBA a)) as [Hlt | Hge'].
    + split; [| cbn; lia]. constructor; cbn; try assumption.
      * rewrite length_app, length_replicate. lia.
      * rewrite realLines_app, realLines_fillers, app_nil_r. exact Hrr.
      * apply sublist_inserts_r. exact Hsr.
      * intros Hok. apply Forall_app. split; [apply Hokr; exact Hok | apply Hfill].
      * intros Hj. apply Hsame in Hj as (Heq & _). lia.
    + split; [| lia]. constructor; assumption.
Qed.

Lemma alignStep_aligned l r cl cr i (a : Aligned RGBA) :
  length l = length r -> (i < length l)%nat ->
  aligned l r cl cr i a ->
  aligned l r cl cr (S i) (alignStep RGBA l r cl cr a i).
Proof.
  intros Hlen Hi Ha. unfold alignStep.
  destruct (lookup_lt_is_Some_2 l i Hi) as [ll Hll].
  destruct (lookup_lt_is_Some_2 r i ltac:(lia)) as [rl Hrl].
  rewrite Hll, Hrl.
  destruct (levelUp_aligned l r cl cr i a Ha)
    as [[Hl Hr Hreal_l Hreal_r Hsl Hsr Hokl Hokr Hsame] Hlevel].
  constructor; cbn [finalLeftLines finalRightLines leftVisualPos rightVisualPos].
  - rewrite visualRows_S, length_app. cbn [length]. lia.
  - rewrite visualRows_S, length_app. cbn [length]. lia.
  - rewrite (take_S_r _ _ _ Hll), !realLines_app, Hreal_l. reflexivity.
  - rewrite (take_S_r _ _ _ Hrl), !realLines_app, Hreal_r. reflexivity.
  - rewrite (take_S_r _ _ _ Hll). apply sublist_app; [exact Hsl | reflexivity].
  - rewrite (take_S_r _ _ _ Hrl). apply sublist_app; [exact Hsr | reflexivity].
  - intros Hok. apply Forall_app. split; [apply Hokl; exact Hok |].
    constructor; [| constructor]. exact (Forall_lookup_1 _ _ _ _ Hok Hll).
  - intros Hok. apply Forall_app. split; [apply Hokr; exact Hok |].
    constructor; [| constructor]. exact (Forall_lookup_1 _ _ _ _ Hok Hrl).
  - intros Hj.
    destruct Hsame as (Heq & Hfl & Hfr); [intros j Hjlt; apply Hj; lia |].
    rewrite (take_S_r _ _ _ Hll), (take_S_r _ _ _ Hrl), Hfl, Hfr, Heq, (Hj i) by lia.
    repeat split.
Qed.

Lemma align_fold l r cl cr (n : nat) :
  length l = length r -> (n <= length l)%nat ->
  aligned l r cl cr n
    (fold_left (alignStep RGBA l r cl cr) (seq 0 n)
       {| finalLeftLines := []; finalRightLines := [];
          leftVisualPos := 0; rightVisualPos := 0 |}).
Proof.
  intros Hlen. induction n as [| n IH]; intros Hn.
  - constructor; cbn [fold_left seq finalLeftLines finalRightLines leftVisualPos
                        rightVisualPos]; rewrite ?take_0;
      [reflexivity | reflexivity | reflexivity | reflexivity | constructor
      | constructor | intros _; constructor | intros _; constructor
      | intros _; repeat split].
  - rewrite seq_S, fold_left_app. cbn [fold_left Nat.add].
    apply alignStep_aligned; [exact Hlen | lia | apply IH; lia].
Qed.

(** X9.  The alignment of the split view levels the two sides: with a filler
    counted as one visual line and a logical line as often as it occurs in
    the line sources of its side (once if it does not occur), both sides
    take the same number of visual lines.  Only fillers are added: the given
    lines stay, in order.  When every pair of lines takes the same number of
    visual lines, nothing is added at all. *)
Theorem alignment_levels_sides (leftLogicalLines rightLogicalLines : list LogicalLine)
    (leftSources rightSources : list nat) :
  length leftLogicalLines = length rightLogicalLines ->
  let n := length leftLogicalLines in
  let cl := visualCounts leftSources in
  let cr := visualCounts rightSources in
  let final := alignLines RGBA leftLogicalLines rightLogicalLines
                 leftSources rightSources in
  ((length final.1 - n) + visualRows cl n =
   (length final.2 - n) + visualRows cr n)%nat /\
  (forall i, visualCount cl i = Nat.max 1 (length (filter (fun x => x = i) leftSources))) /\
  realLines final.1 = realLines leftLogicalLines /\
  realLines final.2 = realLines rightLogicalLines /\
  leftLogicalLines `sublist_of` final.1 /\
  rightLogicalLines `sublist_of` final.2 /\
  (Forall numberedOrFiller leftLogicalLines -> Forall numberedOrFiller final.1) /\
  (Forall numberedOrFiller rightLogicalLines -> Forall numberedOrFiller final.2) /\
  ((forall j, (j < n)%nat -> visualCount cl j = visualCount cr j) ->
   final = (leftLogicalLines, rightLogicalLines)).
Proof.
  intros Hlen n cl cr final.
  pose proof (align_fold leftLogicalLines rightLogicalLines cl cr n Hlen (Nat.le_refl _))
    as Ha.
  apply levelUp_aligned in Ha as [[Hl Hr Hrl Hrr Hsl Hsr Hokl Hokr Hsame] Hlevel].
  subst final. unfold alignLines. fold cl cr. cbn [fst snd].
  set (a := levelUp RGBA _) in *.
  rewrite take_ge in Hrl, Hsl, Hsame by (subst n; lia).
  rewrite take_ge in Hrr, Hsr, Hsame by (subst n; lia).
  split.
  { apply sublist_length in Hsl, Hsr. fold n in Hsl. rewrite <- Hlen in Hsr.
    fold n in Hsr. lia. }
  split; [intros i; apply visualCount_occurrences |].
  repeat (split; [assumption |]).
  intros Hj. apply Hsame in Hj as (_ & -> & ->). reflexivity.
Qed.

(** *** The maps of one side *)

Lemma forEachFrom_indexes changed cfg (ls : list LogicalLine) :
  forall from m0, emptyFrom m0 from ->
  indexes (forEachFrom RGBA (sideLine RGBA p changed cfg) from ls m0)
    changed cfg from ls m0.
Proof.
  induction ls as [| line ls IH]; intros from m0 Hempty i; cbn [forEachFrom].
  { destruct (Nat.ltb_spec i from) as [Hlt | Hge]; [tauto |].
    destruct (Hempty i Hge) as (Hn & Hs & Hc & Hh). rewrite Hn, Hs, Hc. cbn.
    repeat split; try tauto. intros (l & Hl & _). discriminate. }
  specialize (IH (S from) (sideLine RGBA p changed cfg m0 from line)).
  assert (emptyFrom (sideLine RGBA p changed cfg m0 from line) (S from)) as Hempty'.
  { intros j Hj. destruct (Hempty j ltac:(lia)) as (Hn & Hs & Hc & Hh).
    unfold sideLine. cbn.
    repeat split.
    - destruct (lineNum RGBA line); [rewrite lookup_insert_ne by lia |]; exact Hn.
    - destruct (sign RGBA line); [rewrite lookup_insert_ne by lia |]; exact Hs.
    - destruct (bool_decide _); [rewrite lookup_insert_ne by lia; exact Hc |].
      destruct (bool_decide _); [rewrite lookup_insert_ne by lia |]; exact Hc.
    - destruct (hideLineNumber RGBA line); [| exact Hh].
      intros Hin. apply elem_of_union in Hin as [Hin | Hin]; [| contradiction].
      apply elem_of_singleton in Hin. lia. }
  specialize (IH Hempty' i).
  destruct (Nat.ltb_spec i from) as [Hlt | Hge].
  - assert ((i <? S from)%nat = true) as Hlt' by (apply Nat.ltb_lt; lia).
    rewrite Hlt' in IH. destruct IH as (Hn & Hs & Hc & Hh).
    rewrite Hn, Hs, Hc, Hh. unfold sideLine. cbn.
    repeat split.
    + destruct (lineNum RGBA line); [rewrite lookup_insert_ne by lia |]; reflexivity.
    + destruct (sign RGBA line); [rewrite lookup_insert_ne by lia |]; reflexivity.
    + destruct (bool_decide _); [rewrite lookup_insert_ne by lia; reflexivity |].
      destruct (bool_decide _); [rewrite lookup_insert_ne by lia |]; reflexivity.
    + destruct (hideLineNumber RGBA line); [| tauto].
      intros Hin. apply elem_of_union in Hin as [Hin | Hin]; [| exact Hin].
      apply elem_of_singleton in Hin. lia.
    + destruct (hideLineNumber RGBA line); [| tauto].
      intros Hin. apply elem_of_union. right. exact Hin.
  - destruct (Nat.eq_dec i from) as [-> | Hne].
    + assert ((from <? S from)%nat = true) as Hlt' by (apply Nat.ltb_lt; lia).
      rewrite Hlt' in IH. destruct IH as (Hn & Hs & Hc & Hh).
      destruct (Hempty from (Nat.le_refl _)) as (Hn0 & Hs0 & Hc0 & Hh0).
      rewrite Hn, Hs, Hc, Hh, Nat.sub_diag. unfold sideLine, sideColour. cbn.
      repeat split.
      * destruct (lineNum RGBA line); [rewrite lookup_insert_eq; reflexivity | exact Hn0].
      * destruct (sign RGBA line); [rewrite lookup_insert_eq; reflexivity | exact Hs0].
      * destruct (bool_decide _); [rewrite lookup_insert_eq; reflexivity |].
        destruct (bool_decide _); [rewrite lookup_insert_eq; reflexivity | exact Hc0].
      * intros Hin. exists line. split; [reflexivity |].
        destruct (hideLineNumber RGBA line); [reflexivity | contradiction].
      * intros (l & Hl & Hhide). injection Hl as <-. rewrite Hhide.
        apply elem_of_union. left. apply elem_of_singleton. reflexivity.
    + assert ((i <? S from)%nat = false) as Hge' by (apply Nat.ltb_ge; lia).
      rewrite Hge' in IH.
      replace (i - from)%nat with (S (i - S from)) by lia. exact IH.
Qed.

(** X10.  The maps of a side index its rows: at the index of a row they hold its
    line number, its sign and its colours, the index is hidden exactly when
    the row asks for it, and nothing is held beyond the last row.  So a row
    of the split view either shows a number or is a hidden filler without
    number, sign and colours. *)
Theorem side_maps_index_rows (changed : LineType)
    (changedConfig : LineColorConfig RGBA) (ls : list LogicalLine) (i : nat) :
  let m := forEachFrom RGBA (sideLine RGBA p changed changedConfig) 0 ls
             (emptySideMaps RGBA) in
  side_lineNumbers RGBA m !! i = ls !! i ≫= lineNum RGBA /\
  side_lineSigns RGBA m !! i = ls !! i ≫= sign RGBA /\
  side_lineColors RGBA m !! i = ls !! i ≫= sideColour changed changedConfig /\
  (i ∈ side_hideLineNumbers RGBA m <->
   exists l, ls !! i = Some l /\ hideLineNumber RGBA l = true) /\
  (Forall numberedOrFiller ls -> (i < length ls)%nat ->
   (is_Some (side_lineNumbers RGBA m !! i) /\ i ∉ side_hideLineNumbers RGBA m) \/
   (side_lineNumbers RGBA m !! i = None /\ i ∈ side_hideLineNumbers RGBA m /\
    side_lineSigns RGBA m !! i = None /\
    (changed <> Empty -> side_lineColors RGBA m !! i = None))).
Proof.
  intros m.
  pose proof (forEachFrom_indexes changed changedConfig ls 0 (emptySideMaps RGBA)) as H.
  specialize (H ltac:(intros j _; cbn; rewrite !lookup_empty; repeat split; set_solver) i).
  cbn [Nat.ltb Nat.leb] in H. rewrite Nat.sub_0_r in H. fold m in H.
  destruct H as (Hn & Hs & Hc & Hh).
  repeat (split; [assumption |]).
  intros Hok Hi. destruct (lookup_lt_is_Some_2 ls i Hi) as [l Hl].
  pose proof (Forall_lookup_1 _ _ _ _ Hok Hl) as [(Hty & Hnum & Hhide & Hsign) |
                                                   (Hty & Hnum & Hhide)].
  - right. rewrite Hn, Hs, Hc, Hh, Hl. cbn. rewrite Hnum, Hsign.
    repeat split; [eauto |]. intros Hch. unfold sideColour. rewrite Hty.
    rewrite bool_decide_eq_false_2 by congruence.
    rewrite bool_decide_eq_false_2 by discriminate. reflexivity.
  - left. rewrite Hn, Hh, Hl. cbn. split; [exact Hnum |].
    intros (l' & Hl' & Hhide'). injection Hl' as <-. congruence.
Qed.

End Views.

Lemma alignment_levels_sides_witness :
  let removed : LogicalLine unit :=
    {| line_content := lit "a long line"; lineNum := Some 1; hideLineNumber := false;
       color := Some tt; sign := None; type := Remove |} in
  let added : LogicalLine unit :=
    {| line_content := lit "short"; lineNum := Some 1; hideLineNumber := false;
       color := Some tt; sign := None; type := Add |} in
  length [removed] = length [added] /\
  (alignLines unit [removed] [added] [0; 0]%nat [0]%nat).2 `sublist_of`
    [added; emptyLine unit] /\
  realLines (alignLines unit [removed] [added] [0; 0]%nat [0]%nat).2 = [added].
Proof.
  intros removed added.
  destruct (alignment_levels_sides [removed] [added] [0; 0]%nat [0]%nat)
    as (_ & _ & _ & Hreal & _); [reflexivity |].
  split; [reflexivity |]. split; [| exact Hreal].
  vm_compute. apply sublist_skip, sublist_skip, sublist_nil.
Defined.

End DiffViewSpec.

(** ** The code renderable: rendering and highlight requests *)

Module CodeMore.
Import Js Code CodeRender.
Local Open Scope Z_scope.

(** A streaming renderable that has shown a first content. *)
Definition streamed : State :=
  {| _content := lit "let x"; _filetype := Some (lit "ts");
     _isHighlighting := false; _highlightsDirty := false;
     _highlightSnapshotId := 1; _conceal := true; _drawUnstyledText := false;
     _shouldRenderTextBuffer := true; _streaming := true;
     _hadInitialContent := true; _lastHighlights := [];
     _onHighlight := false; _onChunks := false; isDestroyed := false;
     textBuffer := StyledText []; effects := [] |}.

Section Requests.

Variable treeSitterToTextChunks :
  JsString -> list SimpleHighlight -> bool -> list TextChunk.

(** What can happen to the renderable while a highlight request is in
    flight. *)
Inductive Op : Type :=
  | SetContent (value : JsString)
  | SetFiletype (value : JsString)
  | SetStreaming (value : bool)
  | Render
  | ResumeHighlightOnce (fr : Frame) (result : Outcome (option (list SimpleHighlight)))
  | ResumeOnHighlight (fr : Frame) (highlights : list SimpleHighlight)
      (modified : Outcome (option (list SimpleHighlight)))
  | ResumeOnChunks (fr : Frame) (chunks : list TextChunk)
      (modified : Outcome (option (list TextChunk))).

Definition run (op : Op) (st : State) : State :=
  match op with
  | SetContent value => set_content value st
  | SetFiletype value => set_filetype value st
  | SetStreaming value => set_streaming value st
  | Render => (renderSelf st).1.1
  | ResumeHighlightOnce fr result =>
      (resumeHighlightOnce treeSitterToTextChunks fr result st).1
  | ResumeOnHighlight fr highlights modified =>
      (resumeOnHighlight treeSitterToTextChunks fr highlights modified st).1
  | ResumeOnChunks fr chunks modified => (resumeOnChunks fr chunks modified st).1
  end.

Definition runAll (ops : list Op) (st : State) : State :=
  fold_left (fun s op => run op s) ops st.

(** A highlight request run to its end with nothing in between: the
    highlighter resolves with [result], and the callbacks, where there are
    any, with [modifiedH] and [modifiedC]. *)
Definition complete (result modifiedH : option (list SimpleHighlight))
    (modifiedC : option (list TextChunk)) (fr : Frame) (st : State) : State :=
  let onChunks (r : State * option Pending) : State :=
    match r with
    | (st, Some (AwaitOnChunks fr _ chunks)) =>
        (resumeOnChunks fr chunks (Resolved modifiedC) st).1
    | (st, _) => st
    end in
  match resumeHighlightOnce treeSitterToTextChunks fr (Resolved result) st with
  | (st, Some (AwaitOnHighlight fr highlights)) =>
      onChunks (resumeOnHighlight treeSitterToTextChunks fr highlights
                  (Resolved modifiedH) st)
  | r => onChunks r
  end.

(** The highlights a request ends with: those of the highlighter, or what
    [onHighlight] returned for them. *)
Definition finalHighlights (st : State) (result modifiedH : option (list SimpleHighlight))
    : list SimpleHighlight :=
  if _onHighlight st then default (default [] result) modifiedH
  else default [] result.

(** The text a request ends with. *)
Definition finalText (st : State) (highlights : list SimpleHighlight)
    (modifiedC : option (list TextChunk)) : TextBufferContent :=
  match highlights with
  | [] => PlainText (_content st)
  | _ =>
      let chunks := treeSitterToTextChunks (_content st) highlights (_conceal st) in
      StyledText (if _onChunks st then default chunks modifiedC else chunks)
  end.

(** Evaluation of a render on a state given field by field. *)
Ltac code_eval :=
  cbv [renderSelf ensureVisibleTextBeforeHighlight startHighlight noFiletype
       set_content setShouldRenderTextBuffer setHighlightsDirty setTextBuffer
       setSnapshotId setHadInitialContent setIsHighlighting perform
       _content _filetype _isHighlighting _highlightsDirty _highlightSnapshotId
       _conceal _drawUnstyledText _shouldRenderTextBuffer _streaming
       _hadInitialContent _lastHighlights _onHighlight _onChunks isDestroyed
       textBuffer effects andb negb fst snd Nat.eqb length].

Lemma settle_id (st : State) :
  _highlightSnapshotId (settle st) = _highlightSnapshotId st.
Proof. reflexivity. Qed.

Lemma catchBlock_id (fr : Frame) (st : State) :
  _highlightSnapshotId (catchBlock fr st) = _highlightSnapshotId st.
Proof.
  unfold catchBlock. destruct (negb _); [reflexivity |].
  destruct (isDestroyed _); reflexivity.
Qed.

Lemma afterOnHighlight_id (fr : Frame) (highlights : list SimpleHighlight)
    (st : State) :
  _highlightSnapshotId (afterOnHighlight treeSitterToTextChunks fr highlights st).1 =
  _highlightSnapshotId st.
Proof.
  unfold afterOnHighlight. destruct (negb _); [reflexivity |].
  destruct (isDestroyed st); [reflexivity |].
  destruct (0 <? length highlights)%nat; [| reflexivity].
  destruct (_streaming st); cbn; destruct (_onChunks st); reflexivity.
Qed.

Lemma startHighlight_id (st : State) :
  _highlightSnapshotId (startHighlight st).1 = _highlightSnapshotId st + 1.
Proof.
  unfold startHighlight. destruct (_filetype st) as [[| c filetype] |]; cbn;
    try reflexivity.
  destruct (_streaming st && negb (_hadInitialContent st)); reflexivity.
Qed.

Lemma ensureVisible_id (st : State) :
  _highlightSnapshotId (ensureVisibleTextBeforeHighlight st) = _highlightSnapshotId st.
Proof.
  unfold ensureVisibleTextBeforeHighlight. destruct (isDestroyed st); [reflexivity |].
  destruct (noFiletype st); [reflexivity |].
  destruct (_streaming st && negb _); [reflexivity |].
  destruct (if _streaming st then _ else _); reflexivity.
Qed.

Lemma renderSelf_id (st : State) :
  _highlightSnapshotId st <= _highlightSnapshotId (renderSelf st).1.1.
Proof.
  unfold renderSelf. destruct (_highlightsDirty st); [| cbn; lia].
  destruct (isDestroyed st); [cbn; lia |].
  destruct (length (_content st) =? 0)%nat; [cbn; lia |].
  destruct (noFiletype st); [cbn; lia |].
  pose proof (startHighlight_id
                (setHighlightsDirty false (ensureVisibleTextBeforeHighlight st))) as H.
  destruct (startHighlight _) as [st1 pending]. cbn in *.
  rewrite H, ensureVisible_id. lia.
Qed.

(** The snapshot counter never goes down. *)
Lemma run_id (op : Op) (st : State) :
  _highlightSnapshotId st <= _highlightSnapshotId (run op st).
Proof.
  destruct op as [value | value | value | | fr result | fr hs modified
                 | fr chunks modified]; cbn [run].
  - unfold set_content. destruct (bool_decide _); [| lia].
    destruct (_ && _); cbn; lia.
  - unfold set_filetype. destruct (bool_decide _); cbn; lia.
  - unfold set_streaming. destruct (bool_decide _); cbn; lia.
  - apply renderSelf_id.
  - unfold resumeHighlightOnce. destruct result as [r | e].
    + destruct (negb _); [cbn; lia |]. destruct (isDestroyed st); [cbn; lia |].
      destruct (_onHighlight st); [cbn; lia |]. rewrite afterOnHighlight_id. lia.
    + cbn. rewrite catchBlock_id. lia.
  - unfold resumeOnHighlight. destruct modified as [r | e].
    + rewrite afterOnHighlight_id. lia.
    + cbn. rewrite catchBlock_id. lia.
  - unfold resumeOnChunks. destruct modified as [r | e]; cbn.
    + lia.
    + rewrite catchBlock_id. lia.
Qed.

Lemma runAll_id (ops : list Op) : forall st : State,
  _highlightSnapshotId st <= _highlightSnapshotId (runAll ops st).
Proof.
  induction ops as [| op ops IH]; intros st; cbn; [lia |].
  pose proof (run_id op st). pose proof (IH (run op st)). unfold runAll in *. lia.
Qed.

(** The request of a frame that a newer snapshot has superseded ends at the
    first test it meets. *)
Lemma superseded_dropped (fr : Frame) (st : State) :
  snapshotId fr < _highlightSnapshotId st ->
  (forall result, resumeHighlightOnce treeSitterToTextChunks fr result st = (st, None)) /\
  (forall highlights modified,
     resumeOnHighlight treeSitterToTextChunks fr highlights modified st = (st, None)) /\
  (forall chunks error, resumeOnChunks fr chunks (Rejected error) st = (st, None)).
Proof.
  intros Hlt.
  assert (negb (snapshotId fr =? _highlightSnapshotId st) = true) as Hne.
  { destruct (Z.eqb_spec (snapshotId fr) (_highlightSnapshotId st)); [lia | reflexivity]. }
  assert (catchBlock fr st = st) as Hcatch.
  { unfold catchBlock. rewrite Hne. reflexivity. }
  repeat split.
  - intros [r | e]; cbn; [rewrite Hne | rewrite Hcatch]; reflexivity.
  - intros hs [r | e]; cbn; [unfold afterOnHighlight; rewrite Hne | rewrite Hcatch];
      reflexivity.
  - intros chunks e. cbn. rewrite Hcatch. reflexivity.
Qed.

Lemma renderSelf_pending (st st1 : State) (pending : Pending) (drawn : bool) :
  renderSelf st = (st1, Some pending, drawn) ->
  exists fr st0,
    pending = AwaitHighlightOnce fr /\
    st0 = setHighlightsDirty false (ensureVisibleTextBeforeHighlight st) /\
    startHighlight st0 = (st1, Some pending) /\
    content fr = _content st /\
    snapshotId fr = _highlightSnapshotId st1 /\
    _highlightsDirty st = true /\ isDestroyed st = false /\
    _content st <> [] /\ noFiletype st = false /\
    drawn = _shouldRenderTextBuffer st1.
Proof.
  unfold renderSelf. destruct (_highlightsDirty st) eqn:Hdirty; [| discriminate].
  destruct (isDestroyed st) eqn:Hx; [discriminate |].
  destruct (length (_content st) =? 0)%nat eqn:Hlen; [discriminate |].
  destruct (noFiletype st) eqn:Hft; [discriminate |].
  destruct (startHighlight _) as [st1' pending'] eqn:Hstart. intros H.
  injection H as <- -> <-.
  destruct (CodeSpec.startHighlight_pending _ _ _ Hstart)
    as (fr & -> & Hcontent & Hid & Hid1 & _).
  exists fr, (setHighlightsDirty false (ensureVisibleTextBeforeHighlight st)).
  repeat split; try assumption; try reflexivity.
  - rewrite Hcontent. cbn. unfold ensureVisibleTextBeforeHighlight. rewrite Hx, Hft.
    destruct (_streaming st && negb _); [reflexivity |].
    destruct (if _streaming st then _ else _); reflexivity.
  - symmetry. exact Hid1.
  - intros Hnil. rewrite Hnil in Hlen. discriminate.
Qed.

(** X11.  After a change of the content, the highlight request that
    [renderSelf] started before the change is dropped at three of its
    resumptions, whatever is set, rendered or resumed before and after the
    change: resumed after the highlight call (result or failure), resumed
    after [onHighlight] (result or failure), or resumed with a failure of
    [onChunks], it leaves the whole state as it is and ends.  Nothing is
    said of the resumption after [onChunks] has returned, where the
    snapshot is not tested again. *)
Theorem content_change_supersedes_request (st st1 : State) (pending : Pending)
    (drawn : bool) (ops1 ops2 : list Op) (value : JsString) :
  renderSelf st = (st1, Some pending, drawn) ->
  let st2 := runAll ops1 st1 in
  _content st2 <> value ->
  let st3 := runAll ops2 (set_content value st2) in
  exists fr,
    pending = AwaitHighlightOnce fr /\
    content fr = _content st /\
    (forall result,
       resumeHighlightOnce treeSitterToTextChunks fr result st3 = (st3, None)) /\
    (forall highlights modified,
       resumeOnHighlight treeSitterToTextChunks fr highlights modified st3 = (st3, None)) /\
    (forall chunks error, resumeOnChunks fr chunks (Rejected error) st3 = (st3, None)).
Proof.
  intros Hrender st2 Hvalue st3.
  destruct (renderSelf_pending _ _ _ _ Hrender)
    as (fr & st0 & -> & _ & _ & Hcontent & Hid & _).
  exists fr. split; [reflexivity |]. split; [exact Hcontent |].
  apply superseded_dropped.
  pose proof (runAll_id ops1 st1) as H1. fold st2 in H1.
  pose proof (runAll_id ops2 (set_content value st2)) as H2. fold st3 in H2.
  assert (_highlightSnapshotId (set_content value st2) = _highlightSnapshotId st2 + 1)
    as Hbump.
  { unfold set_content. rewrite bool_decide_eq_true_2 by exact Hvalue.
    destruct (_ && _); reflexivity. }
  lia.
Qed.

(** X12.  A later highlight request supersedes an earlier one: once [renderSelf]
    has started a second request, the first one changes nothing when it
    resumes, whatever else happens, while the second one carries the current
    snapshot and the content it was started from. *)
Theorem later_request_supersedes_earlier (st st1 st2 : State)
    (pending1 pending2 : Pending) (drawn1 drawn2 : bool) (ops1 ops2 : list Op) :
  renderSelf st = (st1, Some pending1, drawn1) ->
  renderSelf (runAll ops1 st1) = (st2, Some pending2, drawn2) ->
  let st3 := runAll ops2 st2 in
  exists fr1 fr2,
    pending1 = AwaitHighlightOnce fr1 /\
    pending2 = AwaitHighlightOnce fr2 /\
    snapshotId fr1 < snapshotId fr2 /\
    snapshotId fr2 = _highlightSnapshotId st2 /\
    content fr2 = _content (runAll ops1 st1) /\
    (forall result,
       resumeHighlightOnce treeSitterToTextChunks fr1 result st3 = (st3, None)) /\
    (forall highlights modified,
       resumeOnHighlight treeSitterToTextChunks fr1 highlights modified st3 = (st3, None)) /\
    (forall chunks error, resumeOnChunks fr1 chunks (Rejected error) st3 = (st3, None)).
Proof.
  intros Hrender1 Hrender2 st3.
  destruct (renderSelf_pending _ _ _ _ Hrender1)
    as (fr1 & st0 & -> & _ & _ & _ & Hid1 & _).
  destruct (renderSelf_pending _ _ _ _ Hrender2)
    as (fr2 & st0' & -> & -> & Hstart & Hcontent2 & Hid2 & _).
  exists fr1, fr2.
  pose proof (runAll_id ops1 st1) as H1.
  pose proof (runAll_id ops2 st2) as H2. fold st3 in H2.
  pose proof (startHighlight_id
                (setHighlightsDirty false
                   (ensureVisibleTextBeforeHighlight (runAll ops1 st1)))) as H3.
  rewrite Hstart in H3. cbn [fst] in H3.
  change (_highlightSnapshotId (setHighlightsDirty false ?s))
    with (_highlightSnapshotId s) in H3.
  rewrite ensureVisible_id in H3.
  assert (snapshotId fr1 < snapshotId fr2) as Hlt by lia.
  repeat (split; [first [reflexivity | assumption] |]).
  apply superseded_dropped. lia.
Qed.

(** X13.  Rendering twice in a row starts at most one highlight request: the
    second call of [renderSelf] starts none and leaves the renderable as
    the first call left it. *)
Theorem render_twice_starts_one_request (st : State) :
  (renderSelf (renderSelf st).1.1).1 = ((renderSelf st).1.1, None).
Proof.
  unfold renderSelf at 2 3.
  destruct (_highlightsDirty st) eqn:Hdirty.
  2: { cbn [fst]. unfold renderSelf. rewrite Hdirty. reflexivity. }
  destruct (isDestroyed st) eqn:Hx.
  { cbn [fst]. unfold renderSelf. rewrite Hdirty, Hx. reflexivity. }
  destruct (length (_content st) =? 0)%nat; [reflexivity |].
  destruct (noFiletype st); [reflexivity |].
  assert (forall s, _highlightsDirty s = false ->
            _highlightsDirty (startHighlight s).1 = false) as Hkeep.
  { intros s Hs. unfold startHighlight.
    destruct (_filetype s) as [[| c ft] |]; cbn; try exact Hs.
    destruct (_streaming s && negb _); cbn; exact Hs. }
  specialize (Hkeep (setHighlightsDirty false (ensureVisibleTextBeforeHighlight st))
                eq_refl).
  destruct (startHighlight _) as [st1 pending]. cbn [fst] in *.
  unfold renderSelf. rewrite Hkeep. reflexivity.
Qed.

Lemma ensureVisible_fields (st : State) :
  let st' := ensureVisibleTextBeforeHighlight st in
  _content st' = _content st /\ _filetype st' = _filetype st /\
  _conceal st' = _conceal st /\ _streaming st' = _streaming st /\
  _hadInitialContent st' = _hadInitialContent st /\
  _lastHighlights st' = _lastHighlights st /\
  _onHighlight st' = _onHighlight st /\ _onChunks st' = _onChunks st /\
  isDestroyed st' = isDestroyed st /\ effects st' = effects st /\
  _highlightsDirty st' = _highlightsDirty st.
Proof.
  unfold ensureVisibleTextBeforeHighlight. destruct (isDestroyed st) eqn:Hx.
  { cbn. rewrite Hx. repeat split. }
  destruct (noFiletype st); [cbn; rewrite Hx; repeat split |].
  destruct (_streaming st && negb _); [cbn; rewrite Hx; repeat split |].
  destruct (if _streaming st then _ else _); cbn; rewrite Hx; repeat split.
Qed.

Lemma startHighlight_fields (st st1 : State) (pending : option Pending) :
  startHighlight st = (st1, pending) ->
  _content st1 = _content st /\ _filetype st1 = _filetype st /\
  _conceal st1 = _conceal st /\ _streaming st1 = _streaming st /\
  _lastHighlights st1 = _lastHighlights st /\
  _onHighlight st1 = _onHighlight st /\ _onChunks st1 = _onChunks st /\
  isDestroyed st1 = isDestroyed st /\ effects st1 = effects st /\
  _highlightsDirty st1 = _highlightsDirty st /\
  textBuffer st1 = textBuffer st /\
  _shouldRenderTextBuffer st1 = _shouldRenderTextBuffer st.
Proof.
  unfold startHighlight. destruct (_filetype st) as [[| c ft] |] eqn:Hft.
  1, 3: intros H; injection H as <- <-; cbn; rewrite Hft; repeat split.
  destruct (_streaming _ && negb _); intros H; injection H as <- <-; cbn;
    rewrite Hft; repeat split.
Qed.

(** X14.  The success path, from [renderSelf] to the end of the request.  When
    nothing happens to the renderable in between and no call fails, the
    request ends with the text buffer holding the styled chunks of the
    final highlights for the content the request started from, or that
    content as plain text when there are no highlights; the text is to be
    drawn, highlighting is over, and [updateTextInfo] and [requestRender]
    have been called once each.  In streaming mode highlights that are not
    empty are remembered. *)
Theorem highlight_success (st st1 : State) (fr : Frame) (drawn : bool)
    (result modifiedH : option (list SimpleHighlight))
    (modifiedC : option (list TextChunk)) :
  renderSelf st = (st1, Some (AwaitHighlightOnce fr), drawn) ->
  let highlights := finalHighlights st result modifiedH in
  let final := complete result modifiedH modifiedC fr st1 in
  _isHighlighting st1 = true /\
  textBuffer final = finalText st highlights modifiedC /\
  _shouldRenderTextBuffer final = true /\
  _isHighlighting final = false /\
  _highlightsDirty final = false /\
  _highlightSnapshotId final = _highlightSnapshotId st + 1 /\
  effects final = effects st ++ [UpdateTextInfo; RequestRender] /\
  _lastHighlights final =
    (if _streaming st && (0 <? length highlights)%nat then highlights
     else _lastHighlights st).
Proof.
  intros Hrender highlights final.
  destruct (renderSelf_pending _ _ _ _ Hrender)
    as (fr' & st0 & Hfr & -> & Hstart & Hcontent & Hid & _ & Hx & _ & _ & _).
  injection Hfr as <-.
  destruct (CodeSpec.startHighlight_pending _ _ _ Hstart)
    as (fr' & Hfr & _ & Hid0 & _ & Hhl).
  injection Hfr as <-.
  destruct (startHighlight_fields _ _ _ Hstart)
    as (Hc & _ & Hconceal & Hstreaming & Hlast & HonH & HonC & Hx1 & Heff & _).
  destruct (ensureVisible_fields st)
    as (Hc' & _ & Hconceal' & Hstreaming' & _ & Hlast' & HonH' & HonC' & Hx' & Heff' & _).
  cbn in Hc, Hconceal, Hstreaming, Hlast, HonH, HonC, Hx1, Heff, Hid0.
  rewrite ensureVisible_id in Hid0.
  rewrite Hconceal' in Hconceal. rewrite Hstreaming' in Hstreaming.
  rewrite Hlast' in Hlast. rewrite HonH' in HonH. rewrite HonC' in HonC.
  rewrite Hx', Hx in Hx1. rewrite Heff' in Heff.
  assert (negb (snapshotId fr =? _highlightSnapshotId st1) = false) as Hsame.
  { rewrite Hid, Z.eqb_refl. reflexivity. }
  assert (forall hs, exists s o,
            afterOnHighlight treeSitterToTextChunks fr hs st1 = (s, o) /\
            (o = None \/ exists chunks, o = Some (AwaitOnChunks fr hs chunks)) /\
            let end_ := match o with
                        | Some (AwaitOnChunks fr' _ chunks) =>
                            (resumeOnChunks fr' chunks (Resolved modifiedC) s).1
                        | _ => s
                        end in
            textBuffer end_ = finalText st hs modifiedC /\
            _shouldRenderTextBuffer end_ = true /\
            _isHighlighting end_ = false /\
            _highlightsDirty end_ = false /\
            _highlightSnapshotId end_ = _highlightSnapshotId st + 1 /\
            effects end_ = effects st ++ [UpdateTextInfo; RequestRender] /\
            _lastHighlights end_ =
              (if _streaming st && (0 <? length hs)%nat then hs
               else _lastHighlights st)) as Hafter.
  { intros hs. unfold afterOnHighlight. rewrite Hsame, Hx1, Hstreaming.
    destruct hs as [| h hs]; cbn [length Nat.ltb Nat.leb].
    - eexists _, None. split; [reflexivity |]. split; [left; reflexivity |].
      cbn. rewrite Heff, Hlast, Hcontent, andb_false_r, <- Hid, Hid0.
      repeat split. rewrite <- app_assoc. reflexivity.
    - rewrite andb_true_r. unfold finalText.
      destruct (_streaming st); cbn [_onChunks setLastHighlights _conceal];
        rewrite HonC, Hconceal, Hcontent;
        destruct (_onChunks st); eexists _, _;
        (split; [reflexivity |]);
        (split; [first [left; reflexivity | right; eexists; reflexivity] |]);
        cbn; rewrite Heff, <- Hid, Hid0, ?Hlast;
        repeat split; rewrite <- app_assoc; reflexivity. }
  split; [exact Hhl |].
  unfold final, complete, highlights, finalHighlights.
  cbn [resumeHighlightOnce]. rewrite Hsame, Hx1, HonH.
  destruct (_onHighlight st); [cbn [resumeOnHighlight] |].
  - destruct (Hafter (default (default [] result) modifiedH))
      as (s & o & -> & [-> | [chunks ->]] & Hprops); exact Hprops.
  - destruct (Hafter (default [] result))
      as (s & o & -> & [-> | [chunks ->]] & Hprops); exact Hprops.
Qed.

(** X15.  Outside streaming mode a new content is in the text buffer, as plain
    text, as soon as it has been assigned and rendered, before any
    highlighting has finished.  It is drawn in that render when the
    renderable is alive, the content is not empty, and there is no file type
    or unstyled text is wanted. *)
Theorem nonstreaming_content_shown (st : State) (value : JsString) :
  _streaming st = false ->
  _content st <> value ->
  let r := renderSelf (set_content value st) in
  textBuffer r.1.1 = PlainText value /\
  _highlightsDirty r.1.1 = isDestroyed st /\
  r.2 = negb (isDestroyed st) && negb (length value =? 0)%nat
        && (noFiletype st || _drawUnstyledText st).
Proof.
  intros Hstreaming Hvalue r. unfold r, set_content.
  rewrite bool_decide_eq_true_2 by exact Hvalue. clear Hvalue r.
  destruct st as [content0 filetype0 hl dirty id conceal draw should streaming had
                    last onH onC destroyed tb eff].
  cbn in Hstreaming. subst streaming.
  destruct filetype0 as [[| c ft] |], destroyed, value as [| v value], draw;
    code_eval; repeat split.
Qed.

(** X16.  In streaming mode with a file type and without unstyled text, a new
    content leaves the text buffer as it is until its highlights arrive: the
    text of the previous content stays, and it is drawn once a first content
    has been highlighted. *)
Theorem streaming_keeps_text (st : State) (value : JsString) :
  _streaming st = true ->
  _drawUnstyledText st = false ->
  noFiletype st = false ->
  _content st <> value ->
  let r := renderSelf (set_content value st) in
  textBuffer r.1.1 = textBuffer st /\
  (isDestroyed st = false -> value <> [] ->
   r.2 = _hadInitialContent st /\
   is_Some r.1.2 /\
   _hadInitialContent r.1.1 = true /\
   _highlightSnapshotId r.1.1 = _highlightSnapshotId st + 2).
Proof.
  intros Hstreaming Hdraw Hft Hvalue r. unfold r, set_content.
  rewrite bool_decide_eq_true_2 by exact Hvalue. clear Hvalue r.
  destruct st as [content0 filetype0 hl dirty id conceal draw should streaming had
                    last onH onC destroyed tb eff].
  cbn in Hstreaming, Hdraw, Hft. subst streaming draw.
  destruct filetype0 as [[| c ft] |]; try discriminate.
  destruct destroyed, value as [| v value], had; code_eval;
    (split; [reflexivity |]); intros Hx Hv; try discriminate; try contradiction;
    repeat split; eauto; lia.
Qed.

End Requests.

Lemma content_change_supersedes_request_witness :
  let fr := {| content := lit "let x"; filetype := lit "ts"; snapshotId := 1 |} in
  let st3 := set_content (lit "let y") (renderSelf CodeSpec.fresh).1.1 in
  resumeHighlightOnce CodeSpec.noChunks fr (Resolved (Some [])) st3 = (st3, None).
Proof.
  intros fr st3.
  destruct (content_change_supersedes_request CodeSpec.noChunks CodeSpec.fresh
              (renderSelf CodeSpec.fresh).1.1 (AwaitHighlightOnce fr) true [] []
              (lit "let y"))
    as (fr' & Hfr & _ & H & _).
  - vm_compute. reflexivity.
  - vm_compute. discriminate.
  - injection Hfr as <-. specialize (H (Resolved (Some []))).
    vm_compute in H. vm_compute. exact H.
Defined.

Lemma later_request_supersedes_earlier_witness :
  let fr1 := {| content := lit "let x"; filetype := lit "ts"; snapshotId := 1 |} in
  let st1 := (renderSelf CodeSpec.fresh).1.1 in
  let st2 := (renderSelf (set_filetype (lit "js") st1)).1.1 in
  resumeHighlightOnce CodeSpec.noChunks fr1 (Rejected (lit "late")) st2 = (st2, None).
Proof.
  intros fr1 st1 st2.
  destruct (later_request_supersedes_earlier CodeSpec.noChunks CodeSpec.fresh st1 st2
              (AwaitHighlightOnce fr1)
              (AwaitHighlightOnce
                 {| content := lit "let x"; filetype := lit "js"; snapshotId := 2 |})
              true true [SetFiletype (lit "js")] [])
    as (fr1' & fr2' & Hfr1 & _ & _ & _ & _ & H & _).
  - vm_compute. reflexivity.
  - vm_compute. reflexivity.
  - injection Hfr1 as <-. specialize (H (Rejected (lit "late"))).
    vm_compute in H. vm_compute. exact H.
Defined.

Lemma highlight_success_witness :
  let fr := {| content := lit "let x"; filetype := lit "ts"; snapshotId := 1 |} in
  let final := complete CodeSpec.noChunks (Some [(0, 3, lit "keyword")]) None None fr
                 (renderSelf CodeSpec.fresh).1.1 in
  textBuffer final = StyledText [] /\
  effects final = [UpdateTextInfo; RequestRender].
Proof.
  intros fr final.
  destruct (highlight_success CodeSpec.noChunks CodeSpec.fresh
              (renderSelf CodeSpec.fresh).1.1 fr true
              (Some [(0, 3, lit "keyword")]) None None)
    as (_ & Htext & _ & _ & _ & _ & Heff & _).
  - vm_compute. reflexivity.
  - vm_compute in Htext, Heff. vm_compute. split; [exact Htext | exact Heff].
Defined.

Lemma nonstreaming_content_shown_witness :
  _streaming CodeSpec.fresh = false /\
  textBuffer (renderSelf (set_content (lit "let y") CodeSpec.fresh)).1.1 =
  PlainText (lit "let y").
Proof.
  split; [reflexivity |].
  destruct (nonstreaming_content_shown CodeSpec.fresh (lit "let y")) as (H & _).
  - reflexivity.
  - vm_compute. discriminate.
  - exact H.
Defined.

Lemma streaming_keeps_text_witness :
  _streaming streamed = true /\
  textBuffer (renderSelf (set_content (lit "let x = 1") streamed)).1.1 =
  StyledText [].
Proof.
  split; [reflexivity |].
  destruct (streaming_keeps_text streamed (lit "let x = 1")) as (H & _).
  - reflexivity.
  - reflexivity.
  - reflexivity.
  - vm_compute. discriminate.
  - exact H.
Defined.

End CodeMore.

(** ** The line colours of the line number renderable *)

Module LineNumbersSpec.
Import Js LineNumbers.
Local Open Scope Z_scope.

(** Colours as numbers: an [RGBA] value is taken as it is, any other input
    is black; darkening halves. *)
Definition parseNumber (c : LineColor Z) : Z :=
  match c with
  | Plain _ (ColorValue _ v) => v
  | _ => 0
  end.

Definition halve (v : Z) : Z := v / 2.

(** A renderable with a gutter and without colours and signs. *)
Definition blank : State Z :=
  {| _lineColorsGutter := ∅; _lineColorsContent := ∅; _lineSigns := ∅;
     gutterUpdates := Some (0%nat, 0%nat) |}.

Section Colours.

Context {RGBA : Type}.
Variable parseColor : LineColor RGBA -> RGBA.
Variable darkenColor : RGBA -> RGBA.

Local Abbreviation State := (LineNumbers.State RGBA).
Local Abbreviation gutterMap := (_lineColorsGutter RGBA).
Local Abbreviation contentMap := (_lineColorsContent RGBA).
Local Abbreviation parseLineColor := (LineNumbers.parseLineColor RGBA parseColor darkenColor).

(** The public methods that change colours. *)
Inductive Op : Type :=
  | SetLineColor (line : Z) (color : LineColor RGBA)
  | ClearLineColor (line : Z)
  | ClearAllLineColors
  | SetLineColors (lineColors : list (Z * LineColor RGBA))
  | HighlightLines (startLine endLine : Z) (color : LineColor RGBA)
  | ClearHighlightLines (startLine endLine : Z).

Definition run (op : Op) (st : State) : State :=
  match op with
  | SetLineColor line color => setLineColor RGBA parseColor darkenColor line color st
  | ClearLineColor line => clearLineColor RGBA line st
  | ClearAllLineColors => clearAllLineColors RGBA st
  | SetLineColors lineColors => setLineColors RGBA parseColor darkenColor lineColors st
  | HighlightLines startLine endLine color =>
      highlightLines RGBA parseColor darkenColor startLine endLine color st
  | ClearHighlightLines startLine endLine => clearHighlightLines RGBA startLine endLine st
  end.

Definition runAll (ops : list Op) (st : State) : State :=
  fold_left (fun s op => run op s) ops st.

(** Every line with a gutter colour has a content colour. *)
Definition coloured (st : State) : Prop :=
  forall line : Z, is_Some (gutterMap st !! line) -> is_Some (contentMap st !! line).

(** One line of the range of [clearHighlightLines]. *)
Definition clearOne (s : State) (i : Z) : State :=
  withColors RGBA (delete i (gutterMap s)) (delete i (contentMap s)) s.



Lemma parseLineColor_other (line line' : Z) (color : LineColor RGBA) (st : State) :
  line' <> line ->
  gutterMap (parseLineColor line color st) !! line' = gutterMap st !! line' /\
  contentMap (parseLineColor line color st) !! line' = contentMap st !! line'.
Proof.
  intros Hne. unfold LineNumbers.parseLineColor.
  destruct color as [c | [[g |] c]]; cbn [_lineColorsGutter _lineColorsContent withColors].
  - rewrite !lookup_insert_ne by congruence. split; reflexivity.
  - destruct (truthy RGBA (Some g)), (truthy RGBA c);
      rewrite ?lookup_insert_ne by congruence; split; reflexivity.
  - rewrite !lookup_insert_ne by congruence. split; reflexivity.
Qed.


Lemma parseLineColor_coloured (line : Z) (color : LineColor RGBA) (st : State) :
  coloured st -> coloured (parseLineColor line color st).
Proof.
  intros Hst line'. destruct (decide (line' = line)) as [-> | Hne].
  - unfold LineNumbers.parseLineColor.
    destruct color as [c | [[g |] c]]; cbn [_lineColorsGutter _lineColorsContent withColors].
    + rewrite !lookup_insert_eq. eauto.
    + destruct (truthy RGBA (Some g)), (truthy RGBA c);
        rewrite ?lookup_insert_eq; eauto.
    + rewrite !lookup_insert_eq. eauto.
  - destruct (parseLineColor_other line line' color st Hne) as [-> ->]. apply Hst.
Qed.

Lemma clearOne_coloured (st : State) (i : Z) : coloured st -> coloured (clearOne st i).
Proof.
  intros Hst line. unfold clearOne. cbn.
  destruct (decide (line = i)) as [-> | Hne].
  - rewrite lookup_delete_eq. intros [x Hx]. discriminate.
  - rewrite !lookup_delete_ne by congruence. apply Hst.
Qed.

Lemma notifyColors_coloured (st : State) : coloured st -> coloured (notifyColors RGBA st).
Proof. intros Hst. exact Hst. Qed.

Lemma fold_coloured {A} (f : State -> A -> State) (l : list A) :
  (forall s a, coloured s -> coloured (f s a)) ->
  forall st, coloured st -> coloured (fold_left f l st).
Proof.
  intros Hf. induction l as [| a l IH]; intros st Hst; cbn; [exact Hst |].
  apply IH, Hf, Hst.
Qed.

Lemma empty_coloured (st : State) : coloured (withColors RGBA ∅ ∅ st).
Proof. intros line. cbn. rewrite lookup_empty. intros [x Hx]. discriminate. Qed.

Lemma run_coloured (op : Op) (st : State) : coloured st -> coloured (run op st).
Proof.
  intros Hst. destruct op as [line color | line | | lineColors | s e color | s e];
    cbn [run].
  - apply notifyColors_coloured, parseLineColor_coloured, Hst.
  - apply notifyColors_coloured, (clearOne_coloured st line), Hst.
  - apply notifyColors_coloured, empty_coloured.
  - apply notifyColors_coloured.
    apply (fold_coloured (fun s entry => parseLineColor entry.1 entry.2 s)).
    + intros s a. apply parseLineColor_coloured.
    + apply empty_coloured.
  - apply notifyColors_coloured.
    apply (fold_coloured (fun s i => parseLineColor i color s)).
    + intros s' a. apply parseLineColor_coloured.
    + exact Hst.
  - apply notifyColors_coloured. apply (fold_coloured clearOne).
    + intros s' a. apply clearOne_coloured.
    + exact Hst.
Qed.

(** X17.  Whatever colours are set and cleared, a line that has a gutter colour
    has a content colour too. *)
Theorem gutter_colour_has_content_colour (ops : list Op) (st : State) :
  coloured st -> coloured (runAll ops st).
Proof.
  revert st. induction ops as [| op ops IH]; intros st Hst; cbn; [exact Hst |].
  apply IH, run_coloured, Hst.
Qed.











End Colours.

Lemma gutter_colour_has_content_colour_witness :
  coloured
    (runAll parseNumber halve
       [HighlightLines 1 3 (Plain Z (ColorValue Z 200)); ClearLineColor 2;
        SetLineColor 5 (Config Z {| gutter := Some None;
                                    content := Some (Some (ColorValue Z 90)) |})]
       blank).
Proof.
  apply gutter_colour_has_content_colour.
  intros line. cbn. rewrite lookup_empty. intros [x Hx]. discriminate.
Defined.



End LineNumbersSpec.

(** ** Link detection: where links come from *)

Module LinksMore.
Import Js Links.
Local Open Scope Z_scope.

(** The URL comes from a highlight with a URL scope: it is the text the
    highlight spans. *)
Definition urlOfHighlight (context : Context) (u : JsString) : Prop :=
  exists start end_ group,
    (start, end_, group) ∈ highlights context /\
    group ∈ URL_SCOPES /\
    u = slice (content context) start end_.

(** [search] occurs somewhere in [s]. *)
Definition occursIn (search s : JsString) : Prop :=
  exists idx : nat, startsWith s search idx = true.

(** How the link of a chunk can differ after the loop: it is the URL of one
    of the ranges, and the chunk has more than one code unit and occurs in
    the content. *)
Definition linked (content : JsString) (ranges : list Range) (c c' : TextChunk) : Prop :=
  link c' = link c \/
  (exists range, range ∈ ranges /\ link c' = Some {| url := range_url range |}) /\
  (1 < length (text c))%nat /\ occursIn (text c) content.

(** The links the loop over the chunks assigns, by reference; a later
    assignment to an object replaces an earlier one.  The loop reads only
    the texts of the objects. *)
Fixpoint linkPlan (content : JsString) (ranges : list Range) (elems : list Ref)
    (contentPos : nat) (objs : gmap Ref TextChunk) (plan : gmap Ref Link)
    : gmap Ref Link :=
  match elems with
  | [] => plan
  | r :: elems' =>
      match objs !! r with
      | None => linkPlan content ranges elems' contentPos objs plan
      | Some chunk =>
          if (length (text chunk) <=? 1)%nat then
            linkPlan content ranges elems' contentPos objs plan
          else
            let idx := indexOf content (text chunk) contentPos in
            if idx <? 0 then linkPlan content ranges elems' contentPos objs plan
            else
              linkPlan content ranges elems'
                (Z.to_nat idx + length (text chunk))%nat objs
                match find (overlaps idx (length (text chunk))) ranges with
                | Some range => <[r := {| url := range_url range |}]> plan
                | None => plan
                end
      end
  end.

(** The store with the links of a plan assigned. *)
Definition withLinks (plan : gmap Ref Link) (objs : gmap Ref TextChunk)
    : gmap Ref TextChunk :=
  map_imap (fun r chunk => Some (match plan !! r with
                                 | Some l => setLink chunk l
                                 | None => chunk
                                 end)) objs.

Lemma labelRange_url (earlier : list SimpleHighlight) (u : JsString) (range : Range) :
  range ∈ labelRange earlier u -> range_url range = u.
Proof.
  induction earlier as [| [[labelStart labelEnd] prev] earlier IH]; cbn [labelRange].
  { intros H. inversion H. }
  destruct (bool_decide (prev = lit "markup.link.label")).
  { intros H. apply list_elem_of_singleton in H. subst range. reflexivity. }
  destruct (negb _); [intros H; inversion H | exact IH].
Qed.

Lemma collectRanges_urls (context : Context) (rest : list SimpleHighlight) :
  forall earlier ranges,
  (forall h, h ∈ rest -> h ∈ highlights context) ->
  Forall (fun range => urlOfHighlight context (range_url range)) ranges ->
  Forall (fun range => urlOfHighlight context (range_url range))
    (collectRanges (content context) earlier rest ranges).
Proof.
  induction rest as [| [[start end_] group] rest IH]; intros earlier ranges Hsub Hall;
    cbn [collectRanges]; [exact Hall |].
  assert (forall h, h ∈ rest -> h ∈ highlights context) as Hsub'.
  { intros h Hh. apply Hsub. right. exact Hh. }
  unfold includes. destruct (bool_decide (group ∈ URL_SCOPES)) eqn:Hscope; cbn [negb].
  2: { apply IH; assumption. }
  apply bool_decide_eq_true_1 in Hscope.
  assert (urlOfHighlight context (slice (content context) start end_)) as Hurl.
  { exists start, end_, group. split; [apply Hsub; left |]; auto. }
  apply IH; [exact Hsub' |].
  apply Forall_app. split; [exact Hall |].
  apply Forall_app. split; [constructor; [exact Hurl | constructor] |].
  apply Forall_forall. intros range Hrange.
  rewrite (labelRange_url _ _ _ Hrange). exact Hurl.
Qed.

Lemma indexOfFrom_occurs (search rest : JsString) : forall (i : nat) (idx : Z),
  indexOfFrom search rest i = idx -> 0 <= idx ->
  exists k : nat, idx = Z.of_nat (i + k) /\ isPrefixOf search (drop k rest) = true.
Proof.
  induction rest as [| c rest IH]; intros i idx Hidx Hpos; cbn [indexOfFrom] in Hidx.
  - destruct (isPrefixOf search []) eqn:Hpre; [| lia].
    exists 0%nat. split; [lia | exact Hpre].
  - destruct (isPrefixOf search (c :: rest)) eqn:Hpre.
    + exists 0%nat. split; [lia | exact Hpre].
    + destruct (IH (S i) idx Hidx Hpos) as (k & -> & Hk).
      exists (S k). split; [lia | exact Hk].
Qed.

Lemma indexOf_occurs (s search : JsString) (position : nat) :
  0 <= indexOf s search position -> occursIn search s.
Proof.
  unfold indexOf. intros Hpos.
  destruct (indexOfFrom_occurs _ _ _ _ eq_refl Hpos) as (k & _ & Hk).
  exists (Nat.min position (length s) + k)%nat. unfold startsWith.
  rewrite <- drop_drop. exact Hk.
Qed.

Lemma linkLoop_links content ranges elems : forall contentPos objs r c,
  objs !! r = Some c ->
  exists c',
    linkLoop content ranges elems contentPos objs !! r = Some c' /\
    text c' = text c /\ attributes c' = attributes c /\
    linked content ranges c c' /\
    (r ∉ elems -> c' = c).
Proof.
  induction elems as [| r0 elems IH]; intros contentPos objs r c Hr; cbn [linkLoop].
  { exists c. repeat split; auto. left. reflexivity. }
  assert (forall pos, exists c',
            linkLoop content ranges elems pos objs !! r = Some c' /\
            text c' = text c /\ attributes c' = attributes c /\
            linked content ranges c c' /\ (r ∉ r0 :: elems -> c' = c)) as Hskip.
  { intros pos. destruct (IH pos objs r c Hr) as (c' & H1 & H2 & H3 & H4 & H5).
    exists c'. repeat split; auto. intros Hnot. apply H5.
    intros Hin. apply Hnot. right. exact Hin. }
  destruct (objs !! r0) as [chunk |] eqn:Hr0; [| apply Hskip].
  destruct (length (text chunk) <=? 1)%nat eqn:Hshort; [apply Hskip |].
  apply Nat.leb_gt in Hshort.
  destruct (indexOf content (text chunk) contentPos <? 0) eqn:Hidx; [apply Hskip |].
  apply Z.ltb_ge in Hidx.
  destruct (find _ ranges) as [range |] eqn:Hfind; [| apply Hskip].
  apply find_some in Hfind as [Hrange _].
  destruct (decide (r0 = r)) as [-> | Hne].
  - assert (chunk = c) as -> by congruence.
    destruct (IH (Z.to_nat (indexOf content (text c) contentPos) + length (text c))%nat
                (<[r := setLink c {| url := range_url range |}]> objs) r
                (setLink c {| url := range_url range |}))
      as (c' & Hc' & Htext & Hattr & Hlinked & _); [apply lookup_insert_eq |].
    exists c'. cbn [setLink text attributes] in Htext, Hattr.
    split; [exact Hc' |]. split; [exact Htext |]. split; [exact Hattr |].
    split.
    + right. split; [| split; [exact Hshort | exact (indexOf_occurs _ _ _ Hidx)]].
      destruct Hlinked as [Hsame | [Hnew _]]; [| exact Hnew].
      exists range. split; [apply list_elem_of_In; exact Hrange | exact Hsame].
    + intros Hnot. exfalso. apply Hnot. left.
  - destruct (IH (Z.to_nat (indexOf content (text chunk) contentPos)
                  + length (text chunk))%nat
                (<[r0 := setLink chunk {| url := range_url range |}]> objs) r c)
      as (c' & H1 & H2 & H3 & H4 & H5).
    { rewrite lookup_insert_ne by exact Hne. exact Hr. }
    exists c'. repeat split; auto. intros Hnot. apply H5.
    intros Hin. apply Hnot. right. exact Hin.
Qed.

(** X21.  [detectLinks] changes nothing but links of the chunks of the array it
    is given: no object is added to the store or removed from it, every
    chunk keeps its text and attributes, and a chunk that is not an element
    of the array is left as it was. *)
Theorem detectLinks_changes_only_links (chunks : Ref) (context : Context)
    (st : Store) (r : Ref) :
  let st' := (detectLinks chunks context st).2 in
  (chunkObjects st !! r = None <-> chunkObjects st' !! r = None) /\
  (forall c, chunkObjects st !! r = Some c ->
     exists c',
       chunkObjects st' !! r = Some c' /\
       text c' = text c /\ attributes c' = attributes c /\
       (r ∉ default [] (arrays st !! chunks) -> c' = c)).
Proof.
  intros st'. unfold st', detectLinks.
  destruct (length _ =? 0)%nat; cbn [snd chunkObjects].
  { split; [reflexivity |]. intros c Hc. exists c. auto. }
  set (ranges := collectRanges (content context) [] (highlights context) []).
  set (elems := default [] (arrays st !! chunks)).
  split.
  - split.
    + apply LinksSpec.linkLoop_fresh.
    + intros Hnone. destruct (chunkObjects st !! r) as [c |] eqn:Hc; [| reflexivity].
      destruct (linkLoop_links (content context) ranges elems 0 _ r c Hc)
        as (c' & Hc' & _).
      congruence.
  - intros c Hc.
    destruct (linkLoop_links (content context) ranges elems 0 _ r c Hc)
      as (c' & Hc' & Htext & Hattr & _ & Hout).
    exists c'. auto.
Qed.

(** X22.  A link that [detectLinks] sets or changes is the text that a highlight
    with a URL scope spans in the content, and it is given only to an
    element of the array that has more than one code unit and whose text
    occurs in the content. *)
Theorem detectLinks_link_provenance (chunks : Ref) (context : Context) (st : Store)
    (r : Ref) (c c' : TextChunk) :
  chunkObjects st !! r = Some c ->
  chunkObjects (detectLinks chunks context st).2 !! r = Some c' ->
  link c' <> link c ->
  (exists u, link c' = Some {| url := u |} /\ urlOfHighlight context u) /\
  (1 < length (text c))%nat /\
  occursIn (text c) (content context) /\
  r ∈ default [] (arrays st !! chunks).
Proof.
  intros Hc Hc' Hdiff. unfold detectLinks in Hc'.
  destruct (length _ =? 0)%nat; cbn [snd chunkObjects] in Hc'; [congruence |].
  destruct (linkLoop_links (content context)
              (collectRanges (content context) [] (highlights context) [])
              (default [] (arrays st !! chunks)) 0 _ r c Hc)
    as (c0 & Hc0 & _ & _ & Hlinked & Hout).
  assert (c0 = c') as -> by congruence.
  destruct Hlinked as [Hsame | ((range & Hrange & Hlink) & Hlong & Hocc)];
    [contradiction |].
  split; [| split; [exact Hlong | split; [exact Hocc |]]].
  - exists (range_url range). split; [exact Hlink |].
    pose proof (collectRanges_urls context (highlights context) [] []
                  (fun h Hh => Hh) (Forall_nil_2 _)) as Hall.
    rewrite Forall_forall in Hall. apply Hall, Hrange.
  - destruct (decide (r ∈ default [] (arrays st !! chunks))) as [Hin | Hnot];
      [exact Hin |].
    exfalso. apply Hdiff. rewrite (Hout Hnot). reflexivity.
Qed.

Lemma detectLinks_link_provenance_witness :
  exists u,
    Some {| url := lit "https://example.com" |} = Some {| url := u |} /\
    urlOfHighlight LinksSpec.markdownLink u.
Proof.
  destruct (detectLinks_link_provenance 1 LinksSpec.markdownLink
              (LinksSpec.storeOf ["["; "Click here"; "]("; "https://example.com"; ")"])
              3 (LinksSpec.chunk "Click here")
              {| text := lit "Click here"; attributes := 0;
                 link := Some {| url := lit "https://example.com" |} |})
    as (H & _).
  - vm_compute. reflexivity.
  - vm_compute. reflexivity.
  - cbn. discriminate.
  - exact H.
Defined.


Lemma withLinks_lookup (plan : gmap Ref Link) (objs : gmap Ref TextChunk) (r : Ref) :
  withLinks plan objs !! r =
  (fun chunk => match plan !! r with
                | Some l => setLink chunk l
                | None => chunk
                end) <$> objs !! r.
Proof.
  unfold withLinks. rewrite map_lookup_imap. destruct (objs !! r); reflexivity.
Qed.

Lemma withLinks_empty (objs : gmap Ref TextChunk) : withLinks ∅ objs = objs.
Proof.
  apply map_eq. intros r. rewrite withLinks_lookup, lookup_empty.
  destruct (objs !! r); reflexivity.
Qed.

Lemma withLinks_insert (plan : gmap Ref Link) (objs : gmap Ref TextChunk) (r : Ref)
    (chunk : TextChunk) (l : Link) :
  objs !! r = Some chunk ->
  <[r := setLink (match plan !! r with
                  | Some l' => setLink chunk l'
                  | None => chunk
                  end) l]> (withLinks plan objs) =
  withLinks (<[r := l]> plan) objs.
Proof.
  intros Hr. apply map_eq. intros r'. rewrite withLinks_lookup.
  destruct (decide (r = r')) as [<- | Hne].
  - rewrite !lookup_insert_eq, Hr. cbn. destruct (plan !! r); reflexivity.
  - rewrite !lookup_insert_ne by exact Hne. rewrite withLinks_lookup. reflexivity.
Qed.

Lemma withLinks_twice (plan : gmap Ref Link) (objs : gmap Ref TextChunk) :
  withLinks plan (withLinks plan objs) = withLinks plan objs.
Proof.
  apply map_eq. intros r. rewrite !withLinks_lookup.
  destruct (objs !! r) as [chunk |]; [| reflexivity]. cbn.
  destruct (plan !! r); reflexivity.
Qed.

(** The loop is the assignment of its plan. *)
Lemma linkLoop_plan content ranges elems :
  forall contentPos (objs : gmap Ref TextChunk) (plan : gmap Ref Link),
  linkLoop content ranges elems contentPos (withLinks plan objs) =
  withLinks (linkPlan content ranges elems contentPos objs plan) objs.
Proof.
  induction elems as [| r elems IH]; intros contentPos objs plan;
    cbn [linkLoop linkPlan]; [reflexivity |].
  rewrite withLinks_lookup.
  destruct (objs !! r) as [chunk |] eqn:Hr; cbn [fmap option_fmap option_map];
    [| apply IH].
  assert (text (match plan !! r with
                | Some l => setLink chunk l
                | None => chunk
                end) = text chunk) as ->.
  { destruct (plan !! r); reflexivity. }
  destruct (length (text chunk) <=? 1)%nat; [apply IH |].
  destruct (indexOf content (text chunk) contentPos <? 0); [apply IH |].
  destruct (find _ ranges) as [range |]; [| apply IH].
  rewrite (withLinks_insert plan objs r chunk _ Hr). apply IH.
Qed.

Lemma linkPlan_texts content ranges elems :
  forall contentPos (objs objs' : gmap Ref TextChunk) (plan : gmap Ref Link),
  (forall r, text <$> objs !! r = text <$> objs' !! r) ->
  linkPlan content ranges elems contentPos objs plan =
  linkPlan content ranges elems contentPos objs' plan.
Proof.
  induction elems as [| r elems IH]; intros contentPos objs objs' plan Hsame;
    cbn [linkPlan]; [reflexivity |].
  specialize (Hsame r) as Hr.
  destruct (objs !! r) as [chunk |], (objs' !! r) as [chunk' |]; try discriminate;
    [| apply IH; exact Hsame].
  cbn in Hr. injection Hr as ->.
  destruct (length (text chunk') <=? 1)%nat; [apply IH; exact Hsame |].
  destruct (indexOf content (text chunk') contentPos <? 0); [apply IH; exact Hsame |].
  apply IH. exact Hsame.
Qed.

(** X26.  Detecting links again changes nothing: a second call of
    [detectLinks] with the same array and context leaves every chunk as the
    first call left it, also when an object occurs in the array more than
    once. *)
Theorem detectLinks_idempotent (chunks : Ref) (context : Context) (st : Store) :
  detectLinks chunks context (detectLinks chunks context st).2 =
  detectLinks chunks context st.
Proof.
  unfold detectLinks.
  destruct (length _ =? 0)%nat eqn:Hempty; cbn [snd]; rewrite ?Hempty; [reflexivity |].
  cbn [arrays chunkObjects]. f_equal. f_equal.
  set (ranges := collectRanges (content context) [] (highlights context) []).
  set (elems := default [] (arrays st !! chunks)).
  set (objs := chunkObjects st).
  assert (forall o, linkLoop (content context) ranges elems 0 o =
                    withLinks (linkPlan (content context) ranges elems 0 o ∅) o) as Hplan.
  { intros o. rewrite <- (withLinks_empty o) at 1. apply linkLoop_plan. }
  rewrite (Hplan objs).
  set (plan := linkPlan (content context) ranges elems 0 objs ∅).
  rewrite (Hplan (withLinks plan objs)).
  rewrite (linkPlan_texts _ _ _ 0 (withLinks plan objs) objs ∅).
  - apply withLinks_twice.
  - intros r. rewrite withLinks_lookup. destruct (objs !! r) as [chunk |]; [| reflexivity].
    cbn. destruct (plan !! r); reflexivity.
Qed.

End LinksMore.

(** ** Rebuilding the diff view: the unified view and destroyed renderables *)

Module DiffMore.
Import Js Diff DiffSpec.

(** The values among [values] that differ from the diff current when they
    are assigned, [cur] being the diff at the start. *)
Fixpoint changes (cur : JsString) (values : list JsString) : list JsString :=
  match values with
  | [] => []
  | value :: values' =>
      if bool_decide (cur <> value) then value :: changes value values'
      else changes cur values'
  end.

(** A renderable in unified view. *)
Definition idleUnified : Diff.State unit :=
  {| _diff := lit "a"; _view := Unified; _parsedDiff := None; _parseError := None;
     _waitingForHighlight := false; pendingRebuild := false; isDestroyed := false;
     microtasks := []; built := []; requestRenderCalls := 0 |}.

(** A renderable in split view, destroyed while a rebuild is queued. *)
Definition destroyedSplit : Diff.State unit :=
  {| _diff := lit "a"; _view := Split; _parsedDiff := None; _parseError := None;
     _waitingForHighlight := false; pendingRebuild := true; isDestroyed := true;
     microtasks := [RebuildTask]; built := []; requestRenderCalls := 0 |}.

Section Rebuilding.

Context {StructuredPatch : Type}.
Variable parsePatch : JsString -> PatchResult StructuredPatch.

Local Abbreviation State := (Diff.State StructuredPatch).

Lemma requestRebuild_fields (st : State) :
  built (requestRebuild st) = built st /\
  requestRenderCalls (requestRebuild st) = requestRenderCalls st /\
  _view (requestRebuild st) = _view st /\
  isDestroyed (requestRebuild st) = isDestroyed st.
Proof. unfold requestRebuild. destruct (pendingRebuild st); repeat split. Qed.

Lemma set_diff_split (value : JsString) (st : State) :
  _view st = Split ->
  built (set_diff parsePatch value st) = built st /\
  requestRenderCalls (set_diff parsePatch value st) = requestRenderCalls st /\
  _view (set_diff parsePatch value st) = Split /\
  isDestroyed (set_diff parsePatch value st) = isDestroyed st.
Proof.
  intros Hview. unfold set_diff. destruct (bool_decide (_diff st <> value)); [| auto].
  set (st1 := Build_State _ _ _ _ _ _ _ _ _ _ _).
  destruct (parseDiff_fields parsePatch st1) as (_ & _ & Hb & Hv & _ & Hx).
  assert (requestRenderCalls (parseDiff parsePatch st1) = requestRenderCalls st) as Hr.
  { unfold parseDiff. destruct (length (_diff st1) =? 0)%nat; [reflexivity |].
    destruct (parsePatch (_diff st1)) as [[| p ps] | e]; reflexivity. }
  unfold rebuildView. rewrite Hv. cbn [_view st1]. rewrite Hview.
  destruct (requestRebuild_fields (parseDiff parsePatch st1)) as (-> & -> & -> & ->).
  rewrite Hb, Hr, Hv, Hx. cbn. auto.
Qed.

Lemma issueAll_split (reqs : list Request) : forall st : State,
  _view st = Split ->
  built (issueAll parsePatch reqs st) = built st /\
  requestRenderCalls (issueAll parsePatch reqs st) = requestRenderCalls st /\
  isDestroyed (issueAll parsePatch reqs st) = isDestroyed st.
Proof.
  induction reqs as [| req reqs IH]; intros st Hview; cbn [issueAll fold_left]; [auto |].
  assert (built (issue parsePatch req st) = built st /\
          requestRenderCalls (issue parsePatch req st) = requestRenderCalls st /\
          _view (issue parsePatch req st) = Split /\
          isDestroyed (issue parsePatch req st) = isDestroyed st)
    as (Hb & Hr & Hv & Hx).
  { destruct req as [| value]; cbn [issue].
    - destruct (requestRebuild_fields st) as (? & ? & Hv & ?). rewrite Hv. auto.
    - apply set_diff_split, Hview. }
  destruct (IH (issue parsePatch req st) Hv) as (Hb' & Hr' & Hx').
  fold (issueAll parsePatch reqs (issue parsePatch req st)).
  rewrite Hb', Hr', Hx', Hb, Hr, Hx. auto.
Qed.

Lemma runTasks_destroyed (tasks : list Microtask) : forall st : State,
  isDestroyed st = true -> runTasks tasks st = st.
Proof.
  induction tasks as [| [] tasks IH]; intros st Hx; cbn [runTasks]; [reflexivity |].
  unfold runMicrotask. rewrite Hx. cbn [negb andb]. apply IH, Hx.
Qed.

(** X23.  A destroyed renderable is never rebuilt.  In split view, whatever was
    pending or queued and whatever rebuild requests follow, the requests
    and the queued tasks rebuild nothing and request no render: running the
    queue only empties it. *)
Theorem destroyed_never_rebuilds (reqs : list Request) (st : State) :
  _view st = Split -> isDestroyed st = true ->
  let st' := issueAll parsePatch reqs st in
  drainMicrotasks st' = clearQueue st' /\
  built (drainMicrotasks st') = built st /\
  requestRenderCalls (drainMicrotasks st') = requestRenderCalls st.
Proof.
  intros Hview Hx st'.
  destruct (issueAll_split reqs st Hview) as (Hb & Hr & Hx'). fold st' in Hb, Hr, Hx'.
  assert (drainMicrotasks st' = clearQueue st') as Hdrain.
  { unfold drainMicrotasks. apply runTasks_destroyed. cbn. congruence. }
  rewrite Hdrain. cbn. auto.
Qed.

Lemma set_diff_unified (value : JsString) (st : State) :
  _view st = Unified ->
  let st' := set_diff parsePatch value st in
  built st' = built st ++ (if bool_decide (_diff st <> value) then [value] else []) /\
  _diff st' = value /\
  _view st' = Unified /\
  microtasks st' = microtasks st /\
  pendingRebuild st' = pendingRebuild st.
Proof.
  intros Hview st'. unfold st', set_diff.
  destruct (decide (_diff st <> value)) as [Hne | Heq].
  - rewrite !bool_decide_eq_true_2 by exact Hne.
    set (st1 := Build_State _ _ _ _ _ _ _ _ _ _ _).
    destruct (parseDiff_fields parsePatch st1) as (Hp & Hq & Hb & Hv & Hd & _).
    unfold rebuildView. rewrite Hv. cbn [_view st1]. rewrite Hview.
    cbn [buildView built _diff _view microtasks pendingRebuild].
    rewrite Hb, Hd, Hv, Hq, Hp. cbn. auto.
  - rewrite !bool_decide_eq_false_2 by exact Heq.
    rewrite app_nil_r. repeat split; auto.
    destruct (decide (_diff st = value)) as [H | H]; [exact H | contradiction].
Qed.

(** X24.  In unified view every assignment of a diff that differs from the
    current one rebuilds the view at once, from the value assigned; an
    assignment of the current diff does nothing; no task is queued. *)
Theorem unified_rebuilds_at_once (values : list JsString) (st : State) :
  _view st = Unified ->
  let st' := issueAll parsePatch (map AssignDiff values) st in
  built st' = built st ++ changes (_diff st) values /\
  _diff st' = default (_diff st) (last values) /\
  microtasks st' = microtasks st /\
  pendingRebuild st' = pendingRebuild st.
Proof.
  revert st. induction values as [| value values IH]; intros st Hview st'.
  { unfold st'. cbn. rewrite app_nil_r. auto. }
  unfold st'. cbn [map issueAll fold_left issue].
  fold (issueAll parsePatch (map AssignDiff values) (set_diff parsePatch value st)).
  destruct (set_diff_unified value st Hview) as (Hb & Hd & Hv & Hq & Hp).
  cbn zeta in Hb, Hd, Hv, Hq, Hp.
  destruct (IH (set_diff parsePatch value st) Hv) as (Hb' & Hd' & Hq' & Hp').
  cbn zeta in Hb', Hd', Hq', Hp'.
  rewrite Hb', Hd', Hq', Hp', Hb, Hd, Hq, Hp. cbn [changes].
  split; [| split; [| auto]].
  - destruct (decide (_diff st <> value)) as [Hne | Heq].
    + rewrite !bool_decide_eq_true_2 by exact Hne. rewrite <- app_assoc. reflexivity.
    + rewrite !bool_decide_eq_false_2 by exact Heq. rewrite app_nil_r.
      destruct (decide (_diff st = value)) as [-> | H]; [reflexivity | contradiction].
  - rewrite last_cons. destruct (last values); reflexivity.
Qed.

End Rebuilding.

Lemma destroyed_never_rebuilds_witness :
  built (drainMicrotasks
           (issueAll noPatches [AssignDiff (lit "b"); CallRequestRebuild]
              destroyedSplit)) = [].
Proof.
  destruct (destroyed_never_rebuilds noPatches [AssignDiff (lit "b"); CallRequestRebuild]
              destroyedSplit) as (_ & H & _).
  - reflexivity.
  - reflexivity.
  - exact H.
Defined.

Lemma unified_rebuilds_at_once_witness :
  built (issueAll noPatches
           (map AssignDiff [lit "b"; lit "b"; lit "c"]) idleUnified) =
  [] ++ changes (lit "a") [lit "b"; lit "b"; lit "c"].
Proof.
  destruct (unified_rebuilds_at_once noPatches [lit "b"; lit "b"; lit "c"] idleUnified)
    as (H & _).
  - reflexivity.
  - exact H.
Defined.

End DiffMore.
